(** * Rebasing stock token and its non-rebasing wrapper

    A shallow embedding of the three Go programs of the repository:

    - [src/unnamed/part_000]: [TSLAToken] with [Rebase];
    - [src/main.go]: [StockToken] with [Mint], [Rebase] and [Interact],
      [OndoWrappedStock] with [Wrap], [Unwrap], [UpdateExchangeRate] and
      [Transfer];
    - [src/unnamed/part_001]: the same, with [Unwrap] burning from the
      contract address and paying a recipient, and the new [Claim].

    Amounts are [*big.Int] in the source.  A [big.Int] value is a [Z]; a
    pointer read out of a [map[string]*big.Int] is an [option Z], [None]
    being the nil pointer a Go map returns for an absent key.  Every map
    entry is a freshly allocated [big.Int] ([big.NewInt(0)] or
    [new(big.Int)]), so entries never alias each other and a
    [gmap string Z] is a faithful store.  The amount a caller hands to a
    method is a [*big.Int] as well, and may be one of the ledgers' own
    objects: the methods are embedded twice, for an amount that is a
    number of the caller's own ([Wrap], [Transfer], ...) and for an
    amount that is any pointer ([Ptr.Wrap], [Ptr.Transfer], ...), and the
    two are proved to agree wherever the pointer is not the entry the
    call debits.  Output ([fmt.Printf]) is not modelled. *)

From Stdlib Require Import ZArith Lia Ascii String.
#[warnings="-deprecated-library-file"]
From Stdlib Require Import Zeuclid.
From stdpp Require Import base option strings pretty gmap fin_maps.

Open Scope Z_scope.

(** ** Panics and the state-and-panic monad

    A Go panic does not roll the heap back: the state reached when the
    panic is raised is what a deferred [recover] observes.  A crashed
    computation therefore still carries its state. *)

Inductive panic : Type :=
  | Panic (msg : string)   (* an explicit [panic(msg)] of the program *)
  | NilDereference         (* runtime error: nil pointer dereference *)
  | DivisionByZero.        (* math/big: division by zero *)

Inductive result (S A : Type) : Type :=
  | Done (a : A) (s : S)
  | Crash (p : panic) (s : S).
Arguments Done {S A} a s.
Arguments Crash {S A} p s.

Definition M (S A : Type) : Type := S -> result S A.

Definition ret {S A} (a : A) : M S A := fun s => Done a s.

Definition bind {S A B} (c : M S A) (k : A -> M S B) : M S B :=
  fun s => match c s with
           | Done a s' => k a s'
           | Crash p s' => Crash p s'
           end.

Definition throw {S A} (p : panic) : M S A := fun s => Crash p s.
Definition get {S} : M S S := fun s => Done s s.
Definition modify {S} (f : S -> S) : M S unit := fun s => Done tt (f s).

Notation "'let*' x ':=' c 'in' k" := (bind c (fun x => k))
  (at level 10, x name, c at level 100, k at level 200).
Notation "c ';;;' k" := (bind c (fun _ => k))
  (at level 100, k at level 200, right associativity).

(** The state a computation ends in, whether it returned or panicked. *)
Definition final_state {S A} (r : result S A) : S :=
  match r with Done _ s => s | Crash _ s => s end.

(** Running a computation on a component of a larger state. *)
Definition zoom {S T A} (proj : S -> T) (inj : T -> S -> S) (c : M T A) : M S A :=
  fun s => match c (proj s) with
           | Done a t => Done a (inj t s)
           | Crash p t => Crash p (inj t s)
           end.

(** ** math/big *)

(** [const basePrecision = 1_000_000] *)
Definition basePrecision : Z := 1000000.

(** The methods of [big.Int] read the fields of their operands: a nil
    operand is a nil pointer dereference. *)
Definition deref {S} (p : option Z) : M S Z :=
  match p with
  | Some v => ret v
  | None => throw NilDereference
  end.

(** [z.Div(x, y)]: Euclidean division, a run-time panic when [y] is zero. *)
Definition big_Div {S} (x y : Z) : M S Z :=
  if y =? 0 then throw DivisionByZero else ret (ZEuclid.div x y).

(** [big.NewInt(int64(v))] for [v : uint64]: the conversion keeps the bit
    pattern, so values from [2^63] on become negative. *)
Definition int64_of_uint64 (v : Z) : Z :=
  let u := v mod 2 ^ 64 in
  if u <? 2 ^ 63 then u else u - 2 ^ 64.

(** [strings.HasPrefix(s, "0xCONTRACT")] *)
Definition isContract (s : string) : bool := String.prefix "0xCONTRACT" s.

(** ** Data *)

(** [type Dividend struct] *)
Record Dividend : Type := mkDividend {
  cashAmount : Z;   (* amount in cents *)
  sharePrice : Z    (* current share price in cents *)
}.

(** The dynamic values [Rebase(action interface{})] can be handed.  The
    type switch of [Rebase] has the cases [uint64] and [Dividend] only. *)
Inductive GoValue : Type :=
  | VUint64 (v : Z)            (* 0 <= v < 2^64 *)
  | VDividend (d : Dividend)
  | VDividendPtr (d : Dividend)
  | VInt (i : Z)
  | VInt64 (i : Z)
  | VString (s : string)
  | VNil.

(** [type StockToken struct].  The field [sharePrice] exists in part_001
    only, where nothing but [main] and [displayBalances] touches it. *)
Record StockToken : Type := mkStockToken {
  st_ticker : string;
  st_totalSupply : Z;
  st_balances : gmap string Z;
  st_rebaseMultiplier : Z;
  st_sharePrice : Z
}.

(** [type OndoWrappedStock struct] *)
Record OndoWrappedStock : Type := mkOndoWrappedStock {
  ow_ticker : string;
  ow_totalSupply : Z;
  ow_balances : gmap string Z;
  ow_exchangeRate : Z
}.

(** The two objects the methods of the wrapper and [Interact] work on. *)
Record World : Type := mkWorld {
  st : StockToken;
  ow : OndoWrappedStock
}.

Definition NewStockToken (ticker : string) : StockToken :=
  {| st_ticker := ticker;
     st_totalSupply := 0;
     st_balances := ∅;
     st_rebaseMultiplier := 1;
     st_sharePrice := 10000 (* dollarsToCents("$100.00") *) |}.

Definition NewOndoWrappedStock (ticker : string) : OndoWrappedStock :=
  {| ow_ticker := "ow" +:+ ticker;
     ow_totalSupply := 0;
     ow_balances := ∅;
     ow_exchangeRate := basePrecision |}.

Definition st_with_balances (m : gmap string Z) (t : StockToken) : StockToken :=
  {| st_ticker := st_ticker t;
     st_totalSupply := st_totalSupply t;
     st_balances := m;
     st_rebaseMultiplier := st_rebaseMultiplier t;
     st_sharePrice := st_sharePrice t |}.

Definition st_with_totalSupply (z : Z) (t : StockToken) : StockToken :=
  {| st_ticker := st_ticker t;
     st_totalSupply := z;
     st_balances := st_balances t;
     st_rebaseMultiplier := st_rebaseMultiplier t;
     st_sharePrice := st_sharePrice t |}.

Definition st_with_rebaseMultiplier (z : Z) (t : StockToken) : StockToken :=
  {| st_ticker := st_ticker t;
     st_totalSupply := st_totalSupply t;
     st_balances := st_balances t;
     st_rebaseMultiplier := z;
     st_sharePrice := st_sharePrice t |}.

Definition ow_with_balances (m : gmap string Z) (o : OndoWrappedStock) : OndoWrappedStock :=
  {| ow_ticker := ow_ticker o;
     ow_totalSupply := ow_totalSupply o;
     ow_balances := m;
     ow_exchangeRate := ow_exchangeRate o |}.

Definition ow_with_totalSupply (z : Z) (o : OndoWrappedStock) : OndoWrappedStock :=
  {| ow_ticker := ow_ticker o;
     ow_totalSupply := z;
     ow_balances := ow_balances o;
     ow_exchangeRate := ow_exchangeRate o |}.

Definition ow_with_exchangeRate (z : Z) (o : OndoWrappedStock) : OndoWrappedStock :=
  {| ow_ticker := ow_ticker o;
     ow_totalSupply := ow_totalSupply o;
     ow_balances := ow_balances o;
     ow_exchangeRate := z |}.

Definition with_st (t : StockToken) (w : World) : World := {| st := t; ow := ow w |}.
Definition with_ow (o : OndoWrappedStock) (w : World) : World := {| st := st w; ow := o |}.

(** ** Balance maps of the two ledgers *)

Inductive ledger : Type := Stock | Wrapper.

Definition balancesOf (l : ledger) (w : World) : gmap string Z :=
  match l with
  | Stock => st_balances (st w)
  | Wrapper => ow_balances (ow w)
  end.

Definition setBalances (l : ledger) (m : gmap string Z) (w : World) : World :=
  match l with
  | Stock => with_st (st_with_balances m (st w)) w
  | Wrapper => with_ow (ow_with_balances m (ow w)) w
  end.

(** [x.balances[k]]: the pointer stored under [k], nil when absent. *)
Definition load (l : ledger) (k : string) : M World (option Z) :=
  let* w := get in ret (balancesOf l w !! k).

Definition store (l : ledger) (k : string) (v : Z) : M World unit :=
  modify (fun w => setBalances l (<[k := v]> (balancesOf l w)) w).

(** [if x.balances[k] == nil { x.balances[k] = big.NewInt(0) }] *)
Definition init_if_nil (l : ledger) (k : string) : M World unit :=
  let* p := load l k in
  match p with
  | None => store l k 0
  | Some _ => ret tt
  end.

(** [x.balances[k].Add(x.balances[k], y)] *)
Definition Add (l : ledger) (k : string) (y : Z) : M World unit :=
  let* p := load l k in let* x := deref p in store l k (x + y).

(** [x.balances[k].Sub(x.balances[k], y)] *)
Definition Sub (l : ledger) (k : string) (y : Z) : M World unit :=
  let* p := load l k in let* x := deref p in store l k (x - y).

(** [x.balances[k].Cmp(y) < 0] *)
Definition less (l : ledger) (k : string) (y : Z) : M World bool :=
  let* p := load l k in let* x := deref p in ret (x <? y).

(** ** Methods of [StockToken] alone (all three files) *)

(** [func (t *StockToken) Mint(address string, shares uint64)] *)
Definition Mint (address : string) (shares : Z) : M StockToken unit :=
  let amount := int64_of_uint64 shares * basePrecision in
  let* t := get in
  let m := match st_balances t !! address with
           | None => <[address := 0]> (st_balances t)
           | Some _ => st_balances t
           end in
  let* b := deref (m !! address) in
  modify (st_with_balances (<[address := b + amount]> m)) ;;;
  modify (fun t => st_with_totalSupply (st_totalSupply t + amount) t).

(** [func (t *StockToken) Rebase(action interface{})].  The [range] loops
    visit every key once and write to that key only, so each is a map
    over the values.  The inner division is by [precisionFactor], a
    non-zero constant. *)
Definition Rebase (action : GoValue) : M StockToken unit :=
  match action with
  | VUint64 v =>
      let multiplier := int64_of_uint64 v in
      modify (fun t =>
        st_with_balances ((fun balance => balance * multiplier) <$> st_balances t) t) ;;;
      modify (st_with_rebaseMultiplier multiplier)
  | VDividend v =>
      let precisionFactor := basePrecision in
      let* shareRatio := big_Div (precisionFactor * cashAmount v) (sharePrice v) in
      modify (fun t =>
        st_with_balances
          ((fun balance => balance + ZEuclid.div (balance * shareRatio) precisionFactor)
             <$> st_balances t) t)
  | _ => ret tt
  end.

Definition onStock {A} (c : M StockToken A) : M World A := zoom st with_st c.

(** ** Methods shared by main.go and part_001

    Here and in the two modules that follow, the amount is a number: the
    call is made with a [big.Int] that the method does not write while it
    runs.  The same methods with the amount as a pointer, which may be a
    ledger's own object, are those of [Ptr] further down; [Wrap_unaliased]
    and its like show where the two agree. *)

(** [func (ow *OndoWrappedStock) Wrap(st *StockToken, from string, amount *big.Int)] *)
Definition Wrap (from : string) (amount : Z) : M World unit :=
  let* short := less Stock from amount in
  if (short : bool) then throw (Panic "Insufficient TSLA balance") else
  let* w := get in
  let* owAmount := big_Div (amount * basePrecision) (ow_exchangeRate (ow w)) in
  Sub Stock from amount ;;;
  init_if_nil Stock (ow_ticker (ow w)) ;;;
  Add Stock (ow_ticker (ow w)) amount ;;;
  init_if_nil Wrapper from ;;;
  Add Wrapper from owAmount ;;;
  modify (fun w => with_ow (ow_with_totalSupply (ow_totalSupply (ow w) + owAmount) (ow w)) w).

(** [func (ow *OndoWrappedStock) UpdateExchangeRate(tsla *StockToken)] *)
Definition UpdateExchangeRate : M World unit :=
  let* w := get in
  if ow_totalSupply (ow w) =? 0 then ret tt else
  let* p := load Stock (ow_ticker (ow w)) in
  let* c := deref p in
  let* rate := big_Div (c * basePrecision) (ow_totalSupply (ow w)) in
  modify (fun w => with_ow (ow_with_exchangeRate rate (ow w)) w).

(** [func (ow *OndoWrappedStock) Transfer(from, to string, amount *big.Int)] *)
Definition Transfer (from to : string) (amount : Z) : M World unit :=
  let* short := less Wrapper from amount in
  if (short : bool) then throw (Panic "Insufficient balance") else
  init_if_nil Wrapper to ;;;
  Sub Wrapper from amount ;;;
  Add Wrapper to amount.

(** [func (t *StockToken) Interact(from, to string, amount *big.Int, ows *OndoWrappedStock)] *)
Definition Interact (from to : string) (amount : Z) : M World unit :=
  if isContract to then
    Wrap from amount ;;;
    let* w := get in
    let* wrappedAmount := big_Div (amount * basePrecision) (ow_exchangeRate (ow w)) in
    Transfer from to wrappedAmount
  else
    let* short := less Stock from amount in
    if (short : bool) then throw (Panic "Insufficient balance") else
    init_if_nil Stock to ;;;
    Sub Stock from amount ;;;
    Add Stock to amount.

(** [formatTokens(raw)] starts with [new(big.Int).Div(raw, ...)]: it
    dereferences [raw].  The text it builds is not modelled. *)
Definition formatTokens {S} (raw : option Z) : M S unit :=
  deref raw ;;; ret tt.

Definition burn (owAmount : Z) : M World unit :=
  modify (fun w => with_ow (ow_with_totalSupply (ow_totalSupply (ow w) - owAmount) (ow w)) w).

(** ** src/main.go *)
Module Main.

(** [func (ow *OndoWrappedStock) Unwrap(st *StockToken, from string, owAmount *big.Int)] *)
Definition Unwrap (from : string) (owAmount : Z) : M World unit :=
  let* short := less Wrapper from owAmount in
  if (short : bool) then throw (Panic "Insufficient owTSLA balance") else
  let* w := get in
  let* tslaAmount := big_Div (owAmount * ow_exchangeRate (ow w)) basePrecision in
  Sub Wrapper from owAmount ;;;
  burn owAmount ;;;
  Sub Stock (ow_ticker (ow w)) tslaAmount ;;;
  Add Stock from tslaAmount.

End Main.

(** ** src/unnamed/part_001 *)
Module Part001.

Definition contractAddr : string := "0xCONTRACT".

(** [func (ow *OndoWrappedStock) Unwrap(st *StockToken, to string, owAmount *big.Int)] *)
Definition Unwrap (to : string) (owAmount : Z) : M World unit :=
  let* p := load Wrapper contractAddr in
  if match p with None => true | Some b => b <? owAmount end
  then throw (Panic "Insufficient owTSLA balance for 0xCONTRACT") else
  let* w := get in
  let* tslaAmount := big_Div (owAmount * ow_exchangeRate (ow w)) basePrecision in
  Sub Wrapper contractAddr owAmount ;;;
  burn owAmount ;;;
  Sub Stock (ow_ticker (ow w)) tslaAmount ;;;
  init_if_nil Stock to ;;;
  Add Stock to tslaAmount.

(** [func (ow *OndoWrappedStock) Claim(st *StockToken, from, to string, wrappedAmount *big.Int)].
    In the clamping branch [formatTokens(ow.balances[from])] and
    [new(big.Int).Set(ow.balances[from])] both read through the pointer. *)
Definition Claim (from to : string) (wrappedAmount : Z) : M World unit :=
  if negb (isContract from) then throw (Panic "Can only claim from contract addresses") else
  let* p := load Wrapper from in
  let* wrappedAmount' :=
    (if match p with None => true | Some b => b <? wrappedAmount end
     then formatTokens p ;;; deref p
     else ret wrappedAmount) in
  let* w := get in
  let* underlyingAmount := big_Div (wrappedAmount' * ow_exchangeRate (ow w)) basePrecision in
  Unwrap to wrappedAmount'.

End Part001.

(** ** src/unnamed/part_000 *)
Module Part000.

(** [type TSLAToken struct] *)
Record TSLAToken : Type := mkTSLAToken {
  totalSupply : Z;
  balances : gmap string Z;
  rebaseMultiplier : Z
}.

Definition NewTSLAToken : TSLAToken :=
  {| totalSupply := 0; balances := ∅; rebaseMultiplier := 1 |}.

Definition with_balances (m : gmap string Z) (t : TSLAToken) : TSLAToken :=
  {| totalSupply := totalSupply t; balances := m; rebaseMultiplier := rebaseMultiplier t |}.

Definition with_rebaseMultiplier (z : Z) (t : TSLAToken) : TSLAToken :=
  {| totalSupply := totalSupply t; balances := balances t; rebaseMultiplier := z |}.

Definition with_totalSupply (z : Z) (t : TSLAToken) : TSLAToken :=
  {| totalSupply := z; balances := balances t; rebaseMultiplier := rebaseMultiplier t |}.

(** [func (t *TSLAToken) Mint(address string, shares uint64)] *)
Definition Mint (address : string) (shares : Z) : M TSLAToken unit :=
  let amount := int64_of_uint64 shares * basePrecision in
  let* t := get in
  let m := match balances t !! address with
           | None => <[address := 0]> (balances t)
           | Some _ => balances t
           end in
  let* b := deref (m !! address) in
  modify (with_balances (<[address := b + amount]> m)) ;;;
  modify (fun t => with_totalSupply (totalSupply t + amount) t).

(** [func (t *TSLAToken) Rebase(action interface{})] *)
Definition Rebase (action : GoValue) : M TSLAToken unit :=
  match action with
  | VUint64 v =>
      let multiplier := int64_of_uint64 v in
      modify (fun t =>
        with_balances ((fun balance => balance * multiplier) <$> balances t) t) ;;;
      modify (with_rebaseMultiplier multiplier)
  | VDividend v =>
      let precisionFactor := basePrecision in
      let* shareRatio := big_Div (precisionFactor * cashAmount v) (sharePrice v) in
      modify (fun t =>
        with_balances
          ((fun balance => balance + ZEuclid.div (balance * shareRatio) precisionFactor)
             <$> balances t) t)
  | _ => ret tt
  end.

End Part000.

(** ** The amount as the pointer it is

    [amount], [owAmount] and [wrappedAmount] are [*big.Int], and the
    methods write balance entries and the wrapper's total supply in place
    ([x.Sub(x, y)], [x.Add(x, y)]).  A caller may pass a [big.Int] that a
    ledger holds, as in [ow.Transfer(from, to, ow.balances[from])]; such
    an amount changes its value while the method runs.  The definitions
    above are the calls with an amount that no method writes.  The
    definitions of [Ptr] below take the amount as a pointer and read it
    at each place where the source reads it.

    [Own z] is a [big.Int] holding [z] that no method taking an amount
    writes: one the caller allocated, or the exchange rate (set by
    [UpdateExchangeRate] only), the stock's total supply (written by
    [Mint] only), its multiplier or its share price.  [Entry l k] is the
    pointer the balance map of ledger [l] holds under [k].  [Supply] is
    [ow.totalSupply].  [Nil] is the nil pointer. *)
Inductive pointer : Type :=
  | Own (z : Z)
  | Entry (l : ledger) (k : string)
  | Supply
  | Nil.

(** The number a pointer leads to in a state, [None] for nil. *)
Definition target (p : pointer) (w : World) : option Z :=
  match p with
  | Own z => Some z
  | Entry l k => balancesOf l w !! k
  | Supply => Some (ow_totalSupply (ow w))
  | Nil => None
  end.

(** Reading through the pointer, as every method of [big.Int] does with
    its operands. *)
Definition read (p : pointer) : M World Z :=
  let* w := get in deref (target p w).

(** The argument as the callee receives it.  The caller evaluates the
    expression [l.balances[k]] before the call: under an absent key it is
    nil, and stays nil when the callee creates the entry later. *)
Definition passed (p : pointer) : M World pointer :=
  let* w := get in
  ret (match target p w with
       | Some _ => p
       | None => Nil
       end).

Module Ptr.

(** [x.balances[k].Cmp(y) < 0].  [Cmp] answers 0 for two equal pointers
    before it reads either, so nil compared with nil is no panic. *)
Definition less (l : ledger) (k : string) (y : pointer) : M World bool :=
  let* w := get in
  match balancesOf l w !! k, target y w with
  | None, None => ret false
  | Some x, Some v => ret (x <? v)
  | _, _ => throw NilDereference
  end.

(** [x.balances[k].Add(x.balances[k], y)] *)
Definition Add (l : ledger) (k : string) (y : pointer) : M World unit :=
  let* p := load l k in let* x := deref p in let* v := read y in store l k (x + v).

(** [x.balances[k].Sub(x.balances[k], y)] *)
Definition Sub (l : ledger) (k : string) (y : pointer) : M World unit :=
  let* p := load l k in let* x := deref p in let* v := read y in store l k (x - v).

(** [ow.totalSupply.Sub(ow.totalSupply, owAmount)] *)
Definition burn (owAmount : pointer) : M World unit :=
  let* v := read owAmount in
  modify (fun w => with_ow (ow_with_totalSupply (ow_totalSupply (ow w) - v) (ow w)) w).

(** [func (ow *OndoWrappedStock) Wrap(st *StockToken, from string, amount *big.Int)] *)
Definition Wrap (from : string) (amount : pointer) : M World unit :=
  let* amount := passed amount in
  let* short := less Stock from amount in
  if (short : bool) then throw (Panic "Insufficient TSLA balance") else
  let* w := get in
  let* a := read amount in
  let* owAmount := big_Div (a * basePrecision) (ow_exchangeRate (ow w)) in
  Sub Stock from amount ;;;
  init_if_nil Stock (ow_ticker (ow w)) ;;;
  Add Stock (ow_ticker (ow w)) amount ;;;
  init_if_nil Wrapper from ;;;
  Add Wrapper from (Own owAmount) ;;;
  modify (fun w => with_ow (ow_with_totalSupply (ow_totalSupply (ow w) + owAmount) (ow w)) w).

(** [func (ow *OndoWrappedStock) Transfer(from, to string, amount *big.Int)] *)
Definition Transfer (from to : string) (amount : pointer) : M World unit :=
  let* amount := passed amount in
  let* short := less Wrapper from amount in
  if (short : bool) then throw (Panic "Insufficient balance") else
  init_if_nil Wrapper to ;;;
  Sub Wrapper from amount ;;;
  Add Wrapper to amount.

(** [Interact] from its test of the recipient on (all of it in main.go). *)
Definition dispatch (from to : string) (amount : pointer) : M World unit :=
  if isContract to then
    Wrap from amount ;;;
    let* w := get in
    let* a := read amount in
    let* wrappedAmount := big_Div (a * basePrecision) (ow_exchangeRate (ow w)) in
    Transfer from to (Own wrappedAmount)
  else
    let* short := less Stock from amount in
    if (short : bool) then throw (Panic "Insufficient balance") else
    init_if_nil Stock to ;;;
    Sub Stock from amount ;;;
    Add Stock to amount.

Module Main.

(** [func (t *StockToken) Interact(from, to string, amount *big.Int, ows *OndoWrappedStock)] *)
Definition Interact (from to : string) (amount : pointer) : M World unit :=
  let* amount := passed amount in
  dispatch from to amount.

(** [func (ow *OndoWrappedStock) Unwrap(st *StockToken, from string, owAmount *big.Int)] *)
Definition Unwrap (from : string) (owAmount : pointer) : M World unit :=
  let* owAmount := passed owAmount in
  let* short := less Wrapper from owAmount in
  if (short : bool) then throw (Panic "Insufficient owTSLA balance") else
  let* w := get in
  let* a := read owAmount in
  let* tslaAmount := big_Div (a * ow_exchangeRate (ow w)) basePrecision in
  Sub Wrapper from owAmount ;;;
  burn owAmount ;;;
  Sub Stock (ow_ticker (ow w)) (Own tslaAmount) ;;;
  Add Stock from (Own tslaAmount).

End Main.

Module Part001.

Definition contractAddr : string := "0xCONTRACT".

(** [Interact] of part_001 prints [formatTokens(amount)] first. *)
Definition Interact (from to : string) (amount : pointer) : M World unit :=
  let* amount := passed amount in
  let* w := get in
  formatTokens (target amount w) ;;;
  dispatch from to amount.

(** [func (ow *OndoWrappedStock) Unwrap(st *StockToken, to string, owAmount *big.Int)] *)
Definition Unwrap (to : string) (owAmount : pointer) : M World unit :=
  let* owAmount := passed owAmount in
  let* p := load Wrapper contractAddr in
  let* short := match p with
                | None => ret true
                | Some b => let* v := read owAmount in ret (b <? v)
                end in
  if (short : bool) then throw (Panic "Insufficient owTSLA balance for 0xCONTRACT") else
  let* w := get in
  let* a := read owAmount in
  let* tslaAmount := big_Div (a * ow_exchangeRate (ow w)) basePrecision in
  Sub Wrapper contractAddr owAmount ;;;
  burn owAmount ;;;
  Sub Stock (ow_ticker (ow w)) (Own tslaAmount) ;;;
  init_if_nil Stock to ;;;
  Add Stock to (Own tslaAmount).

(** [func (ow *OndoWrappedStock) Claim(st *StockToken, from, to string, wrappedAmount *big.Int)].
    Only the clamping branch replaces the pointer, by a copy of the
    balance ([new(big.Int).Set(ow.balances[from])]); otherwise [Unwrap]
    receives the caller's pointer. *)
Definition Claim (from to : string) (wrappedAmount : pointer) : M World unit :=
  let* wrappedAmount := passed wrappedAmount in
  if negb (isContract from) then throw (Panic "Can only claim from contract addresses") else
  let* w := get in
  formatTokens (target wrappedAmount w) ;;;
  let* p := load Wrapper from in
  let* short := match p with
                | None => ret true
                | Some b => let* v := read wrappedAmount in ret (b <? v)
                end in
  let* wrappedAmount' :=
    (if (short : bool)
     then formatTokens p ;;; let* b := deref p in ret (Own b)
     else ret wrappedAmount) in
  let* w := get in
  let* a := read wrappedAmount' in
  let* underlyingAmount := big_Div (a * ow_exchangeRate (ow w)) basePrecision in
  Unwrap to wrappedAmount'.

End Part001.

End Ptr.

(** ** The demonstration of [main] in part_001, as a check of the model *)

Definition demo : M World unit :=
  onStock (Mint "0xREECE" 10) ;;;
  Interact "0xREECE" "0xCONTRACT" (5 * basePrecision) ;;;
  onStock (Rebase (VUint64 2)) ;;;
  UpdateExchangeRate ;;;
  onStock (Rebase (VDividend {| cashAmount := 150; sharePrice := 5000 |})) ;;;
  UpdateExchangeRate ;;;
  Part001.Claim "0xCONTRACT" "0xREECE" (1 * basePrecision).

Definition fresh : World :=
  {| st := NewStockToken "TSLA"; ow := NewOndoWrappedStock "TSLA" |}.

(** ** Notions used in the statements *)

(** The action values the type switch of [Rebase] has a case for. *)
Definition isCorporateAction (action : GoValue) : bool :=
  match action with
  | VUint64 _ | VDividend _ => true
  | _ => false
  end.

(** Sum of all balances of a ledger. *)
Definition sumZ (m : gmap string Z) : Z :=
  map_fold (fun _ v acc => v + acc) 0 m.

(** Shortfall of the dividend shares awarded ([after] minus [before], summed
    over the ledger) against the proportional total [shareRatio * sum / scale],
    in units of [1 / basePrecision] of a raw unit. *)
Definition truncationLossScaled (shareRatio : Z) (before after : gmap string Z) : Z :=
  shareRatio * sumZ before - basePrecision * (sumZ after - sumZ before).

(** Crediting an address: [init_if_nil] followed by [Add]. *)
Definition credit (k : string) (y : Z) (m : gmap string Z) : gmap string Z :=
  <[k := default 0 (m !! k) + y]> m.

(** The world after a successful [Wrap]. *)
Definition wrapped (from : string) (amount owAmount b : Z) (w : World) : World :=
  {| st := st_with_balances
             (credit (ow_ticker (ow w)) amount (<[from := b - amount]> (st_balances (st w))))
             (st w);
     ow := ow_with_totalSupply (ow_totalSupply (ow w) + owAmount)
             (ow_with_balances (credit from owAmount (ow_balances (ow w))) (ow w)) |}.

(** The wrapper after [owAmount] was burnt from [holder], who held [b]. *)
Definition burned (holder : string) (owAmount b : Z) (w : World) : World :=
  with_ow (ow_with_totalSupply (ow_totalSupply (ow w) - owAmount)
             (ow_with_balances (<[holder := b - owAmount]> (ow_balances (ow w))) (ow w))) w.

(** The error kinds of the specification, and the panic each one is in
    the program.  A nil pointer dereference is none of them. *)
Inductive errorKind : Type :=
  | InsufficientBalanceError
  | ArithmeticError
  | InvalidOperationError
  | RuntimeCrash.

Definition kindOf (p : panic) : errorKind :=
  match p with
  | Panic msg =>
      if String.prefix "Insufficient" msg then InsufficientBalanceError
      else InvalidOperationError
  | DivisionByZero => ArithmeticError
  | NilDereference => RuntimeCrash
  end.

(** What a run leaves in the balance map of ledger [l], with the panic if
    there was one. *)
Definition balancesOutcome {A} (l : ledger) (r : result World A)
  : gmap string Z + panic * gmap string Z :=
  match r with
  | Done _ w => inl (balancesOf l w)
  | Crash p w => inr (p, balancesOf l w)
  end.

(** ** The operations of main.go and part_001, amounts as numbers

    [OpUnwrapMain] is [Unwrap] of main.go; [OpUnwrap] and [OpClaim] are
    [Unwrap] and [Claim] of part_001; the other methods are the same in
    both files.  A run of either program in which no amount is an object
    of a ledger is a run of this system; [call] below is the system with
    the amounts as pointers. *)

Inductive operation : Type :=
  | OpMint (address : string) (shares : Z)
  | OpRebase (action : GoValue)
  | OpInteract (from to : string) (amount : Z)
  | OpWrap (from : string) (amount : Z)
  | OpUnwrapMain (from : string) (owAmount : Z)
  | OpUnwrap (to : string) (owAmount : Z)
  | OpClaim (from to : string) (wrappedAmount : Z)
  | OpTransfer (from to : string) (amount : Z)
  | OpUpdateExchangeRate.

Definition run (o : operation) : M World unit :=
  match o with
  | OpMint address shares => onStock (Mint address shares)
  | OpRebase action => onStock (Rebase action)
  | OpInteract from to amount => Interact from to amount
  | OpWrap from amount => Wrap from amount
  | OpUnwrapMain from owAmount => Main.Unwrap from owAmount
  | OpUnwrap to owAmount => Part001.Unwrap to owAmount
  | OpClaim from to wrappedAmount => Part001.Claim from to wrappedAmount
  | OpTransfer from to amount => Transfer from to amount
  | OpUpdateExchangeRate => UpdateExchangeRate
  end.

Fixpoint runAll (os : list operation) : M World unit :=
  match os with
  | nil => ret tt
  | cons o os' => run o ;;; runAll os'
  end.

(** Two ledgers as [NewStockToken] and [NewOndoWrappedStock] build them. *)
Definition freshWorld (ticker ticker' : string) : World :=
  {| st := NewStockToken ticker; ow := NewOndoWrappedStock ticker' |}.

(** Inputs in the domain the specification gives the operations: share
    counts and amounts are not negative, a split multiplier is at least
    one, cash and price of a dividend are not negative, numbers passed as
    [uint64] stay below [2^63]; and the custody address [custody] (the
    wrapper's ticker) is not the sender of a wrap or of a transfer. *)
Definition inDomain (custody : string) (o : operation) : Prop :=
  match o with
  | OpMint _ shares => 0 <= shares < 2 ^ 63
  | OpRebase (VUint64 m) => 1 <= m < 2 ^ 63
  | OpRebase (VDividend d) => 0 <= cashAmount d /\ 0 <= sharePrice d
  | OpRebase _ => True
  | OpInteract from _ amount => 0 <= amount /\ from <> custody
  | OpWrap from amount => 0 <= amount /\ from <> custody
  | OpUnwrapMain _ owAmount => 0 <= owAmount
  | OpUnwrap _ owAmount => 0 <= owAmount
  | OpClaim _ _ wrappedAmount => 0 <= wrappedAmount
  | OpTransfer _ _ amount => 0 <= amount
  | OpUpdateExchangeRate => True
  end.

(** The custody balance: what the stock ledger holds for the wrapper. *)
Definition custodyBalance (w : World) : Z :=
  default 0 (st_balances (st w) !! ow_ticker (ow w)).

(** The invariant behind the positive exchange rate. *)
Record backed (w : World) : Prop := mkBacked {
  backed_rate : basePrecision <= ow_exchangeRate (ow w);
  backed_nonneg : forall k v, ow_balances (ow w) !! k = Some v -> 0 <= v;
  backed_supply : ow_totalSupply (ow w) = sumZ (ow_balances (ow w));
  backed_custody :
    ow_exchangeRate (ow w) * ow_totalSupply (ow w) <= custodyBalance w * basePrecision
}.

(** ** The calls of main.go and part_001, amounts as pointers

    [CallInteract] is [Interact] of main.go and [CallInteract001] that of
    part_001; [CallUnwrapMain] is [Unwrap] of main.go; [CallUnwrap] and
    [CallClaim] are [Unwrap] and [Claim] of part_001. *)

Inductive call : Type :=
  | CallMint (address : string) (shares : Z)
  | CallRebase (action : GoValue)
  | CallInteract (from to : string) (amount : pointer)
  | CallInteract001 (from to : string) (amount : pointer)
  | CallWrap (from : string) (amount : pointer)
  | CallUnwrapMain (from : string) (owAmount : pointer)
  | CallUnwrap (to : string) (owAmount : pointer)
  | CallClaim (from to : string) (wrappedAmount : pointer)
  | CallTransfer (from to : string) (amount : pointer)
  | CallUpdateExchangeRate.

Definition runCall (c : call) : M World unit :=
  match c with
  | CallMint address shares => onStock (Mint address shares)
  | CallRebase action => onStock (Rebase action)
  | CallInteract from to amount => Ptr.Main.Interact from to amount
  | CallInteract001 from to amount => Ptr.Part001.Interact from to amount
  | CallWrap from amount => Ptr.Wrap from amount
  | CallUnwrapMain from owAmount => Ptr.Main.Unwrap from owAmount
  | CallUnwrap to owAmount => Ptr.Part001.Unwrap to owAmount
  | CallClaim from to wrappedAmount => Ptr.Part001.Claim from to wrappedAmount
  | CallTransfer from to amount => Ptr.Transfer from to amount
  | CallUpdateExchangeRate => UpdateExchangeRate
  end.

Fixpoint runCalls (cs : list call) : M World unit :=
  match cs with
  | nil => ret tt
  | cons c cs' => runCall c ;;; runCalls cs'
  end.

(** The amount argument of a call, and the balance entry the call debits
    with it: the sender's stock entry in [Wrap] and [Interact], the
    sender's wrapper entry in [Transfer] and in [Unwrap] of main.go, the
    wrapper entry of ["0xCONTRACT"] in [Unwrap] and [Claim] of part_001. *)
Definition amountOf (c : call) : option pointer :=
  match c with
  | CallInteract _ _ amount | CallInteract001 _ _ amount | CallWrap _ amount
  | CallUnwrapMain _ amount | CallUnwrap _ amount | CallClaim _ _ amount
  | CallTransfer _ _ amount => Some amount
  | CallMint _ _ | CallRebase _ | CallUpdateExchangeRate => None
  end.

Definition debited (c : call) : option pointer :=
  match c with
  | CallInteract from _ _ | CallInteract001 from _ _ | CallWrap from _ =>
      Some (Entry Stock from)
  | CallUnwrapMain from _ | CallTransfer from _ _ => Some (Entry Wrapper from)
  | CallUnwrap _ _ | CallClaim _ _ _ => Some (Entry Wrapper Part001.contractAddr)
  | CallMint _ _ | CallRebase _ | CallUpdateExchangeRate => None
  end.

(** The amount of the call is a number (not nil) and is not the balance
    entry that the call debits with it. *)
Definition unaliased (w : World) (c : call) : Prop :=
  match amountOf c, debited c with
  | Some amount, Some entry => is_Some (target amount w) /\ amount <> entry
  | _, _ => True
  end.

(** The number an amount stands for when the call is made. *)
Definition valueOf (p : pointer) (w : World) : Z := default 0 (target p w).

(** The call with its amount read once, when the call is made. *)
Definition byValue (w : World) (c : call) : operation :=
  match c with
  | CallMint address shares => OpMint address shares
  | CallRebase action => OpRebase action
  | CallInteract from to amount | CallInteract001 from to amount =>
      OpInteract from to (valueOf amount w)
  | CallWrap from amount => OpWrap from (valueOf amount w)
  | CallUnwrapMain from owAmount => OpUnwrapMain from (valueOf owAmount w)
  | CallUnwrap to owAmount => OpUnwrap to (valueOf owAmount w)
  | CallClaim from to wrappedAmount => OpClaim from to (valueOf wrappedAmount w)
  | CallTransfer from to amount => OpTransfer from to (valueOf amount w)
  | CallUpdateExchangeRate => OpUpdateExchangeRate
  end.

(** [Interact] towards a contract reads its amount a second time after
    [Wrap] has returned: it is a [Wrap] of the first reading followed by a
    [Transfer] of what the second reading converts to.  Every other call
    with an unaliased amount is the one operation [byValue]. *)
Definition operationsOf (w : World) (c : call) : list operation :=
  match c with
  | CallInteract from to amount | CallInteract001 from to amount =>
      if isContract to then
        let a := valueOf amount w in
        let w1 := final_state (Wrap from a w) in
        cons (OpWrap from a)
          (cons (OpTransfer from to
                   (ZEuclid.div (valueOf amount w1 * basePrecision)
                      (ow_exchangeRate (ow w1))))
             nil)
      else cons (byValue w c) nil
  | _ => cons (byValue w c) nil
  end.

(** Calls in the domain of the specification: [inDomain] for the numbers
    passed, and an amount that is not the entry the call debits. *)
Definition callInDomain (w : World) (c : call) : Prop :=
  unaliased w c /\ inDomain (ow_ticker (ow w)) (byValue w c).

(** States reached from fresh ledgers by calls in that domain, the state
    a panicking call leaves behind included. *)
Inductive reachableByCalls : World -> Prop :=
  | reachableByCalls_fresh (ticker ticker' : string) :
      reachableByCalls (freshWorld ticker ticker')
  | reachableByCalls_step (w : World) (c : call) :
      reachableByCalls w ->
      callInDomain w c ->
      reachableByCalls (final_state (runCall c w)).

(** States reached from fresh ledgers by calls with numbers of any sign,
    as long as no amount is the entry the call debits. *)
Inductive reachableUnaliased : World -> Prop :=
  | reachableUnaliased_fresh (ticker ticker' : string) :
      reachableUnaliased (freshWorld ticker ticker')
  | reachableUnaliased_step (w : World) (c : call) :
      reachableUnaliased w ->
      unaliased w c ->
      reachableUnaliased (final_state (runCall c w)).

(** Amounts that [Interact] towards a contract reads twice with the same
    result: [Wrap] writes the sender's and the custody entry of the stock
    ledger, the sender's entry of the wrapper and the wrapper's supply. *)
Definition keptByWrap (from custody : string) (p : pointer) : Prop :=
  p <> Entry Stock from /\ p <> Entry Stock custody /\
  p <> Entry Wrapper from /\ p <> Supply.

(** A computation that leaves an observation [f] of the world as it
    was, whether it returns or panics. *)
Definition preserves {A B} (f : World -> B) (c : M World A) : Prop :=
  forall w, f (final_state (c w)) = f w.

(** ** Further notions: the two token types, runs of mints, printed amounts *)

(** A [StockToken] seen as the [TSLAToken] of part_000: the ticker and the
    share price are dropped. *)
Definition asTSLAToken (t : StockToken) : Part000.TSLAToken :=
  {| Part000.totalSupply := st_totalSupply t;
     Part000.balances := st_balances t;
     Part000.rebaseMultiplier := st_rebaseMultiplier t |}.

Definition mapState {S T A} (f : S -> T) (r : result S A) : result T A :=
  match r with
  | Done a s => Done a (f s)
  | Crash p s => Crash p (f s)
  end.

(** A series of [Mint] calls. *)
Fixpoint mintAll (l : list (string * Z)) : M StockToken unit :=
  match l with
  | nil => ret tt
  | cons (address, shares) l' => Mint address shares ;;; mintAll l'
  end.

(** [n] characters ['0']. *)
Fixpoint zeros (n : nat) : string :=
  match n with
  | O => ""
  | S n' => String "0"%char (zeros n')
  end.

(** [fmt.Sprintf("%0<width>d", z)] for a [*big.Int]: the sign, zeros up
    to the width, the decimal digits. *)
Definition zeroPadded (width : nat) (z : Z) : string :=
  let sign := if z <? 0 then "-" else "" in
  let digits := pretty (Z.abs_N z) in
  sign +:+ zeros (width - String.length sign - String.length digits) +:+ digits.

(** The text [formatTokens(raw)] returns: [whole] and [frac] are the
    Euclidean quotient and modulus ([Div], [Mod] of math/big), printed
    with ["%d.%06d"]. *)
Definition formatTokensText (raw : Z) : string :=
  let whole := ZEuclid.div raw basePrecision in
  let frac := ZEuclid.modulo raw basePrecision in
  pretty whole +:+ "." +:+ zeroPadded 6 frac.

(** Reading a string of decimal digits, most significant first. *)
Definition digitValue (c : Ascii.ascii) : N :=
  (Ascii.N_of_ascii c - 48)%N.

Fixpoint decimalValue (acc : N) (s : string) : N :=
  match s with
  | EmptyString => acc
  | String c s' => decimalValue (acc * 10 + digitValue c)%N s'
  end.

(** * Proofs *)

(** ** Arithmetic of math/big *)

Lemma basePrecision_pos : 0 < basePrecision.
Proof. reflexivity. Qed.

Lemma euclid_div_pos (x y : Z) : 0 < y -> ZEuclid.div x y = x / y.
Proof.
  intros Hy. unfold ZEuclid.div.
  rewrite Z.sgn_pos, Z.abs_eq by lia. lia.
Qed.

Lemma big_Div_pos {S} (x y : Z) (s : S) :
  0 < y -> big_Div x y s = Done (x / y) s.
Proof.
  intros Hy. unfold big_Div.
  destruct (Z.eqb_spec y 0) as [->|_]; [lia|].
  unfold ret. now rewrite euclid_div_pos.
Qed.

Lemma big_Div_nonzero {S} (x y : Z) (s : S) :
  y <> 0 -> big_Div x y s = Done (ZEuclid.div x y) s.
Proof.
  intros Hy. unfold big_Div.
  destruct (Z.eqb_spec y 0); [contradiction|reflexivity].
Qed.

Lemma big_Div_zero {S} (x : Z) (s : S) : big_Div x 0 s = Crash DivisionByZero s.
Proof. reflexivity. Qed.

Lemma int64_of_uint64_small (v : Z) : 0 <= v < 2 ^ 63 -> int64_of_uint64 v = v.
Proof.
  intros Hv. unfold int64_of_uint64.
  rewrite Z.mod_small by lia.
  destruct (Z.ltb_spec v (2 ^ 63)); lia.
Qed.

Lemma int64_of_uint64_large (v : Z) :
  2 ^ 63 <= v < 2 ^ 64 -> int64_of_uint64 v = v - 2 ^ 64.
Proof.
  intros Hv. unfold int64_of_uint64.
  rewrite Z.mod_small by lia.
  destruct (Z.ltb_spec v (2 ^ 63)); lia.
Qed.

(** ** Sums over a ledger *)

Lemma sumZ_empty : sumZ ∅ = 0.
Proof. apply map_fold_empty. Qed.

Lemma sumZ_insert_fresh (m : gmap string Z) (k : string) (v : Z) :
  m !! k = None -> sumZ (<[k := v]> m) = v + sumZ m.
Proof.
  intros Hk. unfold sumZ.
  rewrite map_fold_insert_L; [reflexivity| |assumption].
  intros; lia.
Qed.

Lemma sumZ_delete (m : gmap string Z) (k : string) (v : Z) :
  m !! k = Some v -> sumZ m = v + sumZ (delete k m).
Proof.
  intros Hk.
  rewrite <- (insert_id m k v Hk) at 1.
  rewrite <- insert_delete_eq.
  apply sumZ_insert_fresh, lookup_delete_eq.
Qed.

Lemma sumZ_insert_present (m : gmap string Z) (k : string) (b v : Z) :
  m !! k = Some b -> sumZ (<[k := v]> m) = sumZ m - b + v.
Proof.
  intros Hk.
  rewrite (sumZ_delete m k b Hk).
  rewrite <- insert_delete_eq.
  rewrite sumZ_insert_fresh by apply lookup_delete_eq. lia.
Qed.

Lemma nonneg_insert_inv (m : gmap string Z) (i : string) (x : Z) :
  m !! i = None ->
  (forall k v, <[i := x]> m !! k = Some v -> 0 <= v) ->
  0 <= x /\ forall k v, m !! k = Some v -> 0 <= v.
Proof.
  intros Hi Hpos. split.
  - apply (Hpos i x), lookup_insert_eq.
  - intros k v Hk. apply (Hpos k v).
    rewrite lookup_insert_ne; [assumption|]. intros ->. congruence.
Qed.

Lemma sumZ_nonneg (m : gmap string Z) :
  (forall k v, m !! k = Some v -> 0 <= v) -> 0 <= sumZ m.
Proof.
  induction m as [|i x m Hi IH] using map_ind; intros Hpos.
  - rewrite sumZ_empty. lia.
  - rewrite sumZ_insert_fresh by assumption.
    destruct (nonneg_insert_inv m i x Hi Hpos) as [Hx Hm].
    specialize (IH Hm). lia.
Qed.

Lemma sumZ_lookup_le (m : gmap string Z) (k : string) (b : Z) :
  (forall j v, m !! j = Some v -> 0 <= v) ->
  m !! k = Some b -> b <= sumZ m.
Proof.
  intros Hpos Hk.
  rewrite (sumZ_delete m k b Hk).
  assert (0 <= sumZ (delete k m)); [|lia].
  apply sumZ_nonneg. intros j v Hj.
  rewrite lookup_delete in Hj. case_decide; [discriminate|]. eauto.
Qed.

(** ** Corporate actions *)

Section CorporateActions.

Variable t : StockToken.

Lemma Rebase_split (v : Z) :
  Rebase (VUint64 v) t =
  Done tt (st_with_rebaseMultiplier (int64_of_uint64 v)
             (st_with_balances
                ((fun balance => balance * int64_of_uint64 v) <$> st_balances t) t)).
Proof. reflexivity. Qed.

Lemma Rebase_dividend (d : Dividend) :
  0 < sharePrice d ->
  Rebase (VDividend d) t =
  Done tt (st_with_balances
             ((fun balance =>
                 balance + balance * (basePrecision * cashAmount d / sharePrice d) / basePrecision)
                <$> st_balances t) t).
Proof.
  intros Hp. unfold Rebase, bind.
  rewrite big_Div_pos by assumption.
  unfold modify. do 2 f_equal.
  apply map_fmap_ext. intros k b _.
  now rewrite euclid_div_pos by apply basePrecision_pos.
Qed.

Lemma Rebase_dividend_zero_price (d : Dividend) :
  sharePrice d = 0 -> Rebase (VDividend d) t = Crash DivisionByZero t.
Proof. intros Hp. unfold Rebase, bind. now rewrite Hp. Qed.

End CorporateActions.

(** The remainders of the per-account divisions add up to the loss. *)
Lemma truncationLoss_bounds (shareRatio : Z) (m : gmap string Z) :
  let after := (fun b => b + b * shareRatio / basePrecision) <$> m in
  0 <= truncationLossScaled shareRatio m after <= (basePrecision - 1) * Z.of_nat (size m).
Proof.
  cbv zeta. unfold truncationLossScaled.
  induction m as [|k b m Hk IH] using map_ind.
  - rewrite fmap_empty, sumZ_empty, map_size_empty. lia.
  - rewrite fmap_insert.
    rewrite !sumZ_insert_fresh by (rewrite ?lookup_fmap, ?Hk; reflexivity).
    rewrite map_size_insert_None by assumption.
    pose proof (Z.mod_pos_bound (b * shareRatio) basePrecision basePrecision_pos) as Hmod.
    pose proof (Z.div_mod (b * shareRatio) basePrecision) as Hdiv.
    assert (basePrecision <> 0) as Hnz by (pose proof basePrecision_pos; lia).
    specialize (Hdiv Hnz).
    lia.
Qed.

(** ** Running the primitives on a world *)

Lemma balancesOf_setBalances (l : ledger) (m : gmap string Z) (w : World) :
  balancesOf l (setBalances l m w) = m.
Proof. now destruct l. Qed.

Lemma setBalances_id (l : ledger) (w : World) : setBalances l (balancesOf l w) w = w.
Proof. destruct l, w as [[] []]; reflexivity. Qed.

Section Primitives.

Context {A : Type}.
Variables (l : ledger) (k : string) (w : World).

Lemma run_less (y : Z) (K : bool -> M World A) :
  (let* short := less l k y in K short) w =
  match balancesOf l w !! k with
  | Some x => K (x <? y) w
  | None => Crash NilDereference w
  end.
Proof. unfold less, load, bind, get, ret, deref, throw. now destruct (_ !! _). Qed.

Lemma run_Sub (y : Z) (K : M World A) :
  (Sub l k y ;;; K) w =
  match balancesOf l w !! k with
  | Some x => K (setBalances l (<[k := x - y]> (balancesOf l w)) w)
  | None => Crash NilDereference w
  end.
Proof.
  unfold Sub, store, load, bind, get, ret, deref, throw, modify.
  now destruct (_ !! _).
Qed.

Lemma run_Add (y : Z) (K : M World A) :
  (Add l k y ;;; K) w =
  match balancesOf l w !! k with
  | Some x => K (setBalances l (<[k := x + y]> (balancesOf l w)) w)
  | None => Crash NilDereference w
  end.
Proof.
  unfold Add, store, load, bind, get, ret, deref, throw, modify.
  now destruct (_ !! _).
Qed.

Lemma run_load (K : option Z -> M World A) :
  (let* p := load l k in K p) w = K (balancesOf l w !! k) w.
Proof. reflexivity. Qed.

Lemma run_init_if_nil (K : M World A) :
  (init_if_nil l k ;;; K) w =
  match balancesOf l w !! k with
  | Some _ => K w
  | None => K (setBalances l (<[k := 0]> (balancesOf l w)) w)
  end.
Proof.
  unfold init_if_nil, store, load, bind, get, ret, modify.
  now destruct (_ !! _).
Qed.

Lemma run_credit (y : Z) (K : M World A) :
  (init_if_nil l k ;;; Add l k y ;;; K) w =
  K (setBalances l (credit k y (balancesOf l w)) w).
Proof.
  unfold init_if_nil, Add, store, load, bind, get, ret, deref, throw, modify, credit.
  destruct (balancesOf l w !! k) as [x|] eqn:E; cbn.
  - now rewrite E.
  - rewrite balancesOf_setBalances, lookup_insert_eq. cbn.
    rewrite balancesOf_setBalances, insert_insert_eq.
    f_equal. destruct l, w as [[] []]; reflexivity.
Qed.

End Primitives.

Lemma bind_ret_tt {S} (c : M S unit) (s : S) : (c ;;; ret tt) s = c s.
Proof. unfold bind, ret. destruct (c s) as [[]|]; reflexivity. Qed.

Lemma credit_lookup (k : string) (y : Z) (m : gmap string Z) :
  credit k y m !! k = Some (default 0 (m !! k) + y).
Proof. unfold credit. apply lookup_insert_eq. Qed.

Lemma credit_lookup_ne (k j : string) (y : Z) (m : gmap string Z) :
  k <> j -> credit k y m !! j = m !! j.
Proof. intros H. unfold credit. now apply lookup_insert_ne. Qed.

Lemma credit_after_init (k j : string) (y v : Z) (m : gmap string Z) :
  m !! j = None ->
  credit j y (<[k := v]> (<[j := 0]> m)) = credit j y (<[k := v]> m).
Proof.
  intros Hj. unfold credit. apply map_eq. intros i.
  rewrite !lookup_insert.
  repeat case_decide; simplify_eq; try reflexivity.
  now rewrite Hj.
Qed.

Lemma Add_run (l : ledger) (k : string) (y : Z) (w : World) :
  Add l k y w =
  match balancesOf l w !! k with
  | Some x => Done tt (setBalances l (<[k := x + y]> (balancesOf l w)) w)
  | None => Crash NilDereference w
  end.
Proof.
  unfold Add, store, load, bind, get, ret, deref, throw, modify.
  now destruct (_ !! _).
Qed.

Lemma credit_run (l : ledger) (k : string) (y : Z) (w : World) :
  (init_if_nil l k ;;; Add l k y) w =
  Done tt (setBalances l (credit k y (balancesOf l w)) w).
Proof.
  rewrite run_init_if_nil. unfold credit.
  destruct (balancesOf l w !! k) as [x|] eqn:E; rewrite Add_run.
  - now rewrite E.
  - rewrite balancesOf_setBalances, lookup_insert_eq, insert_insert_eq. cbn.
    f_equal. destruct l, w as [[] []]; reflexivity.
Qed.

(** [init_if_nil to; Sub from; Add to]: the body of a transfer once the
    balance check has passed. *)
Lemma run_move (l : ledger) (from to : string) (y b : Z) (w : World) :
  balancesOf l w !! from = Some b ->
  (init_if_nil l to ;;; Sub l from y ;;; Add l to y) w =
  Done tt (setBalances l (credit to y (<[from := b - y]> (balancesOf l w))) w).
Proof.
  intros Hb.
  rewrite run_init_if_nil.
  destruct (balancesOf l w !! to) as [x|] eqn:Hto.
  - rewrite run_Sub, Hb, Add_run, balancesOf_setBalances.
    unfold credit.
    destruct (<[from:=b - y]> (balancesOf l w) !! to) as [x'|] eqn:Hx.
    + cbn. f_equal. destruct l, w as [[] []]; reflexivity.
    + exfalso. rewrite lookup_insert in Hx. case_decide; congruence.
  - assert (Hne : to <> from) by congruence.
    rewrite run_Sub, balancesOf_setBalances, lookup_insert_ne, Hb by assumption.
    rewrite Add_run, balancesOf_setBalances.
    rewrite lookup_insert_ne, lookup_insert_eq by congruence.
    f_equal.
    rewrite <- (credit_after_init from to y (b - y)) by assumption.
    unfold credit at 1.
    rewrite lookup_insert_ne, lookup_insert_eq by congruence. cbn.
    destruct l, w as [[] []]; reflexivity.
Qed.

Section Steps.

Context {S A : Type}.

Lemma run_get (K : S -> M S A) (s : S) : (let* x := get in K x) s = K s s.
Proof. reflexivity. Qed.

Lemma run_modify (f : S -> S) (K : M S A) (s : S) : (modify f ;;; K) s = K (f s).
Proof. reflexivity. Qed.

Lemma run_big_Div (x y : Z) (K : Z -> M S A) (s : S) :
  (let* q := big_Div x y in K q) s =
  if y =? 0 then Crash DivisionByZero s else K (ZEuclid.div x y) s.
Proof. unfold bind, big_Div, throw, ret. now destruct (y =? 0). Qed.

End Steps.

(** ** What each method does, case by case *)

Lemma Wrap_run (from : string) (amount : Z) (w : World) :
  Wrap from amount w =
  match st_balances (st w) !! from with
  | None => Crash NilDereference w
  | Some b =>
      if b <? amount then Crash (Panic "Insufficient TSLA balance") w
      else if ow_exchangeRate (ow w) =? 0 then Crash DivisionByZero w
      else Done tt (wrapped from amount
                      (ZEuclid.div (amount * basePrecision) (ow_exchangeRate (ow w))) b w)
  end.
Proof.
  unfold Wrap. rewrite run_less. cbn [balancesOf].
  destruct (st_balances (st w) !! from) as [b|] eqn:Hb; [|reflexivity].
  destruct (b <? amount); [reflexivity|].
  rewrite run_get, run_big_Div.
  destruct (ow_exchangeRate (ow w) =? 0); [reflexivity|].
  rewrite run_Sub. cbn [balancesOf]. rewrite Hb.
  rewrite run_credit, run_credit.
  destruct w as [[] []]; reflexivity.
Qed.

Lemma UpdateExchangeRate_run (w : World) :
  UpdateExchangeRate w =
  if ow_totalSupply (ow w) =? 0 then Done tt w
  else match st_balances (st w) !! ow_ticker (ow w) with
       | None => Crash NilDereference w
       | Some c =>
           Done tt (with_ow (ow_with_exchangeRate
                               (ZEuclid.div (c * basePrecision) (ow_totalSupply (ow w)))
                               (ow w)) w)
       end.
Proof.
  unfold UpdateExchangeRate. rewrite run_get.
  destruct (ow_totalSupply (ow w) =? 0) eqn:Hs; [reflexivity|].
  unfold load, bind, get, ret, deref, throw. cbn [balancesOf].
  destruct (st_balances (st w) !! ow_ticker (ow w)); [|reflexivity].
  unfold big_Div. now rewrite Hs.
Qed.

Lemma Transfer_run (from to : string) (amount : Z) (w : World) :
  Transfer from to amount w =
  match ow_balances (ow w) !! from with
  | None => Crash NilDereference w
  | Some b =>
      if b <? amount then Crash (Panic "Insufficient balance") w
      else Done tt (setBalances Wrapper
                      (credit to amount (<[from := b - amount]> (ow_balances (ow w)))) w)
  end.
Proof.
  unfold Transfer. rewrite run_less. cbn [balancesOf].
  destruct (ow_balances (ow w) !! from) as [b|] eqn:Hb; [|reflexivity].
  destruct (b <? amount); [reflexivity|].
  now rewrite (run_move Wrapper from to amount b).
Qed.

Lemma Interact_plain_run (from to : string) (amount : Z) (w : World) :
  isContract to = false ->
  Interact from to amount w =
  match st_balances (st w) !! from with
  | None => Crash NilDereference w
  | Some b =>
      if b <? amount then Crash (Panic "Insufficient balance") w
      else Done tt (setBalances Stock
                      (credit to amount (<[from := b - amount]> (st_balances (st w)))) w)
  end.
Proof.
  intros Hto. unfold Interact. rewrite Hto, run_less. cbn [balancesOf].
  destruct (st_balances (st w) !! from) as [b|] eqn:Hb; [|reflexivity].
  destruct (b <? amount); [reflexivity|].
  now rewrite (run_move Stock from to amount b).
Qed.

Lemma Main_Unwrap_run (from : string) (owAmount : Z) (w : World) :
  Main.Unwrap from owAmount w =
  match ow_balances (ow w) !! from with
  | None => Crash NilDereference w
  | Some b =>
      if b <? owAmount then Crash (Panic "Insufficient owTSLA balance") w
      else
        let tslaAmount := owAmount * ow_exchangeRate (ow w) / basePrecision in
        let w1 := burned from owAmount b w in
        match st_balances (st w) !! ow_ticker (ow w) with
        | None => Crash NilDereference w1
        | Some c =>
            let m := <[ow_ticker (ow w) := c - tslaAmount]> (st_balances (st w)) in
            match m !! from with
            | None => Crash NilDereference (setBalances Stock m w1)
            | Some d => Done tt (setBalances Stock (<[from := d + tslaAmount]> m) w1)
            end
        end
  end.
Proof.
  unfold Main.Unwrap. rewrite run_less. cbn [balancesOf].
  destruct (ow_balances (ow w) !! from) as [b|] eqn:Hb; [|reflexivity].
  destruct (b <? owAmount); [reflexivity|].
  rewrite run_get, run_big_Div.
  change (basePrecision =? 0) with false. cbv iota.
  rewrite euclid_div_pos by apply basePrecision_pos.
  rewrite run_Sub. cbn [balancesOf]. rewrite Hb.
  unfold burn. rewrite run_modify, run_Sub.
  cbn [balancesOf setBalances with_ow with_st st ow st_balances ow_balances
       ow_with_balances ow_with_totalSupply ow_ticker].
  destruct (st_balances (st w) !! ow_ticker (ow w)) as [c|]; [|reflexivity].
  rewrite Add_run.
  cbn [balancesOf setBalances with_ow with_st st ow st_balances ow_balances
       st_with_balances].
  destruct (_ !! from); reflexivity.
Qed.

Lemma Part001_Unwrap_run (to : string) (owAmount : Z) (w : World) :
  Part001.Unwrap to owAmount w =
  match ow_balances (ow w) !! Part001.contractAddr with
  | None => Crash (Panic "Insufficient owTSLA balance for 0xCONTRACT") w
  | Some b =>
      if b <? owAmount then Crash (Panic "Insufficient owTSLA balance for 0xCONTRACT") w
      else
        let tslaAmount := owAmount * ow_exchangeRate (ow w) / basePrecision in
        let w1 := burned Part001.contractAddr owAmount b w in
        match st_balances (st w) !! ow_ticker (ow w) with
        | None => Crash NilDereference w1
        | Some c =>
            Done tt (setBalances Stock
                       (credit to tslaAmount
                          (<[ow_ticker (ow w) := c - tslaAmount]> (st_balances (st w)))) w1)
        end
  end.
Proof.
  unfold Part001.Unwrap. rewrite run_load. cbn [balancesOf].
  destruct (ow_balances (ow w) !! Part001.contractAddr) as [b|] eqn:Hb; [|reflexivity].
  destruct (b <? owAmount); [reflexivity|].
  rewrite run_get, run_big_Div.
  change (basePrecision =? 0) with false. cbv iota.
  rewrite euclid_div_pos by apply basePrecision_pos.
  rewrite run_Sub. cbn [balancesOf]. rewrite Hb.
  unfold burn. rewrite run_modify, run_Sub.
  cbn [balancesOf setBalances with_ow with_st st ow st_balances ow_balances
       ow_with_balances ow_with_totalSupply ow_ticker].
  destruct (st_balances (st w) !! ow_ticker (ow w)) as [c|]; [|reflexivity].
  now rewrite credit_run.
Qed.

Lemma Claim_run (from to : string) (wrappedAmount : Z) (w : World) :
  Part001.Claim from to wrappedAmount w =
  if negb (isContract from) then Crash (Panic "Can only claim from contract addresses") w
  else match ow_balances (ow w) !! from with
       | None => Crash NilDereference w
       | Some b => Part001.Unwrap to (Z.min b wrappedAmount) w
       end.
Proof.
  unfold Part001.Claim.
  destruct (negb (isContract from)); [reflexivity|].
  rewrite run_load. cbn [balancesOf].
  destruct (ow_balances (ow w) !! from) as [b|]; [|reflexivity].
  destruct (Z.ltb_spec b wrappedAmount).
  - rewrite Z.min_l by lia. unfold formatTokens, deref, bind, ret, get, big_Div.
    change (basePrecision =? 0) with false. reflexivity.
  - rewrite Z.min_r by lia. unfold deref, bind, ret, get, big_Div.
    change (basePrecision =? 0) with false. reflexivity.
Qed.

Lemma Interact_contract_run (from to : string) (amount : Z) (w : World) :
  isContract to = true ->
  Interact from to amount w =
  match Wrap from amount w with
  | Crash p w' => Crash p w'
  | Done _ w' =>
      Transfer from to (ZEuclid.div (amount * basePrecision) (ow_exchangeRate (ow w))) w'
  end.
Proof.
  intros Hto. unfold Interact. rewrite Hto. unfold bind at 1.
  rewrite Wrap_run.
  destruct (st_balances (st w) !! from) as [b|]; [|reflexivity].
  destruct (b <? amount); [reflexivity|].
  destruct (ow_exchangeRate (ow w) =? 0) eqn:Hr; [reflexivity|].
  rewrite run_get, run_big_Div.
  cbn [wrapped ow ow_exchangeRate ow_with_totalSupply ow_with_balances].
  now rewrite Hr.
Qed.

(** ** The methods with the amount as a pointer

    Where the amount is a number and not the entry the call debits, each
    read of it gives what the first read gave: the call does what the
    call by value does. *)

Lemma target_setBalances (p : pointer) (l : ledger) (k : string) (x : Z) (w : World) :
  p <> Entry l k ->
  target p (setBalances l (<[k := x]> (balancesOf l w)) w) = target p w.
Proof.
  intros Hp. destruct p as [z|l' k'| |]; try reflexivity.
  - destruct l, l'; cbn; try reflexivity;
      (rewrite lookup_insert_ne; [reflexivity|congruence]).
  - destruct l; reflexivity.
Qed.

Lemma target_credit (p : pointer) (l : ledger) (k : string) (y : Z) (w : World) :
  p <> Entry l k ->
  target p (setBalances l (credit k y (balancesOf l w)) w) = target p w.
Proof. apply target_setBalances. Qed.

Lemma target_supply (p : pointer) (z : Z) (w : World) :
  p <> Supply ->
  target p (with_ow (ow_with_totalSupply z (ow w)) w) = target p w.
Proof. intros Hp. destruct p as [?|[] ?| |]; try reflexivity. congruence. Qed.

Lemma target_absent (p : pointer) (l : ledger) (k : string) (w : World) (a : Z) :
  target p w = Some a -> balancesOf l w !! k = None -> p <> Entry l k.
Proof. intros Hp Hk ->. cbn in Hp. congruence. Qed.

Lemma valueOf_Some (p : pointer) (w : World) (a : Z) :
  target p w = Some a -> valueOf p w = a.
Proof. intros Hp. unfold valueOf. now rewrite Hp. Qed.

Section PointerPrimitives.

Context {A : Type}.
Variables (l : ledger) (k : string) (w : World) (y : pointer) (v : Z).
Hypothesis Hy : target y w = Some v.

Lemma run_passed (K : pointer -> M World A) :
  (let* q := passed y in K q) w = K y w.
Proof using Hy. unfold passed, bind, get, ret. now rewrite Hy. Qed.

Lemma run_read (K : Z -> M World A) :
  (let* x := read y in K x) w = K v w.
Proof using Hy. unfold read, bind, get, deref, ret. now rewrite Hy. Qed.

Lemma run_Ptr_less (K : bool -> M World A) :
  (let* short := Ptr.less l k y in K short) w = (let* short := less l k v in K short) w.
Proof using Hy.
  unfold Ptr.less, less, load, bind, get, ret, deref, throw. rewrite Hy.
  now destruct (_ !! _).
Qed.

Lemma run_Ptr_Sub (K : M World A) :
  (Ptr.Sub l k y ;;; K) w = (Sub l k v ;;; K) w.
Proof using Hy.
  unfold Ptr.Sub, Sub, read, store, load, bind, get, ret, deref, throw, modify.
  destruct (balancesOf l w !! k); [|reflexivity]. cbn. now rewrite Hy.
Qed.

Lemma run_Ptr_Add (K : M World A) :
  (Ptr.Add l k y ;;; K) w = (Add l k v ;;; K) w.
Proof using Hy.
  unfold Ptr.Add, Add, read, store, load, bind, get, ret, deref, throw, modify.
  destruct (balancesOf l w !! k); [|reflexivity]. cbn. now rewrite Hy.
Qed.

Lemma run_compare (b : Z) (K : bool -> M World A) :
  (let* short := (let* x := read y in ret (b <? x)) in K short) w = K (b <? v) w.
Proof using Hy. unfold read, bind, get, deref, ret. now rewrite Hy. Qed.

Lemma run_Ptr_burn (K : M World A) :
  (Ptr.burn y ;;; K) w = (burn v ;;; K) w.
Proof using Hy.
  unfold Ptr.burn, burn, read, bind, get, ret, deref, modify. now rewrite Hy.
Qed.

End PointerPrimitives.

Lemma Ptr_Add_run (l : ledger) (k : string) (y : pointer) (v : Z) (w : World) :
  target y w = Some v -> Ptr.Add l k y w = Add l k v w.
Proof.
  intros Hy. rewrite <- (bind_ret_tt (Ptr.Add l k y)), <- (bind_ret_tt (Add l k v)).
  now apply run_Ptr_Add.
Qed.

Lemma target_after_init (p : pointer) (l : ledger) (k : string) (w : World) (a : Z) :
  target p w = Some a ->
  target p (final_state (init_if_nil l k w)) = Some a.
Proof.
  intros Hp. unfold init_if_nil, load, store, bind, get, ret, modify.
  destruct (balancesOf l w !! k) eqn:Hk; cbn [final_state]; [assumption|].
  rewrite target_setBalances; [assumption|]. now apply (target_absent p l k w a).
Qed.

Lemma init_if_nil_returns (l : ledger) (k : string) (w : World) :
  init_if_nil l k w = Done tt (final_state (init_if_nil l k w)).
Proof.
  unfold init_if_nil, load, store, bind, get, ret, modify.
  now destruct (balancesOf l w !! k).
Qed.

Lemma run_Ptr_credit {A} (l : ledger) (k : string) (y : pointer) (v : Z)
    (K : M World A) (w : World) :
  target y w = Some v ->
  (init_if_nil l k ;;; Ptr.Add l k y ;;; K) w = (init_if_nil l k ;;; Add l k v ;;; K) w.
Proof.
  intros Hy. unfold bind at 1 3. rewrite init_if_nil_returns.
  apply run_Ptr_Add. now apply target_after_init.
Qed.

Lemma Ptr_credit_run (l : ledger) (k : string) (y : pointer) (v : Z) (w : World) :
  target y w = Some v ->
  (init_if_nil l k ;;; Ptr.Add l k y) w = (init_if_nil l k ;;; Add l k v) w.
Proof.
  intros Hy. unfold bind. rewrite init_if_nil_returns.
  apply Ptr_Add_run. now apply target_after_init.
Qed.

(** [Wrap] with an amount other than the sender's own stock entry. *)
Lemma Wrap_unaliased (from : string) (p : pointer) (a : Z) (w : World) :
  target p w = Some a -> p <> Entry Stock from ->
  Ptr.Wrap from p w = Wrap from a w.
Proof.
  intros Hp Hne. unfold Ptr.Wrap, Wrap.
  rewrite (run_passed w p a Hp), (run_Ptr_less Stock from w p a Hp), !run_less.
  destruct (balancesOf Stock w !! from) as [b|] eqn:Hb; [|reflexivity].
  destruct (b <? a); [reflexivity|].
  rewrite !run_get, (run_read w p a Hp), !run_big_Div.
  destruct (ow_exchangeRate (ow w) =? 0); [reflexivity|].
  rewrite (run_Ptr_Sub Stock from w p a Hp), !run_Sub, Hb.
  rewrite (run_Ptr_credit Stock _ p a)
    by (rewrite target_setBalances; assumption).
  rewrite !run_credit.
  rewrite (fun x K u => run_Ptr_credit Wrapper from (Own x) x K u eq_refl).
  now rewrite run_credit.
Qed.

(** The body of a transfer once the balance check has passed. *)
Lemma move_unaliased (l : ledger) (from to : string) (p : pointer) (a : Z) (w : World) :
  target p w = Some a -> p <> Entry l from ->
  (init_if_nil l to ;;; Ptr.Sub l from p ;;; Ptr.Add l to p) w
  = (init_if_nil l to ;;; Sub l from a ;;; Add l to a) w.
Proof.
  intros Hp Hne. unfold bind at 1 3. rewrite init_if_nil_returns.
  pose proof (target_after_init p l to w a Hp) as Hp1.
  set (w1 := final_state (init_if_nil l to w)) in *.
  rewrite (run_Ptr_Sub l from w1 p a Hp1), !run_Sub.
  destruct (balancesOf l w1 !! from); [|reflexivity].
  apply Ptr_Add_run. now rewrite target_setBalances.
Qed.

(** [Transfer] with an amount other than the sender's own wrapper entry. *)
Lemma Transfer_unaliased (from to : string) (p : pointer) (a : Z) (w : World) :
  target p w = Some a -> p <> Entry Wrapper from ->
  Ptr.Transfer from to p w = Transfer from to a w.
Proof.
  intros Hp Hne. unfold Ptr.Transfer, Transfer.
  rewrite (run_passed w p a Hp), (run_Ptr_less Wrapper from w p a Hp), !run_less.
  destruct (balancesOf Wrapper w !! from); [|reflexivity].
  destruct (_ <? a); [reflexivity|].
  now apply move_unaliased.
Qed.

(** What a pointer leads to after a [Wrap] that did not debit it: the
    same number, or a larger one when [Wrap] credited it. *)
Lemma target_wrapped (p : pointer) (from : string) (a minted b v : Z) (w : World) :
  target p w = Some v -> p <> Entry Stock from ->
  exists v1,
    target p (wrapped from a minted b w) = Some v1 /\
    (0 <= a -> 0 <= minted -> v <= v1) /\
    (keptByWrap from (ow_ticker (ow w)) p -> v1 = v).
Proof.
  intros Hp Hne. destruct p as [z|[] k| |]; cbn in Hp |- *.
  - exists z. injection Hp as <-. repeat split; intros; lia.
  - destruct (decide (k = ow_ticker (ow w))) as [->|Hk].
    + exists (v + a). rewrite credit_lookup, lookup_insert_ne, Hp by congruence.
      split; [reflexivity|]. split; [intros; lia|].
      intros (_ & Hc & _). congruence.
    + exists v. rewrite credit_lookup_ne, lookup_insert_ne by congruence.
      split; [assumption|]. split; intros; lia.
  - destruct (decide (k = from)) as [->|Hk].
    + exists (v + minted). rewrite credit_lookup, Hp.
      split; [reflexivity|]. split; [intros; lia|].
      intros (_ & _ & Hc & _). congruence.
    + exists v. rewrite credit_lookup_ne by congruence.
      split; [assumption|]. split; intros; lia.
  - injection Hp as <-. eexists. split; [reflexivity|]. split; [intros; lia|].
    intros (_ & _ & _ & Hc). congruence.
  - discriminate.
Qed.

Lemma rate_wrapped (from : string) (a minted b : Z) (w : World) :
  ow_exchangeRate (ow (wrapped from a minted b w)) = ow_exchangeRate (ow w).
Proof. reflexivity. Qed.

(** [Interact] towards a contract, with an amount other than the
    sender's own stock entry: [Wrap] of the amount as first read, then
    [Transfer] of what the amount as read after [Wrap] converts to. *)
Lemma dispatch_contract_unaliased (from to : string) (p : pointer) (a : Z) (w : World) :
  isContract to = true ->
  target p w = Some a -> p <> Entry Stock from ->
  Ptr.dispatch from to p w =
  match Wrap from a w with
  | Crash e w' => Crash e w'
  | Done _ w1 =>
      Transfer from to
        (ZEuclid.div (valueOf p w1 * basePrecision) (ow_exchangeRate (ow w1))) w1
  end.
Proof.
  intros Hto Hp Hne. unfold Ptr.dispatch. rewrite Hto. unfold bind at 1.
  rewrite (Wrap_unaliased from p a w Hp Hne), Wrap_run.
  destruct (st_balances (st w) !! from) as [b|]; [|reflexivity].
  destruct (b <? a); [reflexivity|].
  destruct (ow_exchangeRate (ow w) =? 0) eqn:Hr; [reflexivity|].
  set (minted := ZEuclid.div _ _).
  destruct (target_wrapped p from a minted b a w Hp Hne) as (a1 & Ha1 & _).
  rewrite run_get, (run_read _ p a1 Ha1), run_big_Div, rate_wrapped, Hr.
  unfold valueOf. rewrite Ha1. cbn [default].
  now apply Transfer_unaliased.
Qed.

(** When the amount is none of the objects [Wrap] writes, the second
    reading gives what the first gave. *)
Lemma dispatch_contract_kept (from to : string) (p : pointer) (a : Z) (w : World) :
  isContract to = true ->
  target p w = Some a -> keptByWrap from (ow_ticker (ow w)) p ->
  Ptr.dispatch from to p w = Interact from to a w.
Proof.
  intros Hto Hp Hkept. assert (Hne : p <> Entry Stock from) by apply Hkept.
  rewrite (dispatch_contract_unaliased from to p a w Hto Hp Hne).
  rewrite (Interact_contract_run from to a w Hto), Wrap_run.
  destruct (st_balances (st w) !! from) as [b|]; [|reflexivity].
  destruct (b <? a); [reflexivity|].
  destruct (ow_exchangeRate (ow w) =? 0); [reflexivity|].
  set (minted := ZEuclid.div (a * basePrecision) (ow_exchangeRate (ow w))).
  destruct (target_wrapped p from a minted b a w Hp Hne) as (a1 & Ha1 & _ & Hsame).
  rewrite (valueOf_Some _ _ _ Ha1), (Hsame Hkept), rate_wrapped. reflexivity.
Qed.

(** [Interact] towards an address that is no contract. *)
Lemma dispatch_plain_unaliased (from to : string) (p : pointer) (a : Z) (w : World) :
  isContract to = false ->
  target p w = Some a -> p <> Entry Stock from ->
  Ptr.dispatch from to p w = Interact from to a w.
Proof.
  intros Hto Hp Hne. unfold Ptr.dispatch, Interact. rewrite Hto.
  rewrite (run_Ptr_less Stock from w p a Hp), !run_less.
  destruct (balancesOf Stock w !! from); [|reflexivity].
  destruct (_ <? a); [reflexivity|].
  now apply move_unaliased.
Qed.

Lemma Main_Interact_dispatch (from to : string) (p : pointer) (a : Z) (w : World) :
  target p w = Some a ->
  Ptr.Main.Interact from to p w = Ptr.dispatch from to p w.
Proof. intros Hp. unfold Ptr.Main.Interact. now rewrite (run_passed w p a Hp). Qed.

(** part_001 reads the amount once more, for printing; that makes a
    difference for a nil amount only. *)
Lemma Part001_Interact_dispatch (from to : string) (p : pointer) (a : Z) (w : World) :
  target p w = Some a ->
  Ptr.Part001.Interact from to p w = Ptr.dispatch from to p w.
Proof.
  intros Hp. unfold Ptr.Part001.Interact.
  rewrite (run_passed w p a Hp), run_get. unfold formatTokens. rewrite Hp.
  reflexivity.
Qed.

(** [Unwrap] of main.go with an amount other than the holder's own
    wrapper entry. *)
Lemma Main_Unwrap_unaliased (from : string) (p : pointer) (a : Z) (w : World) :
  target p w = Some a -> p <> Entry Wrapper from ->
  Ptr.Main.Unwrap from p w = Main.Unwrap from a w.
Proof.
  intros Hp Hne. unfold Ptr.Main.Unwrap, Main.Unwrap.
  rewrite (run_passed w p a Hp), (run_Ptr_less Wrapper from w p a Hp), !run_less.
  destruct (balancesOf Wrapper w !! from) as [b|] eqn:Hb; [|reflexivity].
  destruct (b <? a); [reflexivity|].
  rewrite !run_get, (run_read w p a Hp), !run_big_Div.
  destruct (basePrecision =? 0); [reflexivity|].
  rewrite (run_Ptr_Sub Wrapper from w p a Hp), !run_Sub, Hb.
  rewrite (run_Ptr_burn _ p a) by (rewrite target_setBalances; assumption).
  unfold burn. rewrite !run_modify.
  rewrite (fun x K u => run_Ptr_Sub Stock (ow_ticker (ow w)) u (Own x) x eq_refl K).
  rewrite !run_Sub.
  destruct (balancesOf Stock _ !! ow_ticker (ow w)); [|reflexivity].
  now apply Ptr_Add_run.
Qed.

(** [Unwrap] of part_001 with an amount other than the wrapper entry of
    ["0xCONTRACT"]. *)
Lemma Part001_Unwrap_unaliased (to : string) (p : pointer) (a : Z) (w : World) :
  target p w = Some a -> p <> Entry Wrapper Part001.contractAddr ->
  Ptr.Part001.Unwrap to p w = Part001.Unwrap to a w.
Proof.
  intros Hp Hne. unfold Ptr.Part001.Unwrap, Part001.Unwrap.
  change Ptr.Part001.contractAddr with Part001.contractAddr.
  rewrite (run_passed w p a Hp), !run_load.
  destruct (balancesOf Wrapper w !! Part001.contractAddr) as [b|] eqn:Hb;
    [|reflexivity].
  rewrite (run_compare w p a Hp).
  destruct (b <? a); [reflexivity|].
  rewrite !run_get, (run_read w p a Hp), !run_big_Div.
  destruct (basePrecision =? 0); [reflexivity|].
  rewrite (run_Ptr_Sub Wrapper _ w p a Hp), !run_Sub, Hb.
  rewrite (run_Ptr_burn _ p a) by (rewrite target_setBalances; assumption).
  unfold burn. rewrite !run_modify.
  rewrite (fun x K u => run_Ptr_Sub Stock (ow_ticker (ow w)) u (Own x) x eq_refl K).
  rewrite !run_Sub.
  destruct (balancesOf Stock _ !! ow_ticker (ow w)); [|reflexivity].
  now apply Ptr_credit_run.
Qed.

Lemma run_ret {S A B} (a : A) (K : A -> M S B) (s : S) :
  (let* x := ret a in K x) s = K a s.
Proof. reflexivity. Qed.

Lemma run_clamp {A} (b : Z) (K : Z -> M World A) (w : World) :
  (let* x := (formatTokens (Some b) ;;; deref (Some b)) in K x) w = K b w.
Proof. reflexivity. Qed.

Lemma run_Ptr_clamp {A} (b : Z) (K : pointer -> M World A) (w : World) :
  (let* x := (formatTokens (Some b) ;;; let* v := deref (Some b) in ret (Own v)) in K x) w
  = K (Own b) w.
Proof. reflexivity. Qed.

(** [Claim] with an amount other than the wrapper entry of
    ["0xCONTRACT"], which is the entry its [Unwrap] debits. *)
Lemma Claim_unaliased (from to : string) (p : pointer) (a : Z) (w : World) :
  target p w = Some a -> p <> Entry Wrapper Part001.contractAddr ->
  Ptr.Part001.Claim from to p w = Part001.Claim from to a w.
Proof.
  intros Hp Hne. unfold Ptr.Part001.Claim, Part001.Claim.
  rewrite (run_passed w p a Hp).
  destruct (negb (isContract from)); [reflexivity|].
  rewrite run_get. rewrite Hp.
  change ((formatTokens (Some a) ;;; ?K) w) with (K w).
  rewrite !run_load.
  destruct (balancesOf Wrapper w !! from) as [b|]; [|reflexivity].
  rewrite (run_compare w p a Hp).
  destruct (b <? a).
  - rewrite run_clamp, run_Ptr_clamp, !run_get.
    rewrite (run_read w (Own b) b eq_refl), !run_big_Div.
    destruct (basePrecision =? 0); [reflexivity|].
    now apply Part001_Unwrap_unaliased.
  - rewrite !run_ret, !run_get, (run_read w p a Hp), !run_big_Div.
    destruct (basePrecision =? 0); [reflexivity|].
    now apply Part001_Unwrap_unaliased.
Qed.

(** A call whose amount is not the entry it debits is the operation by
    value; [Interact] towards a contract is two of them. *)
Lemma runCall_unaliased (w : World) (c : call) :
  unaliased w c -> runCall c w = runAll (operationsOf w c) w.
Proof.
  assert (Hone : forall o, run o w = runAll (cons o nil) w)
    by (intros o; cbn [runAll]; now rewrite bind_ret_tt).
  assert (Hint : forall from to p a,
            target p w = Some a -> p <> Entry Stock from ->
            Ptr.dispatch from to p w
            = runAll (operationsOf w (CallInteract from to p)) w).
  { intros from to p a Ha Hne. cbn [operationsOf byValue]. cbv zeta.
    rewrite !(valueOf_Some p w a Ha).
    destruct (isContract to) eqn:Hto.
    - rewrite (dispatch_contract_unaliased from to p a w Hto Ha Hne).
      cbn [runAll run]. unfold bind at 1.
      destruct (Wrap from a w) as [[] w1|e w1]; [|reflexivity].
      cbn [final_state]. now rewrite bind_ret_tt.
    - rewrite <- Hone. cbn [run]. now apply dispatch_plain_unaliased. }
  destruct c; cbn [unaliased amountOf debited];
    try (intros _; cbn [operationsOf byValue]; rewrite <- Hone; reflexivity);
    intros [[a Ha] Hne]; cbn [runCall].
  - rewrite (Main_Interact_dispatch from to amount a w Ha). now apply (Hint from to amount a).
  - rewrite (Part001_Interact_dispatch from to amount a w Ha).
    now apply (Hint from to amount a).
  - cbn [operationsOf byValue]. rewrite (valueOf_Some _ w a Ha), <- Hone.
    now apply Wrap_unaliased.
  - cbn [operationsOf byValue]. rewrite (valueOf_Some _ w a Ha), <- Hone.
    now apply Main_Unwrap_unaliased.
  - cbn [operationsOf byValue]. rewrite (valueOf_Some _ w a Ha), <- Hone.
    now apply Part001_Unwrap_unaliased.
  - cbn [operationsOf byValue]. rewrite (valueOf_Some _ w a Ha), <- Hone.
    now apply Claim_unaliased.
  - cbn [operationsOf byValue]. rewrite (valueOf_Some _ w a Ha), <- Hone.
    now apply Transfer_unaliased.
Qed.

(** ** What no call touches, whatever the amount points to *)

Section Preserved.

Context {B : Type}.
Variable f : World -> B.

Lemma preserves_bind {A C} (c : M World A) (k : A -> M World C) :
  preserves f c -> (forall a, preserves f (k a)) -> preserves f (bind c k).
Proof.
  intros Hc Hk w. unfold bind. specialize (Hc w).
  destruct (c w) as [a w1|e w1]; cbn [final_state] in *; [|assumption].
  now rewrite Hk.
Qed.

Lemma preserves_ret {A} (a : A) : preserves f (ret a).
Proof. intros w. reflexivity. Qed.

Lemma preserves_throw {A} (e : panic) : preserves f (throw e : M World A).
Proof. intros w. reflexivity. Qed.

Lemma preserves_get : preserves f get.
Proof. intros w. reflexivity. Qed.

Lemma preserves_modify (g : World -> World) :
  (forall w, f (g w) = f w) -> preserves f (modify g).
Proof. intros Hg w. apply Hg. Qed.

Lemma preserves_deref (p : option Z) : preserves f (deref p).
Proof. destruct p; [apply preserves_ret|apply preserves_throw]. Qed.

Lemma preserves_big_Div (x y : Z) : preserves f (big_Div x y).
Proof. unfold big_Div. destruct (y =? 0); [apply preserves_throw|apply preserves_ret]. Qed.

Lemma preserves_formatTokens (p : option Z) : preserves f (formatTokens p).
Proof.
  unfold formatTokens. apply preserves_bind; [apply preserves_deref|].
  intros _. apply preserves_ret.
Qed.

Lemma preserves_load (l : ledger) (k : string) : preserves f (load l k).
Proof. intros w. reflexivity. Qed.

Lemma preserves_read (p : pointer) : preserves f (read p).
Proof.
  unfold read. apply preserves_bind; [apply preserves_get|].
  intros w. apply preserves_deref.
Qed.

Lemma preserves_passed (p : pointer) : preserves f (passed p).
Proof. intros w. reflexivity. Qed.

Lemma preserves_less (l : ledger) (k : string) (y : pointer) :
  preserves f (Ptr.less l k y).
Proof.
  intros w. unfold Ptr.less, bind, get.
  destruct (balancesOf l w !! k), (target y w); reflexivity.
Qed.

(** Observations that the balance maps and the wrapper's supply do not
    enter: the exchange rate, the tickers, the stock's supply. *)
Hypothesis f_balances : forall l m w, f (setBalances l m w) = f w.
Hypothesis f_supply : forall z w, f (with_ow (ow_with_totalSupply z (ow w)) w) = f w.

Lemma preserves_store (l : ledger) (k : string) (v : Z) : preserves f (store l k v).
Proof using f_balances. apply preserves_modify. intros w. apply f_balances. Qed.

Lemma preserves_init_if_nil (l : ledger) (k : string) : preserves f (init_if_nil l k).
Proof using f_balances.
  unfold init_if_nil. apply preserves_bind; [apply preserves_load|].
  intros [v|]; [apply preserves_ret|apply preserves_store].
Qed.

Lemma preserves_Add (l : ledger) (k : string) (y : pointer) : preserves f (Ptr.Add l k y).
Proof using f_balances.
  unfold Ptr.Add.
  apply preserves_bind; [apply preserves_load|intros p].
  apply preserves_bind; [apply preserves_deref|intros x].
  apply preserves_bind; [apply preserves_read|intros v].
  apply preserves_store.
Qed.

Lemma preserves_Sub (l : ledger) (k : string) (y : pointer) : preserves f (Ptr.Sub l k y).
Proof using f_balances.
  unfold Ptr.Sub.
  apply preserves_bind; [apply preserves_load|intros p].
  apply preserves_bind; [apply preserves_deref|intros x].
  apply preserves_bind; [apply preserves_read|intros v].
  apply preserves_store.
Qed.

Lemma preserves_burn (y : pointer) : preserves f (Ptr.burn y).
Proof using f_supply.
  unfold Ptr.burn. apply preserves_bind; [apply preserves_read|intros v].
  apply preserves_modify. intros w. apply f_supply.
Qed.

Ltac preserved :=
  repeat first
    [ apply preserves_ret | apply preserves_throw | apply preserves_get
    | apply preserves_load | apply preserves_deref | apply preserves_big_Div
    | apply preserves_formatTokens | apply preserves_read | apply preserves_passed
    | apply preserves_less | apply preserves_store | apply preserves_init_if_nil
    | apply preserves_Add | apply preserves_Sub | apply preserves_burn
    | (apply preserves_modify; intros ?; apply f_supply)
    | (apply preserves_bind; [|intros ?])
    | match goal with
      | |- preserves _ (if ?b then _ else _) => destruct b
      | |- preserves _ (match ?x with Some _ => _ | None => _ end) => destruct x
      end ].

Lemma preserves_Wrap (from : string) (amount : pointer) :
  preserves f (Ptr.Wrap from amount).
Proof using f_balances f_supply. unfold Ptr.Wrap. preserved. Qed.

Lemma preserves_Transfer (from to : string) (amount : pointer) :
  preserves f (Ptr.Transfer from to amount).
Proof using f_balances. unfold Ptr.Transfer. preserved. Qed.

Lemma preserves_dispatch (from to : string) (amount : pointer) :
  preserves f (Ptr.dispatch from to amount).
Proof using f_balances f_supply.
  unfold Ptr.dispatch. destruct (isContract to).
  - apply preserves_bind; [apply preserves_Wrap|intros _].
    apply preserves_bind; [apply preserves_get|intros w].
    apply preserves_bind; [apply preserves_read|intros a].
    apply preserves_bind; [apply preserves_big_Div|intros x].
    apply preserves_Transfer.
  - preserved.
Qed.

Lemma preserves_Main_Unwrap (from : string) (owAmount : pointer) :
  preserves f (Ptr.Main.Unwrap from owAmount).
Proof using f_balances f_supply. unfold Ptr.Main.Unwrap. preserved. Qed.

Lemma preserves_Part001_Unwrap (to : string) (owAmount : pointer) :
  preserves f (Ptr.Part001.Unwrap to owAmount).
Proof using f_balances f_supply. unfold Ptr.Part001.Unwrap. preserved. Qed.

Lemma preserves_Claim (from to : string) (wrappedAmount : pointer) :
  preserves f (Ptr.Part001.Claim from to wrappedAmount).
Proof using f_balances f_supply.
  unfold Ptr.Part001.Claim.
  apply preserves_bind; [apply preserves_passed|intros p].
  destruct (negb (isContract from)); [apply preserves_throw|].
  apply preserves_bind; [apply preserves_get|intros w].
  apply preserves_bind; [apply preserves_formatTokens|intros _].
  apply preserves_bind; [apply preserves_load|intros q].
  apply preserves_bind; [preserved|intros short].
  apply preserves_bind; [preserved|intros p'].
  apply preserves_bind; [apply preserves_get|intros w'].
  apply preserves_bind; [apply preserves_read|intros a].
  apply preserves_bind; [apply preserves_big_Div|intros u].
  apply preserves_Part001_Unwrap.
Qed.

End Preserved.

(** The exchange rate is recomputed by [UpdateExchangeRate] and by no
    other call, whatever the amount of the call points to. *)
Lemma rate_runCall (c : call) (w : World) :
  c <> CallUpdateExchangeRate ->
  ow_exchangeRate (ow (final_state (runCall c w))) = ow_exchangeRate (ow w).
Proof.
  intros Hc.
  assert (Hb : forall l m u, ow_exchangeRate (ow (setBalances l m u)) = ow_exchangeRate (ow u))
    by (intros [] m u; reflexivity).
  assert (Hs : forall z u,
            ow_exchangeRate (ow (with_ow (ow_with_totalSupply z (ow u)) u))
            = ow_exchangeRate (ow u)) by reflexivity.
  destruct c; cbn [runCall]; try congruence.
  - unfold onStock, zoom. destruct (Mint address shares (st w)); reflexivity.
  - unfold onStock, zoom. destruct (Rebase action (st w)); reflexivity.
  - apply (preserves_bind (fun u => ow_exchangeRate (ow u)));
      [apply preserves_passed|intros p]. now apply preserves_dispatch.
  - apply (preserves_bind (fun u => ow_exchangeRate (ow u)));
      [apply preserves_passed|intros p].
    apply preserves_bind; [apply preserves_get|intros u].
    apply preserves_bind; [apply preserves_formatTokens|intros _].
    now apply preserves_dispatch.
  - now apply (preserves_Wrap (fun u => ow_exchangeRate (ow u))).
  - now apply (preserves_Main_Unwrap (fun u => ow_exchangeRate (ow u))).
  - now apply (preserves_Part001_Unwrap (fun u => ow_exchangeRate (ow u))).
  - now apply (preserves_Claim (fun u => ow_exchangeRate (ow u))).
  - now apply (preserves_Transfer (fun u => ow_exchangeRate (ow u))).
Qed.

(** ** The demonstration

    [main] of part_001: ten shares minted, five wrapped for the contract, a
    2-for-1 split, a dividend of $1.50 at $50.00 and a claim of one
    wrapped token. *)

Example demo_outcome :
  exists w,
    demo fresh = Done tt w /\
    st_balances (st w) !! "0xREECE" = Some 12360000 /\
    st_balances (st w) !! "owTSLA" = Some 8240000 /\
    ow_balances (ow w) !! "0xCONTRACT" = Some 4000000 /\
    ow_totalSupply (ow w) = 4000000 /\
    ow_exchangeRate (ow w) = 2060000.
Proof.
  eexists. split; [vm_compute; reflexivity|].
  repeat split; reflexivity.
Qed.

(** ** Unknown actions *)

(** C10.  Handing [Rebase] a value that is neither a [uint64] (a split
    multiplier) nor a [Dividend] is a silent no-op: the call returns
    without a panic and the ledger, with its total supply, its rebase
    multiplier and every balance, is the one it started from.  This holds
    for the [Rebase] of part_000 and for the one of main.go and part_001. *)
Theorem Rebase_unknown_action_is_noop (action : GoValue) :
  isCorporateAction action = false ->
  (forall t : StockToken, Rebase action t = Done tt t) /\
  (forall t : Part000.TSLAToken, Part000.Rebase action t = Done tt t) /\
  (forall w : World, onStock (Rebase action) w = Done tt w).
Proof.
  intros Hother.
  destruct action; try discriminate Hother;
    (split; [|split]); intros x; try reflexivity;
    destruct x as [[] []]; reflexivity.
Qed.

Lemma Rebase_unknown_action_is_noop_witness :
  isCorporateAction (VInt 2) = false /\
  onStock (Rebase (VInt 2)) (final_state (demo fresh)) = Done tt (final_state (demo fresh)).
Proof.
  split; [reflexivity|].
  apply (Rebase_unknown_action_is_noop (VInt 2)). reflexivity.
Defined.

(** ** Stock splits *)

(** X19.  For a multiplier below [2^63] the split is exact: every entry is
    multiplied, no entry appears or disappears, the multiplier is recorded
    and the total supply is left alone. *)
Lemma Rebase_split_exact (t : StockToken) (m : Z) :
  0 <= m < 2 ^ 63 ->
  exists t',
    Rebase (VUint64 m) t = Done tt t' /\
    (forall k, st_balances t' !! k = (fun b => m * b) <$> st_balances t !! k) /\
    st_rebaseMultiplier t' = m /\
    st_totalSupply t' = st_totalSupply t.
Proof.
  intros Hm. eexists. split; [apply Rebase_split|].
  rewrite int64_of_uint64_small by assumption. cbn.
  split; [|split; reflexivity].
  intros k. rewrite lookup_fmap.
  destruct (st_balances t !! k); cbn; [f_equal; lia|reflexivity].
Qed.

(** C8.  [Rebase(uint64(1 << 63))] on the ledger holding one minted share:
    the multiplier goes through [int64(v)] and comes out as [-2^63], so
    the balance is multiplied by [-2^63] instead of [2^63] and the recorded
    multiplier is negative. *)
Theorem Rebase_split_multiplier_sign_wrap :
  let t := final_state (Mint "0xREECE" 1 (NewStockToken "TSLA")) in
  st_balances t !! "0xREECE" = Some 1000000 /\
  exists t',
    Rebase (VUint64 (2 ^ 63)) t = Done tt t' /\
    st_balances t' !! "0xREECE" = Some (- 2 ^ 63 * 1000000) /\
    st_balances t' !! "0xREECE" <> Some (2 ^ 63 * 1000000) /\
    st_rebaseMultiplier t' = - 2 ^ 63.
Proof.
  cbv zeta. split; [reflexivity|].
  eexists. split; [apply Rebase_split|].
  split; [|split]; [vm_compute; reflexivity|vm_compute; discriminate|reflexivity].
Qed.

(** ** Cash dividends *)

(** C2 (amended).  For a dividend with a share price above zero, [Rebase]
    returns; every existing balance [b] becomes
    [b + floor(b * floor(scale * cash / price) / scale)]; the total supply
    is not modified; the total truncation loss is never negative and, when
    the ledger has at least one balance entry, it is strictly less than
    the number of entries (one raw unit is [basePrecision] in the unit of
    [truncationLossScaled]). *)
Theorem CashDividend_distribution (t : StockToken) (d : Dividend) :
  0 < sharePrice d ->
  let shareRatio := basePrecision * cashAmount d / sharePrice d in
  exists t',
    Rebase (VDividend d) t = Done tt t' /\
    st_balances t' = (fun b => b + b * shareRatio / basePrecision) <$> st_balances t /\
    st_totalSupply t' = st_totalSupply t /\
    0 <= truncationLossScaled shareRatio (st_balances t) (st_balances t') /\
    (st_balances t <> ∅ ->
     truncationLossScaled shareRatio (st_balances t) (st_balances t')
     < basePrecision * Z.of_nat (size (st_balances t))).
Proof.
  intros Hp shareRatio.
  eexists. split; [now apply Rebase_dividend|].
  cbn [st_balances st_totalSupply st_with_balances].
  split; [reflexivity|]. split; [reflexivity|].
  pose proof (truncationLoss_bounds shareRatio (st_balances t)) as Hb.
  cbv zeta in Hb. fold shareRatio.
  split; [lia|].
  intros Hne.
  assert (size (st_balances t) <> 0%nat) as Hsz.
  { intros Hz. now apply map_size_empty_iff in Hz. }
  pose proof basePrecision_pos. nia.
Qed.

Lemma CashDividend_distribution_witness :
  let t := final_state (Mint "0xREECE" 10 (NewStockToken "TSLA")) in
  let d := {| cashAmount := 150; sharePrice := 10000 |} in
  0 < sharePrice d /\
  exists t', Rebase (VDividend d) t = Done tt t' /\ st_totalSupply t' = st_totalSupply t.
Proof.
  cbv zeta. split; [reflexivity|].
  destruct (CashDividend_distribution
              (final_state (Mint "0xREECE" 10 (NewStockToken "TSLA")))
              {| cashAmount := 150; sharePrice := 10000 |}) as (t' & Hrun & _ & Hsup & _).
  - reflexivity.
  - exists t'. split; assumption.
Defined.

(** C2, as stated, fails on a ledger without entries: the dividend then
    awards nothing and loses nothing, and a loss of zero is not strictly
    less than zero entries. *)
Lemma CashDividend_loss_empty_ledger :
  let t := NewStockToken "TSLA" in
  let d := {| cashAmount := 150; sharePrice := 10000 |} in
  let shareRatio := basePrecision * cashAmount d / sharePrice d in
  0 < sharePrice d /\
  exists t',
    Rebase (VDividend d) t = Done tt t' /\
    ~ (truncationLossScaled shareRatio (st_balances t) (st_balances t')
       < basePrecision * Z.of_nat (size (st_balances t))).
Proof.
  cbv zeta. split; [reflexivity|].
  eexists. split; [apply Rebase_dividend; reflexivity|].
  cbn [st_balances st_with_balances NewStockToken].
  rewrite fmap_empty, map_size_empty.
  unfold truncationLossScaled. rewrite sumZ_empty. lia.
Qed.

(** The bound is about the divisions made per account.  The truncation of
    [shareRatio] itself is shared by all accounts and is not bounded by
    their number: one account holding a million shares and a dividend of
    one cent at a price of three cents fall short of the exact third by
    more than 300000 raw units (here multiplied by the price). *)
Lemma CashDividend_ratio_truncation :
  let t := final_state (Mint "0xREECE" 1000000 (NewStockToken "TSLA")) in
  let d := {| cashAmount := 1; sharePrice := 3 |} in
  exists t',
    Rebase (VDividend d) t = Done tt t' /\
    size (st_balances t) = 1%nat /\
    sumZ (st_balances t) * cashAmount d
    - sharePrice d * (sumZ (st_balances t') - sumZ (st_balances t))
    = 1000000.
Proof.
  cbv zeta. eexists. split; [apply Rebase_dividend; reflexivity|].
  split; vm_compute; reflexivity.
Qed.

(** ** Unwrap *)

(** X21.  What [Unwrap] does when the entries it reads exist and its
    amount is a number other than the holder's own wrapper balance entry.
    With a holder balance below the amount it panics with the
    insufficient balance message and changes nothing; whenever it
    returns, the holder had at least the amount, the amount has been
    burnt from the holder's wrapper balance and from the wrapper's total
    supply, and [floor(wrappedAmount * exchangeRate / scale)] has moved
    from the custody balance of the stock ledger to the recipient's
    balance there; nothing else has changed.  In main.go the holder is
    the argument and is also the recipient; in part_001 the holder is the
    contract address and the recipient is the argument. *)
Theorem Unwrap_contract
    (w : World) (holder : string) (owAmount : pointer) (wrappedAmount : Z) :
  target owAmount w = Some wrappedAmount ->
  let underlying := wrappedAmount * ow_exchangeRate (ow w) / basePrecision in
  let custody := ow_ticker (ow w) in
  (owAmount <> Entry Wrapper holder ->
   (forall b, ow_balances (ow w) !! holder = Some b -> b < wrappedAmount ->
      Ptr.Main.Unwrap holder owAmount w = Crash (Panic "Insufficient owTSLA balance") w /\
      kindOf (Panic "Insufficient owTSLA balance") = InsufficientBalanceError) /\
   (forall w', Ptr.Main.Unwrap holder owAmount w = Done tt w' ->
      exists b c,
        ow_balances (ow w) !! holder = Some b /\ wrappedAmount <= b /\
        st_balances (st w) !! custody = Some c /\
        w' = setBalances Stock
               (credit holder underlying (<[custody := c - underlying]> (st_balances (st w))))
               (burned holder wrappedAmount b w))) /\
  (owAmount <> Entry Wrapper Part001.contractAddr ->
   (forall to,
      (ow_balances (ow w) !! Part001.contractAddr = None \/
       exists b, ow_balances (ow w) !! Part001.contractAddr = Some b /\ b < wrappedAmount) ->
      Ptr.Part001.Unwrap to owAmount w
        = Crash (Panic "Insufficient owTSLA balance for 0xCONTRACT") w /\
      kindOf (Panic "Insufficient owTSLA balance for 0xCONTRACT") = InsufficientBalanceError) /\
   (forall to w', Ptr.Part001.Unwrap to owAmount w = Done tt w' ->
      exists b c,
        ow_balances (ow w) !! Part001.contractAddr = Some b /\ wrappedAmount <= b /\
        st_balances (st w) !! custody = Some c /\
        w' = setBalances Stock
               (credit to underlying (<[custody := c - underlying]> (st_balances (st w))))
               (burned Part001.contractAddr wrappedAmount b w))).
Proof.
  intros Hp. cbv zeta. split; intros Hne; split.
  - intros b Hb Hlt.
    rewrite (Main_Unwrap_unaliased holder owAmount wrappedAmount w Hp Hne).
    rewrite Main_Unwrap_run, Hb.
    destruct (Z.ltb_spec b wrappedAmount); [split; reflexivity|lia].
  - intros w'.
    rewrite (Main_Unwrap_unaliased holder owAmount wrappedAmount w Hp Hne).
    rewrite Main_Unwrap_run.
    destruct (ow_balances (ow w) !! holder) as [b|]; [|discriminate].
    destruct (Z.ltb_spec b wrappedAmount); [discriminate|]. cbv zeta.
    destruct (st_balances (st w) !! ow_ticker (ow w)) as [c|]; [|discriminate].
    destruct (_ !! holder) as [d|] eqn:Hd; [|discriminate].
    intros [= <-]. exists b, c. repeat split; try assumption.
    unfold credit. now rewrite Hd.
  - intros to H.
    rewrite (Part001_Unwrap_unaliased to owAmount wrappedAmount w Hp Hne).
    rewrite Part001_Unwrap_run.
    destruct H as [->|(b & -> & Hb)]; [split; reflexivity|].
    destruct (Z.ltb_spec b wrappedAmount); [split; reflexivity|lia].
  - intros to w'.
    rewrite (Part001_Unwrap_unaliased to owAmount wrappedAmount w Hp Hne).
    rewrite Part001_Unwrap_run.
    destruct (ow_balances (ow w) !! Part001.contractAddr) as [b|]; [|discriminate].
    destruct (Z.ltb_spec b wrappedAmount); [discriminate|]. cbv zeta.
    destruct (st_balances (st w) !! ow_ticker (ow w)) as [c|]; [|discriminate].
    intros [= <-]. exists b, c. repeat split; assumption.
Qed.

(** The demonstration of part_001, then an [Unwrap] whose amount is the
    stock balance entry of a third address holding one token. *)
Lemma Unwrap_contract_on_demo :
  let w := final_state (onStock (Mint "0xBOB" 1) (final_state (demo fresh))) in
  exists w' b c,
    Ptr.Part001.Unwrap "0xREECE" (Entry Stock "0xBOB") w = Done tt w' /\
    ow_balances (ow w) !! Part001.contractAddr = Some b /\ 1000000 <= b /\
    st_balances (st w) !! ow_ticker (ow w) = Some c /\
    ow_totalSupply (ow w') = ow_totalSupply (ow w) - 1000000.
Proof.
  cbv zeta.
  set (w := final_state (onStock (Mint "0xBOB" 1) (final_state (demo fresh)))).
  assert (Hp : target (Entry Stock "0xBOB") w = Some 1000000)
    by (vm_compute; reflexivity).
  destruct (Ptr.Part001.Unwrap "0xREECE" (Entry Stock "0xBOB") w)
    as [[] w'|p w'] eqn:Hrun; [|vm_compute in Hrun; discriminate Hrun].
  destruct (Unwrap_contract w "0xCONTRACT" (Entry Stock "0xBOB") 1000000 Hp)
    as (_ & Hpart).
  destruct Hpart as (_ & Hdone); [discriminate|].
  destruct (Hdone "0xREECE" w' Hrun) as (b & c & Hb & Hle & Hc & Hw).
  exists w', b, c. repeat split; try assumption.
  rewrite Hw. reflexivity.
Defined.

(** C7.  In main.go, after five shares were wrapped for the contract,
    the contract holds 5000000 wrapped units and asks [Unwrap] for 1000000
    of them.  The requirement of [Unwrap] is met, yet the call does not
    return: it burns the amount from the holder and from the total supply,
    takes the underlying out of custody, and then stops on a nil pointer
    dereference because the holder has no entry in the stock ledger, so
    the underlying reaches nobody.  ([Unwrap] of part_001 creates the
    recipient's entry.)  And a holder without a wrapper entry is not
    refused with the insufficient balance panic: the comparison itself
    dereferences nil. *)
Theorem Main_Unwrap_burns_then_crashes :
  let w := final_state
             ((onStock (Mint "0xREECE" 10) ;;;
               Interact "0xREECE" "0xCONTRACT" 5000000) fresh) in
  ow_balances (ow w) !! "0xCONTRACT" = Some 5000000 /\
  ow_totalSupply (ow w) = 5000000 /\
  st_balances (st w) !! "owTSLA" = Some 5000000 /\
  (exists w',
     Main.Unwrap "0xCONTRACT" 1000000 w = Crash NilDereference w' /\
     ow_balances (ow w') !! "0xCONTRACT" = Some 4000000 /\
     ow_totalSupply (ow w') = 4000000 /\
     st_balances (st w') !! "owTSLA" = Some 4000000 /\
     st_balances (st w') !! "0xCONTRACT" = None) /\
  (exists w',
     Part001.Unwrap "0xCONTRACT" 1000000 w = Done tt w' /\
     st_balances (st w') !! "0xCONTRACT" = Some 1000000) /\
  ow_balances (ow w) !! "0xNOBODY" = None /\
  Main.Unwrap "0xNOBODY" 1 w = Crash NilDereference w /\
  kindOf NilDereference <> InsufficientBalanceError.
Proof.
  cbv zeta.
  split; [reflexivity|]. split; [reflexivity|]. split; [reflexivity|].
  split.
  { eexists. split; [vm_compute; reflexivity|].
    repeat split; reflexivity. }
  split.
  { eexists. split; [vm_compute; reflexivity|]. reflexivity. }
  split; [reflexivity|]. split; [vm_compute; reflexivity|]. discriminate.
Qed.

(** ** Absent balances *)


(** C9.  On freshly built ledgers nobody has a balance entry.  Wrapping,
    transferring or unwrapping one unit from such an address does not
    report an insufficient balance: it stops on a nil pointer dereference,
    which is none of the error kinds.  A debit of zero does not succeed
    either: it stops in the same way, and in [Unwrap] of part_001 it is
    refused as an insufficient balance. *)
Theorem absent_balance_is_not_zero :
  st_balances (st fresh) !! "0xNOBODY" = None /\
  ow_balances (ow fresh) !! "0xNOBODY" = None /\
  Wrap "0xNOBODY" 1 fresh = Crash NilDereference fresh /\
  Interact "0xNOBODY" "0xREECE" 1 fresh = Crash NilDereference fresh /\
  Transfer "0xNOBODY" "0xREECE" 1 fresh = Crash NilDereference fresh /\
  Main.Unwrap "0xNOBODY" 1 fresh = Crash NilDereference fresh /\
  kindOf NilDereference <> InsufficientBalanceError /\
  Wrap "0xNOBODY" 0 fresh = Crash NilDereference fresh /\
  Interact "0xNOBODY" "0xREECE" 0 fresh = Crash NilDereference fresh /\
  Transfer "0xNOBODY" "0xREECE" 0 fresh = Crash NilDereference fresh /\
  Main.Unwrap "0xNOBODY" 0 fresh = Crash NilDereference fresh /\
  Part001.Unwrap "0xREECE" 0 fresh
    = Crash (Panic "Insufficient owTSLA balance for 0xCONTRACT") fresh.
Proof.
  repeat split; try reflexivity. discriminate.
Qed.

(** ** Claim *)

(** X20.  When the claim is made from the contract address itself, that
    address has a wrapper balance entry, the custody entry exists and the
    requested amount is a number other than the contract's own wrapper
    balance entry, [Claim] returns: it burns the smaller of the request
    and the balance from the contract and from the supply, and pays its
    value at the current rate to the recipient. *)
Theorem Claim_clamps
    (w : World) (to : string) (wrappedAmount : pointer) (requested b c : Z) :
  target wrappedAmount w = Some requested ->
  wrappedAmount <> Entry Wrapper Part001.contractAddr ->
  ow_balances (ow w) !! Part001.contractAddr = Some b ->
  st_balances (st w) !! ow_ticker (ow w) = Some c ->
  let claimed := Z.min b requested in
  let underlying := claimed * ow_exchangeRate (ow w) / basePrecision in
  Ptr.Part001.Claim Part001.contractAddr to wrappedAmount w =
  Done tt (setBalances Stock
             (credit to underlying
                (<[ow_ticker (ow w) := c - underlying]> (st_balances (st w))))
             (burned Part001.contractAddr claimed b w)).
Proof.
  intros Hp Hne Hb Hc. cbv zeta.
  rewrite (Claim_unaliased _ to wrappedAmount requested w Hp Hne).
  rewrite Claim_run. change (isContract Part001.contractAddr) with true.
  cbn [negb]. rewrite Hb, Part001_Unwrap_run, Hb, Hc.
  destruct (Z.ltb_spec b (Z.min b requested)); [lia|reflexivity].
Qed.

(** C4.  [Claim] from a contract address can fail.  On fresh ledgers the
    contract address has no wrapper balance entry; the clamping branch is
    entered and reads through the nil pointer.  And when tokens were
    wrapped for a contract address other than ["0xCONTRACT"], a claim from
    it of less than its balance panics, because [Unwrap] checks and burns
    the balance of ["0xCONTRACT"]. *)
Theorem Claim_can_fail :
  isContract "0xCONTRACT" = true /\
  Part001.Claim "0xCONTRACT" "0xREECE" 1000000 fresh = Crash NilDereference fresh /\
  let w := final_state
             (runAll (cons (OpMint "0xREECE" 10)
                        (cons (OpInteract "0xREECE" "0xCONTRACT2" 5000000) nil)) fresh) in
  isContract "0xCONTRACT2" = true /\
  ow_balances (ow w) !! "0xCONTRACT2" = Some 5000000 /\
  Part001.Claim "0xCONTRACT2" "0xREECE" 1000000 w
    = Crash (Panic "Insufficient owTSLA balance for 0xCONTRACT") w.
Proof.
  cbv zeta.
  split; [reflexivity|].
  split; [vm_compute; reflexivity|].
  split; [reflexivity|].
  split; vm_compute; reflexivity.
Qed.

(** ** Wrap followed by unwrap *)

Lemma round_trip_arith (a rate : Z) :
  0 < rate ->
  let minted := a * basePrecision / rate in
  let returned := minted * rate / basePrecision in
  returned <= a /\
  (returned = a <-> Z.divide rate (a * basePrecision)) /\
  (returned = a -> Z.divide basePrecision (minted * rate)).
Proof.
  intros Hr minted returned.
  pose proof basePrecision_pos as HS.
  assert (H1 : minted * rate <= a * basePrecision).
  { unfold minted. rewrite Z.mul_comm. now apply Z.mul_div_le. }
  assert (H2 : returned * basePrecision <= minted * rate).
  { unfold returned. rewrite Z.mul_comm. now apply Z.mul_div_le. }
  assert (H3 : returned <= a).
  { unfold returned. rewrite <- (Z.div_mul a basePrecision) by lia.
    apply Z.div_le_mono; lia. }
  assert (H4 : returned = a -> minted * rate = a * basePrecision) by nia.
  split; [assumption|]. split; [split|].
  - intros E. exists minted. symmetry. auto.
  - intros [k Hk].
    assert (minted = k) as ->.
    { unfold minted. rewrite Hk. apply Z.div_mul. lia. }
    unfold returned. rewrite <- Hk. apply Z.div_mul. lia.
  - intros E. exists a. auto.
Qed.

(** C1 (amended).  In a state with a positive exchange rate, where the
    sender holds at least [a] in the stock ledger and has no negative
    wrapper balance, [Wrap] of [a] returns and mints
    [floor(a * scale / rate)]; unwrapping exactly that amount returns too
    and pays [floor(minted * rate / scale)] back to the sender.  What comes
    back is never more than [a], so the loss is not negative.  It equals
    [a] exactly when the exchange rate divides [a * scale]; and when it
    equals [a] the scale divides the second product as well, although the
    scale dividing both products does not make it equal. *)
Theorem Wrap_Unwrap_round_trip (w : World) (from : string) (a b : Z) :
  0 < ow_exchangeRate (ow w) ->
  st_balances (st w) !! from = Some b ->
  a <= b ->
  0 <= default 0 (ow_balances (ow w) !! from) ->
  let rate := ow_exchangeRate (ow w) in
  let minted := a * basePrecision / rate in
  let returned := minted * rate / basePrecision in
  exists w1 w2,
    Wrap from a w = Done tt w1 /\
    ow_balances (ow w1) !! from = Some (default 0 (ow_balances (ow w) !! from) + minted) /\
    ow_totalSupply (ow w1) = ow_totalSupply (ow w) + minted /\
    Main.Unwrap from minted w1 = Done tt w2 /\
    st_balances (st w2) !! from
      = Some (if decide (from = ow_ticker (ow w)) then b else b - a + returned) /\
    returned <= a /\
    0 <= a - returned /\
    (returned = a <-> Z.divide rate (a * basePrecision)) /\
    (returned = a -> Z.divide basePrecision (minted * rate)).
Proof.
  intros Hrate Hb Hab Hold rate minted returned.
  destruct (round_trip_arith a rate Hrate) as (Hle & Hiff & Himp).
  fold minted in Hle, Hiff, Himp. fold returned in Hle, Hiff, Himp.
  set (w1 := wrapped from a minted b w).
  set (c := default 0 (<[from := b - a]> (st_balances (st w)) !! ow_ticker (ow w)) + a).
  set (m := <[ow_ticker (ow w) := c - returned]> (st_balances (st w1))).
  assert (Hwrap : Wrap from a w = Done tt w1).
  { rewrite Wrap_run, Hb.
    destruct (Z.ltb_spec b a); [lia|].
    destruct (Z.eqb_spec (ow_exchangeRate (ow w)) 0); [lia|].
    rewrite euclid_div_pos by assumption. reflexivity. }
  assert (Hm : m !! from
               = Some (if decide (from = ow_ticker (ow w)) then b - returned else b - a)).
  { unfold m, w1. cbn [wrapped st st_balances st_with_balances].
    rewrite lookup_insert. case_decide as Hc.
    - rewrite decide_True by congruence. f_equal. unfold c.
      rewrite <- Hc, lookup_insert_eq. cbn. lia.
    - rewrite decide_False by congruence.
      now rewrite credit_lookup_ne, lookup_insert_eq. }
  assert (Hunwrap : Main.Unwrap from minted w1
                    = Done tt (setBalances Stock (credit from returned m)
                                 (burned from minted
                                    (default 0 (ow_balances (ow w) !! from) + minted) w1))).
  { rewrite Main_Unwrap_run. unfold w1 at 1.
    cbn [wrapped ow ow_balances ow_with_totalSupply ow_with_balances].
    rewrite credit_lookup.
    destruct (Z.ltb_spec (default 0 (ow_balances (ow w) !! from) + minted) minted); [lia|].
    cbv zeta.
    change (ow_exchangeRate (ow w1)) with rate.
    change (ow_ticker (ow w1)) with (ow_ticker (ow w)).
    fold returned.
    assert (Hcust : st_balances (st w1) !! ow_ticker (ow w) = Some c).
    { unfold w1. cbn [wrapped st st_balances st_with_balances]. apply credit_lookup. }
    rewrite Hcust. fold m. rewrite Hm.
    unfold credit. now rewrite Hm. }
  exists w1, (setBalances Stock (credit from returned m)
                (burned from minted (default 0 (ow_balances (ow w) !! from) + minted) w1)).
  split; [exact Hwrap|].
  split; [apply credit_lookup|].
  split; [reflexivity|].
  split; [exact Hunwrap|].
  split.
  { cbn [setBalances with_st st st_balances st_with_balances].
    rewrite credit_lookup, Hm. cbn. f_equal. case_decide; lia. }
  repeat split; try tauto; lia.
Qed.

Lemma Wrap_Unwrap_round_trip_witness :
  let w := final_state (demo fresh) in
  0 < ow_exchangeRate (ow w) /\
  st_balances (st w) !! "0xREECE" = Some 12360000 /\
  1000000 <= 12360000 /\
  0 <= default 0 (ow_balances (ow w) !! "0xREECE") /\
  exists w1 w2 minted,
    Wrap "0xREECE" 1000000 w = Done tt w1 /\
    Main.Unwrap "0xREECE" minted w1 = Done tt w2.
Proof.
  cbv zeta.
  assert (H1 : 0 < ow_exchangeRate (ow (final_state (demo fresh)))) by reflexivity.
  assert (H2 : st_balances (st (final_state (demo fresh))) !! "0xREECE" = Some 12360000)
    by reflexivity.
  assert (H3 : 1000000 <= 12360000) by lia.
  assert (H4 : 0 <= default 0 (ow_balances (ow (final_state (demo fresh))) !! "0xREECE"))
    by (vm_compute; discriminate).
  repeat (split; [assumption|]).
  destruct (Wrap_Unwrap_round_trip (final_state (demo fresh)) "0xREECE" 1000000 12360000
              H1 H2 H3 H4) as (w1 & w2 & Hw & _ & _ & Hu & _).
  exists w1, w2. eexists. split; [exact Hw|exact Hu].
Defined.

(** C1, as stated, fails after a 3-for-1 split: the rate is three scale
    factors, wrapping one raw unit mints nothing and unwrapping nothing
    returns nothing.  The scale divides both intermediate products,
    [1 * scale] and [0 * rate], and still the unit is lost. *)
Lemma round_trip_loses_with_exact_scale_division :
  let w := final_state
             ((onStock (Mint "0xREECE" 10) ;;;
               Interact "0xREECE" "0xCONTRACT" 5000000 ;;;
               onStock (Rebase (VUint64 3)) ;;;
               UpdateExchangeRate) fresh) in
  let a := 1 in
  let rate := ow_exchangeRate (ow w) in
  let minted := a * basePrecision / rate in
  let returned := minted * rate / basePrecision in
  rate = 3000000 /\
  st_balances (st w) !! "0xREECE" = Some 15000000 /\
  exists w1 w2,
    Wrap "0xREECE" a w = Done tt w1 /\
    ow_balances (ow w1) !! "0xREECE" = Some (0 + minted) /\
    Main.Unwrap "0xREECE" minted w1 = Done tt w2 /\
    st_balances (st w2) !! "0xREECE" = Some (15000000 - a + returned) /\
    Z.divide basePrecision (a * basePrecision) /\
    Z.divide basePrecision (minted * rate) /\
    returned <> a.
Proof.
  cbv zeta. split; [reflexivity|]. split; [reflexivity|].
  eexists. eexists.
  split; [vm_compute; reflexivity|].
  split; [vm_compute; reflexivity|].
  split; [vm_compute; reflexivity|].
  split; [vm_compute; reflexivity|].
  split; [exists 1; reflexivity|].
  split; [exists 0; reflexivity|].
  vm_compute. discriminate.
Qed.

(** ** Interact *)

Lemma wrapped_sender_balance (from : string) (amount owAmount b : Z) (w : World) :
  ow_balances (ow (wrapped from amount owAmount b w)) !! from
  = Some (default 0 (ow_balances (ow w) !! from) + owAmount).
Proof. apply credit_lookup. Qed.

(** C6 (amended).  The amount is a number.  When the recipient carries
    the contract prefix and the amount is none of the objects that [Wrap]
    writes (the stock balance entries of the sender and of the custody
    address, the sender's wrapper balance entry, the wrapper's total
    supply), [Interact] is [Wrap] followed by a [Transfer], inside the
    wrapper, of exactly the amount that [Wrap] minted, from the sender to
    the recipient; when sender and recipient differ, the sender's wrapper
    balance after the call is what it was before and the recipient's has
    grown by the minted amount.  When the recipient does not carry the
    prefix and the amount is not the sender's own stock balance entry,
    [Interact] does to the stock ledger's balances what [Transfer] of
    that number does to the wrapper's, with the same outcome, and touches
    nothing else.  [Interact] of part_001 is that of main.go. *)
Theorem Interact_dispatch (w : World) (from to : string) (amount : pointer) (a : Z) :
  target amount w = Some a ->
  let minted := ZEuclid.div (a * basePrecision) (ow_exchangeRate (ow w)) in
  Ptr.Part001.Interact from to amount w = Ptr.Main.Interact from to amount w /\
  (isContract to = true -> keptByWrap from (ow_ticker (ow w)) amount ->
     Ptr.Main.Interact from to amount w
     = (Ptr.Wrap from amount ;;; Ptr.Transfer from to (Own minted)) w /\
     forall w1, Ptr.Wrap from amount w = Done tt w1 ->
       ow_balances (ow w1) !! from
         = Some (default 0 (ow_balances (ow w) !! from) + minted) /\
       ow_totalSupply (ow w1) = ow_totalSupply (ow w) + minted /\
       forall w2, Ptr.Main.Interact from to amount w = Done tt w2 ->
         st w2 = st w1 /\
         ow_totalSupply (ow w2) = ow_totalSupply (ow w1) /\
         (from <> to ->
          ow_balances (ow w2) !! from = Some (default 0 (ow_balances (ow w) !! from)) /\
          ow_balances (ow w2) !! to
            = Some (default 0 (ow_balances (ow w) !! to) + minted))) /\
  (isContract to = false -> amount <> Entry Stock from ->
     (forall o, ow_balances o = st_balances (st w) ->
        balancesOutcome Stock (Ptr.Main.Interact from to amount w)
        = balancesOutcome Wrapper (Ptr.Transfer from to (Own a) (with_ow o w))) /\
     exists m, final_state (Ptr.Main.Interact from to amount w) = setBalances Stock m w).
Proof.
  intros Hp. cbv zeta.
  rewrite (Part001_Interact_dispatch from to amount a w Hp).
  rewrite (Main_Interact_dispatch from to amount a w Hp).
  split; [reflexivity|]. split.
  - intros Hto Hkept. assert (Hne : amount <> Entry Stock from) by apply Hkept.
    rewrite (dispatch_contract_kept from to amount a w Hto Hp Hkept).
    rewrite (Wrap_unaliased from amount a w Hp Hne).
    split.
    { rewrite Interact_contract_run by assumption. unfold bind.
      rewrite (Wrap_unaliased from amount a w Hp Hne).
      destruct (Wrap from a w) as [[] w1|]; [|reflexivity].
      symmetry. now apply Transfer_unaliased. }
    intros w1 Hw1.
    rewrite Interact_contract_run, Hw1 by assumption.
    rewrite Wrap_run in Hw1.
    destruct (st_balances (st w) !! from) as [b|]; [|discriminate].
    destruct (b <? a); [discriminate|].
    destruct (ow_exchangeRate (ow w) =? 0); [discriminate|].
    injection Hw1 as <-.
    split; [apply wrapped_sender_balance|]. split; [reflexivity|].
    intros w2. rewrite Transfer_run, wrapped_sender_balance.
    destruct (_ <? _); [discriminate|]. intros [= <-].
    split; [reflexivity|]. split; [reflexivity|].
    intros Hft.
    cbn [setBalances with_ow ow ow_balances ow_with_balances wrapped
         ow_with_totalSupply].
    split.
    + rewrite credit_lookup_ne, lookup_insert_eq by congruence. f_equal. lia.
    + rewrite credit_lookup, lookup_insert_ne, credit_lookup_ne by congruence.
      reflexivity.
  - intros Hto Hne.
    rewrite (dispatch_plain_unaliased from to amount a w Hto Hp Hne).
    split.
    + intros o Ho.
      rewrite (Transfer_unaliased from to (Own a) a (with_ow o w) eq_refl)
        by discriminate.
      rewrite Interact_plain_run, Transfer_run by assumption.
      cbn [with_ow ow]. rewrite Ho.
      destruct (st_balances (st w) !! from) as [b|];
        [destruct (b <? a)|]; cbn; rewrite ?Ho; reflexivity.
    + rewrite Interact_plain_run by assumption.
      destruct (st_balances (st w) !! from) as [b|].
      * destruct (b <? a); cbn [final_state]; eauto.
        exists (st_balances (st w)). symmetry. apply (setBalances_id Stock).
      * exists (st_balances (st w)). symmetry. apply (setBalances_id Stock).
Qed.

(** Five tokens towards the contract, the amount being the stock balance
    entry of a third address that holds five tokens. *)
Lemma Interact_dispatch_witness :
  let w := final_state (onStock (Mint "0xBOB" 5)
             (final_state (onStock (Mint "0xREECE" 10) fresh))) in
  target (Entry Stock "0xBOB") w = Some 5000000 /\
  isContract "0xCONTRACT" = true /\
  Ptr.Main.Interact "0xREECE" "0xCONTRACT" (Entry Stock "0xBOB") w
  = (Ptr.Wrap "0xREECE" (Entry Stock "0xBOB") ;;;
     Ptr.Transfer "0xREECE" "0xCONTRACT" (Own 5000000)) w.
Proof.
  cbv zeta.
  set (w := final_state (onStock (Mint "0xBOB" 5)
              (final_state (onStock (Mint "0xREECE" 10) fresh)))).
  assert (Hp : target (Entry Stock "0xBOB") w = Some 5000000)
    by (vm_compute; reflexivity).
  split; [exact Hp|]. split; [reflexivity|].
  destruct (Interact_dispatch w "0xREECE" "0xCONTRACT" (Entry Stock "0xBOB") 5000000 Hp)
    as (_ & Hcontract & _).
  destruct Hcontract as [Heq _]; [reflexivity| |exact Heq].
  repeat split; discriminate.
Defined.

(** C6, as stated, fails in three ways.  When a contract address sends
    to itself, the [Transfer] from the sender to the sender changes
    nothing, and the sender keeps the minted amount.  When the amount is
    the sender's own stock balance entry, [Wrap] mints for its value and
    zeroes it; [Interact] then converts what the amount reads after
    [Wrap], zero, and the [Transfer] moves nothing: the sender keeps the
    minted amount and the contract receives nothing.  When the amount is
    the wrapper's total supply, [Wrap] raises it; [Interact] then asks
    [Transfer] for more than was minted, and the call panics after the
    wrap was done. *)
Lemma Interact_sender_keeps_minted :
  (let w := final_state (onStock (Mint "0xCONTRACT" 1) fresh) in
   isContract "0xCONTRACT" = true /\
   default 0 (ow_balances (ow w) !! "0xCONTRACT") = 0 /\
   exists w1 w2,
     Ptr.Wrap "0xCONTRACT" (Own 1000000) w = Done tt w1 /\
     ow_balances (ow w1) !! "0xCONTRACT" = Some 1000000 /\
     Ptr.Main.Interact "0xCONTRACT" "0xCONTRACT" (Own 1000000) w = Done tt w2 /\
     ow_balances (ow w2) !! "0xCONTRACT" = Some 1000000 /\
     default 0 (ow_balances (ow w2) !! "0xCONTRACT")
     <> default 0 (ow_balances (ow w) !! "0xCONTRACT")) /\
  (let w := final_state (onStock (Mint "0xREECE" 10) fresh) in
   isContract "0xCONTRACT" = true /\
   target (Entry Stock "0xREECE") w = Some 10000000 /\
   default 0 (ow_balances (ow w) !! "0xREECE") = 0 /\
   exists w1 w2,
     Ptr.Wrap "0xREECE" (Entry Stock "0xREECE") w = Done tt w1 /\
     ow_balances (ow w1) !! "0xREECE" = Some 10000000 /\
     Ptr.Main.Interact "0xREECE" "0xCONTRACT" (Entry Stock "0xREECE") w = Done tt w2 /\
     ow_balances (ow w2) !! "0xREECE" = Some 10000000 /\
     ow_balances (ow w2) !! "0xCONTRACT" = Some 0 /\
     custodyBalance w2 = 0) /\
  (let w := final_state (runCalls
              (cons (CallMint "0xREECE" 10)
              (cons (CallInteract "0xREECE" "0xCONTRACT" (Own 5000000)) nil)) fresh) in
   isContract "0xCONTRACT2" = true /\
   target Supply w = Some 5000000 /\
   exists w1 w2,
     Ptr.Wrap "0xREECE" Supply w = Done tt w1 /\
     ow_balances (ow w1) !! "0xREECE" = Some 5000000 /\
     Ptr.Main.Interact "0xREECE" "0xCONTRACT2" Supply w
     = Crash (Panic "Insufficient balance") w2 /\
     w2 = w1).
Proof.
  cbv zeta. split; [|split].
  - split; [reflexivity|]. split; [reflexivity|].
    eexists. eexists.
    split; [vm_compute; reflexivity|].
    split; [vm_compute; reflexivity|].
    split; [vm_compute; reflexivity|].
    split; [vm_compute; reflexivity|].
    vm_compute. discriminate.
  - split; [reflexivity|]. split; [vm_compute; reflexivity|].
    split; [reflexivity|].
    eexists. eexists.
    split; [vm_compute; reflexivity|].
    split; [vm_compute; reflexivity|].
    split; [vm_compute; reflexivity|].
    split; [vm_compute; reflexivity|].
    split; [vm_compute; reflexivity|].
    vm_compute. reflexivity.
  - split; [reflexivity|]. split; [vm_compute; reflexivity|].
    eexists. eexists.
    split; [vm_compute; reflexivity|].
    split; [vm_compute; reflexivity|].
    split; [vm_compute; reflexivity|].
    vm_compute. reflexivity.
Qed.

(** ** Errors and partial updates *)

Lemma onStock_Rebase_dividend_crash (d : Dividend) (w w' : World) (p : panic) :
  onStock (Rebase (VDividend d)) w = Crash p w' -> p = DivisionByZero /\ w' = w.
Proof.
  unfold onStock, zoom, Rebase, bind, big_Div, throw, ret, modify.
  destruct (sharePrice d =? 0); [|discriminate].
  intros [= <- <-]. split; [reflexivity|].
  destruct w as [[] []]; reflexivity.
Qed.

Ltac crash_unchanged Hkind :=
  let Hrun := fresh "Hrun" in
  intros Hrun; injection Hrun as <- <-;
  first [reflexivity | exfalso; apply Hkind; reflexivity].

(** C5.  Whenever [Transfer], [Interact], [Wrap], [Unwrap] (of main.go and
    of part_001), [Claim] or a dividend [Rebase] stops with one of the
    errors of the specification (an insufficient balance, a division by
    zero such as a zero share price, a claim from an address that is not a
    contract address), both ledgers are exactly what they were before the
    call.  ([Interact] towards a contract address is covered for senders
    whose wrapper balance is not negative, as every balance of the data
    model is.)  Conversely, on every input that meets one of these error
    conditions (a debit above the balance, an absent balance counting as
    zero; a zero share price; a claim from an address without the contract
    prefix) the call does stop, in the unchanged state. *)
Theorem errors_commit_nothing (w : World) :
  (forall p w', kindOf p <> RuntimeCrash ->
     (forall from to amount, Transfer from to amount w = Crash p w' -> w' = w) /\
     (forall from to amount,
        isContract to = false \/ 0 <= default 0 (ow_balances (ow w) !! from) ->
        Interact from to amount w = Crash p w' -> w' = w) /\
     (forall from amount, Wrap from amount w = Crash p w' -> w' = w) /\
     (forall from amount, Main.Unwrap from amount w = Crash p w' -> w' = w) /\
     (forall to amount, Part001.Unwrap to amount w = Crash p w' -> w' = w) /\
     (forall from to amount, Part001.Claim from to amount w = Crash p w' -> w' = w) /\
     (forall d, onStock (Rebase (VDividend d)) w = Crash p w' -> w' = w)) /\
  (forall from to amount,
     default 0 (ow_balances (ow w) !! from) < amount ->
     exists p p',
       Transfer from to amount w = Crash p w /\
       Main.Unwrap from amount w = Crash p' w /\
       (is_Some (ow_balances (ow w) !! from) ->
        kindOf p = InsufficientBalanceError /\ kindOf p' = InsufficientBalanceError)) /\
  (forall from to amount,
     default 0 (st_balances (st w) !! from) < amount ->
     exists p p',
       Wrap from amount w = Crash p w /\
       Interact from to amount w = Crash p' w /\
       (is_Some (st_balances (st w) !! from) ->
        kindOf p = InsufficientBalanceError /\ kindOf p' = InsufficientBalanceError)) /\
  (forall to amount,
     default 0 (ow_balances (ow w) !! Part001.contractAddr) < amount ->
     Part001.Unwrap to amount w
     = Crash (Panic "Insufficient owTSLA balance for 0xCONTRACT") w) /\
  (forall from to amount,
     isContract from = false ->
     Part001.Claim from to amount w
     = Crash (Panic "Can only claim from contract addresses") w) /\
  (forall d, sharePrice d = 0 ->
     onStock (Rebase (VDividend d)) w = Crash DivisionByZero w).
Proof.
  split; [|split; [|split; [|split; [|split]]]].
  - intros p w' Hkind.
    assert (HWrap : forall from amount, Wrap from amount w = Crash p w' -> w' = w).
    { intros from amount. rewrite Wrap_run.
      destruct (st_balances (st w) !! from) as [b|]; [|crash_unchanged Hkind].
      destruct (b <? amount); [crash_unchanged Hkind|].
      destruct (ow_exchangeRate (ow w) =? 0); [crash_unchanged Hkind|discriminate]. }
    assert (HUnwrap : forall to amount, Part001.Unwrap to amount w = Crash p w' -> w' = w).
    { intros to amount. rewrite Part001_Unwrap_run.
      destruct (ow_balances (ow w) !! Part001.contractAddr) as [b|];
        [|crash_unchanged Hkind].
      destruct (b <? amount); [crash_unchanged Hkind|]. cbv zeta.
      destruct (st_balances (st w) !! ow_ticker (ow w));
        [discriminate|crash_unchanged Hkind]. }
    repeat split.
    + intros from to amount. rewrite Transfer_run.
      destruct (ow_balances (ow w) !! from) as [b|]; [|crash_unchanged Hkind].
      destruct (b <? amount); [crash_unchanged Hkind|discriminate].
    + intros from to amount Hcase.
      destruct (isContract to) eqn:Hto.
      * destruct Hcase as [Hcase|Hold]; [discriminate|].
        rewrite Interact_contract_run by assumption.
        destruct (Wrap from amount w) as [[] w1|p1 w1] eqn:Hw.
        -- rewrite Wrap_run in Hw.
           destruct (st_balances (st w) !! from) as [b|]; [|discriminate].
           destruct (b <? amount); [discriminate|].
           destruct (ow_exchangeRate (ow w) =? 0); [discriminate|].
           injection Hw as <-.
           rewrite Transfer_run, wrapped_sender_balance.
           destruct (Z.ltb_spec
                       (default 0 (ow_balances (ow w) !! from)
                        + ZEuclid.div (amount * basePrecision) (ow_exchangeRate (ow w)))
                       (ZEuclid.div (amount * basePrecision) (ow_exchangeRate (ow w))));
             [lia|discriminate].
        -- intros [= -> ->]. now apply (HWrap from amount).
      * rewrite Interact_plain_run by assumption.
        destruct (st_balances (st w) !! from) as [b|]; [|crash_unchanged Hkind].
        destruct (b <? amount); [crash_unchanged Hkind|discriminate].
    + exact HWrap.
    + intros from amount. rewrite Main_Unwrap_run.
      destruct (ow_balances (ow w) !! from) as [b|]; [|crash_unchanged Hkind].
      destruct (b <? amount); [crash_unchanged Hkind|]. cbv zeta.
      destruct (st_balances (st w) !! ow_ticker (ow w)); [|crash_unchanged Hkind].
      destruct (_ !! from); [discriminate|crash_unchanged Hkind].
    + exact HUnwrap.
    + intros from to amount. rewrite Claim_run.
      destruct (negb (isContract from)); [crash_unchanged Hkind|].
      destruct (ow_balances (ow w) !! from) as [b|]; [|crash_unchanged Hkind].
      apply HUnwrap.
    + intros d Hrun. now apply onStock_Rebase_dividend_crash in Hrun.
  - intros from to amount Hshort.
    rewrite Transfer_run, Main_Unwrap_run.
    destruct (ow_balances (ow w) !! from) as [b|]; cbn in Hshort.
    + destruct (Z.ltb_spec b amount); [|lia].
      eexists. eexists. repeat split; reflexivity.
    + eexists. eexists. split; [reflexivity|]. split; [reflexivity|].
      intros [? [=]].
  - intros from to amount Hshort.
    assert (HWrap : exists p, Wrap from amount w = Crash p w /\
                      (is_Some (st_balances (st w) !! from) ->
                       kindOf p = InsufficientBalanceError)).
    { rewrite Wrap_run.
      destruct (st_balances (st w) !! from) as [b|]; cbn in Hshort.
      - destruct (Z.ltb_spec b amount); [|lia]. eexists. split; reflexivity.
      - eexists. split; [reflexivity|]. intros [? [=]]. }
    destruct HWrap as (p & Hp & Hkp). exists p.
    destruct (isContract to) eqn:Hto.
    + exists p. rewrite Interact_contract_run, Hp by assumption.
      repeat split; auto.
    + rewrite Interact_plain_run by assumption.
      destruct (st_balances (st w) !! from) as [b|]; cbn in Hshort.
      * destruct (Z.ltb_spec b amount); [|lia].
        eexists. split; [exact Hp|]. split; [reflexivity|].
        intros Hsome. split; [auto|reflexivity].
      * eexists. split; [exact Hp|]. split; [reflexivity|]. intros [? [=]].
  - intros to amount Hshort. rewrite Part001_Unwrap_run.
    destruct (ow_balances (ow w) !! Part001.contractAddr) as [b|]; cbn in Hshort;
      [|reflexivity].
    destruct (Z.ltb_spec b amount); [reflexivity|lia].
  - intros from to amount Hfrom. rewrite Claim_run, Hfrom. reflexivity.
  - intros d Hd. unfold onStock, zoom. rewrite Rebase_dividend_zero_price by assumption.
    destruct w as [[] []]; reflexivity.
Qed.

Lemma errors_commit_nothing_witness :
  let w := final_state (onStock (Mint "0xREECE" 10) fresh) in
  (exists p, Wrap "0xREECE" 99000000 w = Crash p w) /\
  forall w', Wrap "0xREECE" 99000000 w = Crash (Panic "Insufficient TSLA balance") w' ->
             w' = w.
Proof.
  cbv zeta.
  destruct (errors_commit_nothing (final_state (onStock (Mint "0xREECE" 10) fresh)))
    as (Hatomic & _ & Hshort & _).
  split.
  - destruct (Hshort "0xREECE" "0xREECE" 99000000) as (p & _ & Hp & _);
      [vm_compute; reflexivity|].
    exists p. exact Hp.
  - intros w'.
    destruct (Hatomic (Panic "Insufficient TSLA balance") w') as (_ & _ & HWrap & _);
      [discriminate|].
    apply HWrap.
Defined.

(** ** The exchange rate *)

Lemma sumZ_credit (m : gmap string Z) (k : string) (y : Z) :
  sumZ (credit k y m) = sumZ m + y.
Proof.
  unfold credit. destruct (m !! k) as [b|] eqn:Hk; cbn.
  - rewrite (sumZ_insert_present m k b) by assumption. lia.
  - rewrite sumZ_insert_fresh by assumption. lia.
Qed.

Lemma nonneg_insert (m : gmap string Z) (j : string) (x : Z) :
  (forall k v, m !! k = Some v -> 0 <= v) ->
  0 <= x ->
  forall k v, <[j := x]> m !! k = Some v -> 0 <= v.
Proof.
  intros Hm Hx k v. rewrite lookup_insert. case_decide.
  - intros [= <-]. assumption.
  - apply Hm.
Qed.

Lemma nonneg_credit (m : gmap string Z) (j : string) (y : Z) :
  (forall k v, m !! k = Some v -> 0 <= v) ->
  0 <= y ->
  forall k v, credit j y m !! k = Some v -> 0 <= v.
Proof.
  intros Hm Hy. apply nonneg_insert; [assumption|].
  destruct (m !! j) as [b|] eqn:Hj; cbn; [|lia].
  specialize (Hm j b Hj). lia.
Qed.

Lemma Mint_run (address : string) (shares : Z) (w : World) :
  onStock (Mint address shares) w =
  Done tt (with_st
             (st_with_totalSupply
                (st_totalSupply (st w) + int64_of_uint64 shares * basePrecision)
                (st_with_balances
                   (credit address (int64_of_uint64 shares * basePrecision)
                      (st_balances (st w))) (st w))) w).
Proof.
  unfold onStock, zoom, Mint, bind, get, modify, deref, ret, throw, credit.
  destruct (st_balances (st w) !! address) as [b|] eqn:Hb.
  - rewrite Hb. reflexivity.
  - rewrite lookup_insert_eq, insert_insert_eq. reflexivity.
Qed.

Lemma backed_supply_nonneg (w : World) : backed w -> 0 <= ow_totalSupply (ow w).
Proof.
  intros [_ Hpos Hsum _]. rewrite Hsum. now apply sumZ_nonneg.
Qed.

Lemma backed_custody_nonneg (w : World) : backed w -> 0 <= custodyBalance w.
Proof.
  intros Hb. pose proof (backed_supply_nonneg w Hb) as Hs.
  destruct Hb as [Hr _ _ Hc]. pose proof basePrecision_pos. nia.
Qed.

(** A step that leaves the wrapper alone and does not lower the custody
    balance keeps the invariant. *)
Lemma backed_stock_step (w w' : World) :
  backed w -> ow w' = ow w -> custodyBalance w <= custodyBalance w' -> backed w'.
Proof.
  intros [Hr Hp Hs Hc] How Hcust.
  constructor; rewrite How; try assumption.
  pose proof basePrecision_pos. nia.
Qed.

Lemma backed_fresh (ticker ticker' : string) : backed (freshWorld ticker ticker').
Proof.
  constructor; cbn.
  - lia.
  - intros k v. rewrite lookup_empty. discriminate.
  - now rewrite sumZ_empty.
  - unfold custodyBalance. cbn. rewrite lookup_empty. cbn. lia.
Qed.

Lemma backed_Mint (w : World) (address : string) (shares : Z) :
  backed w -> 0 <= shares < 2 ^ 63 ->
  backed (final_state (onStock (Mint address shares) w)).
Proof.
  intros Hb Hs. rewrite Mint_run. cbn [final_state].
  apply (backed_stock_step w); [assumption|reflexivity|].
  unfold custodyBalance.
  cbn [with_st st ow st_balances st_with_totalSupply st_with_balances].
  rewrite int64_of_uint64_small by assumption.
  unfold credit. rewrite lookup_insert. case_decide as Hk; cbn.
  - rewrite Hk. pose proof basePrecision_pos. nia.
  - lia.
Qed.

Lemma backed_Rebase (w : World) (action : GoValue) :
  backed w -> inDomain (ow_ticker (ow w)) (OpRebase action) ->
  backed (final_state (onStock (Rebase action) w)).
Proof.
  intros Hb Hdom.
  pose proof (backed_custody_nonneg w Hb) as Hc. unfold custodyBalance in Hc.
  destruct action as [m|d| | | | |]; cbn [inDomain] in Hdom;
    try (apply (backed_stock_step w); [assumption|reflexivity|];
         unfold custodyBalance; destruct w as [[] []]; cbn; lia).
  - apply (backed_stock_step w); [assumption|reflexivity|].
    unfold custodyBalance, onStock, zoom. rewrite Rebase_split.
    cbn [final_state with_st st ow st_balances st_with_rebaseMultiplier st_with_balances].
    rewrite int64_of_uint64_small by lia.
    rewrite lookup_fmap.
    destruct (st_balances (st w) !! ow_ticker (ow w)) as [c|]; cbn in *; [nia|lia].
  - destruct Hdom as [Hcash Hprice].
    destruct (Z.eq_dec (sharePrice d) 0) as [Hz|Hnz].
    + unfold onStock, zoom. rewrite Rebase_dividend_zero_price by assumption.
      apply (backed_stock_step w); [assumption|reflexivity|].
      unfold custodyBalance; destruct w as [[] []]; cbn; lia.
    + unfold onStock, zoom. rewrite Rebase_dividend by lia. cbn [final_state].
      apply (backed_stock_step w); [assumption|reflexivity|].
      unfold custodyBalance.
      cbn [with_st st ow st_balances st_with_balances].
      rewrite lookup_fmap.
      destruct (st_balances (st w) !! ow_ticker (ow w)) as [c|]; cbn in *; [|lia].
      assert (0 <= basePrecision * cashAmount d / sharePrice d).
      { apply Z.div_pos; [|lia]. pose proof basePrecision_pos. nia. }
      assert (0 <= c * (basePrecision * cashAmount d / sharePrice d) / basePrecision);
        [|lia].
      apply Z.div_pos; [nia|apply basePrecision_pos].
Qed.

Lemma backed_Wrap (w : World) (from : string) (amount : Z) :
  backed w -> 0 <= amount -> from <> ow_ticker (ow w) ->
  backed (final_state (Wrap from amount w)) /\
  ow_ticker (ow (final_state (Wrap from amount w))) = ow_ticker (ow w).
Proof.
  intros Hb Ha Hne. rewrite Wrap_run.
  destruct (st_balances (st w) !! from) as [b|] eqn:Hfrom; [|now split].
  destruct (b <? amount); [now split|].
  destruct (Z.eqb_spec (ow_exchangeRate (ow w)) 0) as [|Hnz]; [now split|].
  cbn [final_state]. split; [|reflexivity].
  destruct Hb as [Hr Hp Hs Hc]. pose proof basePrecision_pos as HS.
  rewrite euclid_div_pos by lia.
  set (minted := amount * basePrecision / ow_exchangeRate (ow w)).
  assert (Hm : 0 <= minted) by (apply Z.div_pos; nia).
  assert (Hle : ow_exchangeRate (ow w) * minted <= amount * basePrecision)
    by (apply Z.mul_div_le; lia).
  constructor;
    cbn [wrapped ow st ow_exchangeRate ow_balances ow_totalSupply ow_ticker
         ow_with_totalSupply ow_with_balances].
  - assumption.
  - now apply nonneg_credit.
  - rewrite sumZ_credit. lia.
  - unfold custodyBalance in *.
    cbn [wrapped ow st ow_ticker ow_with_totalSupply ow_with_balances
         st_balances st_with_balances].
    rewrite credit_lookup, lookup_insert_ne by assumption. cbn. nia.
Qed.

Lemma backed_Transfer (w : World) (from to : string) (amount : Z) :
  backed w -> 0 <= amount ->
  backed (final_state (Transfer from to amount w)).
Proof.
  intros Hb Ha. rewrite Transfer_run.
  destruct (ow_balances (ow w) !! from) as [b|] eqn:Hfrom; [|assumption].
  destruct (Z.ltb_spec b amount); [assumption|].
  cbn [final_state]. destruct Hb as [Hr Hp Hs Hc].
  constructor;
    cbn [setBalances with_ow ow st ow_exchangeRate ow_balances ow_totalSupply
         ow_with_balances].
  - assumption.
  - apply nonneg_credit; [|assumption]. apply nonneg_insert; [assumption|lia].
  - rewrite sumZ_credit, (sumZ_insert_present _ from b) by assumption. lia.
  - exact Hc.
Qed.

Lemma backed_Interact (w : World) (from to : string) (amount : Z) :
  backed w -> 0 <= amount -> from <> ow_ticker (ow w) ->
  backed (final_state (Interact from to amount w)).
Proof.
  intros Hb Ha Hne.
  destruct (isContract to) eqn:Hto.
  - rewrite Interact_contract_run by assumption.
    destruct (backed_Wrap w from amount Hb Ha Hne) as [Hw _].
    destruct (Wrap from amount w) as [[] w1|p w1]; cbn [final_state] in *.
    + apply backed_Transfer; [assumption|].
      destruct Hb as [Hr _ _ _]. pose proof basePrecision_pos.
      rewrite euclid_div_pos by lia. apply Z.div_pos; nia.
    + assumption.
  - rewrite Interact_plain_run by assumption.
    destruct (st_balances (st w) !! from) as [b|] eqn:Hfrom; [|assumption].
    destruct (b <? amount); [assumption|].
    cbn [final_state].
    apply (backed_stock_step w); [assumption|reflexivity|].
    unfold custodyBalance.
    cbn [setBalances with_st ow st st_balances st_with_balances].
    unfold credit. rewrite lookup_insert. case_decide as Hk; cbn.
    + rewrite Hk, lookup_insert_ne by assumption. lia.
    + rewrite lookup_insert_ne by assumption. lia.
Qed.

Lemma custody_after_unwrap (m : gmap string Z) (custody to : string) (c u : Z) :
  default 0 (credit to u (<[custody := c - u]> m) !! custody)
  = if decide (to = custody) then c else c - u.
Proof.
  unfold credit. destruct (decide (to = custody)) as [->|Hne].
  - rewrite !lookup_insert_eq. cbn. lia.
  - now rewrite lookup_insert_ne, lookup_insert_eq.
Qed.

Lemma backed_Unwrap (w : World) (to : string) (owAmount : Z) :
  backed w -> 0 <= owAmount ->
  backed (final_state (Part001.Unwrap to owAmount w)).
Proof.
  intros Hb Ha. rewrite Part001_Unwrap_run.
  destruct (ow_balances (ow w) !! Part001.contractAddr) as [b|] eqn:Hhold; [|assumption].
  destruct (Z.ltb_spec b owAmount); [assumption|]. cbv zeta.
  pose proof (backed_custody_nonneg w Hb) as Hcn.
  destruct Hb as [Hr Hp Hs Hc]. pose proof basePrecision_pos as HS.
  set (underlying := owAmount * ow_exchangeRate (ow w) / basePrecision).
  assert (Hu : underlying * basePrecision <= owAmount * ow_exchangeRate (ow w)).
  { unfold underlying. rewrite Z.mul_comm. apply Z.mul_div_le. lia. }
  assert (Hu0 : 0 <= underlying) by (apply Z.div_pos; nia).
  assert (Hburn : forall k v,
            <[Part001.contractAddr := b - owAmount]> (ow_balances (ow w)) !! k = Some v ->
            0 <= v) by (apply nonneg_insert; [assumption|lia]).
  assert (Hsum : ow_totalSupply (ow w) - owAmount
                 = sumZ (<[Part001.contractAddr := b - owAmount]> (ow_balances (ow w)))).
  { rewrite (sumZ_insert_present _ _ b) by assumption. lia. }
  unfold custodyBalance in Hc, Hcn.
  destruct (st_balances (st w) !! ow_ticker (ow w)) as [c|] eqn:Hcust;
    cbn [final_state]; constructor; unfold custodyBalance;
    cbn [setBalances burned with_ow with_st ow st ow_exchangeRate ow_balances
         ow_totalSupply ow_ticker ow_with_balances ow_with_totalSupply
         st_balances st_with_balances];
    try assumption.
  - rewrite custody_after_unwrap. cbn in Hc, Hcn. case_decide; nia.
  - rewrite Hcust. cbn in *. nia.
Qed.

Lemma backed_Main_Unwrap (w : World) (from : string) (owAmount : Z) :
  backed w -> 0 <= owAmount ->
  backed (final_state (Main.Unwrap from owAmount w)).
Proof.
  intros Hb Ha. rewrite Main_Unwrap_run.
  destruct (ow_balances (ow w) !! from) as [b|] eqn:Hhold; [|assumption].
  destruct (Z.ltb_spec b owAmount); [assumption|]. cbv zeta.
  pose proof (backed_custody_nonneg w Hb) as Hcn.
  pose proof (backed_supply_nonneg w Hb) as Hsn.
  destruct Hb as [Hr Hp Hs Hc]. pose proof basePrecision_pos as HS.
  assert (Hbs : b <= ow_totalSupply (ow w)).
  { rewrite Hs. now apply (sumZ_lookup_le _ from). }
  set (underlying := owAmount * ow_exchangeRate (ow w) / basePrecision).
  assert (Hu : underlying * basePrecision <= owAmount * ow_exchangeRate (ow w)).
  { unfold underlying. rewrite Z.mul_comm. apply Z.mul_div_le. lia. }
  assert (Hu0 : 0 <= underlying) by (apply Z.div_pos; nia).
  assert (Hburn : forall k v,
            <[from := b - owAmount]> (ow_balances (ow w)) !! k = Some v -> 0 <= v)
    by (apply nonneg_insert; [assumption|lia]).
  assert (Hsum : ow_totalSupply (ow w) - owAmount
                 = sumZ (<[from := b - owAmount]> (ow_balances (ow w)))).
  { rewrite (sumZ_insert_present _ _ b) by assumption. lia. }
  unfold custodyBalance in Hc, Hcn.
  destruct (st_balances (st w) !! ow_ticker (ow w)) as [c|] eqn:Hcust.
  - cbn in Hc, Hcn.
    destruct (<[ow_ticker (ow w) := c - underlying]> (st_balances (st w)) !! from)
      as [d|] eqn:Hd;
      cbn [final_state]; constructor; unfold custodyBalance;
      cbn [setBalances burned with_ow with_st ow st ow_exchangeRate ow_balances
           ow_totalSupply ow_ticker ow_with_balances ow_with_totalSupply
           st_balances st_with_balances];
      try assumption.
    + rewrite lookup_insert. case_decide as Hk; cbn.
      * rewrite Hk, lookup_insert_eq in Hd. injection Hd as <-. nia.
      * rewrite lookup_insert_eq. cbn. nia.
    + rewrite lookup_insert_eq. cbn. nia.
  - cbn [final_state]; constructor; unfold custodyBalance;
      cbn [setBalances burned with_ow with_st ow st ow_exchangeRate ow_balances
           ow_totalSupply ow_ticker ow_with_balances ow_with_totalSupply
           st_balances st_with_balances];
      try assumption.
    rewrite Hcust. cbn in *. nia.
Qed.

Lemma backed_Claim (w : World) (from to : string) (wrappedAmount : Z) :
  backed w -> 0 <= wrappedAmount ->
  backed (final_state (Part001.Claim from to wrappedAmount w)).
Proof.
  intros Hb Ha. rewrite Claim_run.
  destruct (negb (isContract from)); [assumption|].
  destruct (ow_balances (ow w) !! from) as [b|] eqn:Hfrom; [|assumption].
  apply backed_Unwrap; [assumption|].
  assert (0 <= b) by (destruct Hb as [_ Hp _ _]; eauto).
  lia.
Qed.

Lemma backed_UpdateExchangeRate (w : World) :
  backed w -> backed (final_state (UpdateExchangeRate w)).
Proof.
  intros Hb. rewrite UpdateExchangeRate_run.
  destruct (Z.eqb_spec (ow_totalSupply (ow w)) 0) as [|Hnz]; [assumption|].
  pose proof (backed_supply_nonneg w Hb) as Hs0.
  destruct (st_balances (st w) !! ow_ticker (ow w)) as [c|] eqn:Hcust; [|assumption].
  cbn [final_state]. destruct Hb as [Hr Hp Hs Hc].
  unfold custodyBalance in Hc. rewrite Hcust in Hc. cbn in Hc.
  rewrite euclid_div_pos by lia.
  constructor; unfold custodyBalance;
    cbn [with_ow ow st ow_exchangeRate ow_balances ow_totalSupply ow_ticker
         ow_with_exchangeRate]; try assumption.
  - etransitivity; [exact Hr|].
    apply Z.div_le_lower_bound; lia.
  - rewrite Hcust. cbn. rewrite Z.mul_comm. apply Z.mul_div_le. lia.
Qed.

Lemma backed_step (w : World) (o : operation) :
  backed w -> inDomain (ow_ticker (ow w)) o -> backed (final_state (run o w)).
Proof.
  intros Hb Hdom. destruct o; cbn [run inDomain] in *.
  - now apply backed_Mint.
  - now apply backed_Rebase.
  - now apply backed_Interact.
  - now apply backed_Wrap.
  - now apply backed_Main_Unwrap.
  - now apply backed_Unwrap.
  - now apply backed_Claim.
  - now apply backed_Transfer.
  - now apply backed_UpdateExchangeRate.
Qed.

Lemma onStock_ow {A} (c : M StockToken A) (w : World) :
  ow (final_state (onStock c w)) = ow w.
Proof. unfold onStock, zoom. destruct (c (st w)); reflexivity. Qed.

(** What an amount other than the debited entry leads to after [Wrap]
    has returned is no less than before. *)
Lemma valueOf_after_Wrap (p : pointer) (from : string) (a v : Z) (w w1 : World) :
  target p w = Some v -> p <> Entry Stock from ->
  0 <= a -> 0 < ow_exchangeRate (ow w) ->
  Wrap from a w = Done tt w1 ->
  v <= valueOf p w1 /\
  (keptByWrap from (ow_ticker (ow w)) p -> valueOf p w1 = v).
Proof.
  intros Hp Hne Ha Hr. rewrite Wrap_run.
  destruct (st_balances (st w) !! from) as [b|]; [|discriminate].
  destruct (b <? a); [discriminate|].
  destruct (ow_exchangeRate (ow w) =? 0); [discriminate|].
  intros [= <-].
  destruct (target_wrapped p from a
              (ZEuclid.div (a * basePrecision) (ow_exchangeRate (ow w))) b v w Hp Hne)
    as (v1 & Hv1 & Hle & Hkept).
  unfold valueOf. rewrite Hv1. cbn. split; [|exact Hkept].
  apply Hle; [assumption|].
  pose proof basePrecision_pos.
  rewrite euclid_div_pos by assumption. apply Z.div_pos; nia.
Qed.

Lemma backed_call (w : World) (c : call) :
  backed w -> callInDomain w c -> backed (final_state (runCall c w)).
Proof.
  intros Hb [Hu Hd].
  assert (Hone : backed (final_state (runAll (cons (byValue w c) nil) w))).
  { cbn [runAll]. rewrite bind_ret_tt. now apply backed_step. }
  assert (Hint : forall from to p,
            unaliased w (CallInteract from to p) ->
            inDomain (ow_ticker (ow w)) (OpInteract from to (valueOf p w)) ->
            backed (final_state (runAll (operationsOf w (CallInteract from to p)) w))).
  { intros from to p [[a Ha] Hne] [H0 Hcust].
    cbn [operationsOf byValue]. cbv zeta. rewrite (valueOf_Some p w a Ha) in *.
    destruct (isContract to).
    - cbn [runAll run]. unfold bind at 1.
      destruct (backed_Wrap w from a Hb H0 Hcust) as [Hw _].
      destruct (Wrap from a w) as [[] w1|e w1] eqn:HW; cbn [final_state] in *;
        [|assumption].
      rewrite bind_ret_tt. apply backed_Transfer; [assumption|].
      pose proof basePrecision_pos as HS.
      assert (Hr : 0 < ow_exchangeRate (ow w)) by (destruct Hb; lia).
      destruct (valueOf_after_Wrap p from a a w w1 Ha Hne H0 Hr HW) as [Hle _].
      assert (Hr1 : 0 < ow_exchangeRate (ow w1)) by (destruct Hw; lia).
      rewrite euclid_div_pos by assumption. apply Z.div_pos; nia.
    - cbn [runAll]. rewrite bind_ret_tt. apply backed_step; [assumption|].
      split; assumption. }
  rewrite (runCall_unaliased w c Hu).
  destruct c; try exact Hone.
  - now apply Hint.
  - now apply (Hint from to amount).
Qed.

Lemma reachableByCalls_backed (w : World) : reachableByCalls w -> backed w.
Proof.
  induction 1 as [ticker ticker'|w c _ IH Hdom].
  - apply backed_fresh.
  - now apply backed_call.
Qed.

(** C3 (amended).  A fresh wrapper has the exchange rate of one scale
    factor.  In every state reached from fresh ledgers by mint, transfer,
    wrap, unwrap, claim, corporate-action and updateExchangeRate calls
    whose inputs are in the domain of the specification, whose amount is
    a number and not the very balance entry that the call debits with it,
    and in which the custody address is never the sender of a wrap or of
    a transfer, the exchange rate is strictly positive (it never drops
    below one scale factor).  No call other than [UpdateExchangeRate]
    changes it, in any state and with any amount.  In any state at all,
    [UpdateExchangeRate] never divides by zero and returns the state as
    it is when the wrapper's total supply is zero; in a reached state
    with a supply other than zero it returns and sets the rate to
    [floor(custodyBalance * scale / totalSupply)], which is positive
    again. *)
Theorem exchangeRate_positive (w : World) :
  reachableByCalls w ->
  (forall ticker ticker',
     ow_exchangeRate (ow (freshWorld ticker ticker')) = basePrecision) /\
  0 < ow_exchangeRate (ow w) /\
  basePrecision <= ow_exchangeRate (ow w) /\
  (forall c u, c <> CallUpdateExchangeRate ->
     ow_exchangeRate (ow (final_state (runCall c u))) = ow_exchangeRate (ow u)) /\
  (forall u, ow_totalSupply (ow u) = 0 -> UpdateExchangeRate u = Done tt u) /\
  (forall u p u', UpdateExchangeRate u = Crash p u' -> p <> DivisionByZero) /\
  (ow_totalSupply (ow w) <> 0 ->
     UpdateExchangeRate w
     = Done tt (with_ow (ow_with_exchangeRate
                           (custodyBalance w * basePrecision / ow_totalSupply (ow w))
                           (ow w)) w) /\
     0 < custodyBalance w * basePrecision / ow_totalSupply (ow w)).
Proof.
  intros Hreach. pose proof (reachableByCalls_backed w Hreach) as Hb.
  pose proof basePrecision_pos as HS.
  split; [reflexivity|].
  split; [destruct Hb; lia|].
  split; [destruct Hb; assumption|].
  split; [intros c u Hc; now apply rate_runCall|].
  split.
  { intros u Hu. rewrite UpdateExchangeRate_run, Hu. reflexivity. }
  split.
  { intros u p u'. rewrite UpdateExchangeRate_run.
    destruct (ow_totalSupply (ow u) =? 0); [discriminate|].
    destruct (st_balances (st u) !! ow_ticker (ow u)); [discriminate|].
    intros [= <- _]. discriminate. }
  intros Hnz.
  pose proof (backed_supply_nonneg w Hb) as Hs0.
  pose proof (backed_UpdateExchangeRate w Hb) as Hb'.
  rewrite UpdateExchangeRate_run in Hb' |- *.
  destruct (Z.eqb_spec (ow_totalSupply (ow w)) 0) as [|_]; [contradiction|].
  destruct Hb as [Hr Hp Hs Hc]. unfold custodyBalance in *.
  destruct (st_balances (st w) !! ow_ticker (ow w)) as [c|]; cbn in Hc |- *.
  - rewrite euclid_div_pos by lia. split; [reflexivity|].
    cbn [final_state] in Hb'. destruct Hb' as [Hr' _ _ _].
    cbn [with_ow ow ow_exchangeRate ow_with_exchangeRate] in Hr'.
    rewrite euclid_div_pos in Hr' by lia. lia.
  - exfalso. nia.
Qed.

(** Ten shares minted, five sent to the contract, then a wrap whose
    amount is the contract's wrapper balance (a ledger entry, but not the
    one the wrap debits), a 2-for-1 split and an update of the rate. *)
Lemma reachableByCalls_after_split :
  reachableByCalls
    (final_state (runCall CallUpdateExchangeRate
      (final_state (runCall (CallRebase (VUint64 2))
        (final_state (runCall (CallWrap "0xREECE" (Entry Wrapper "0xCONTRACT"))
          (final_state (runCall (CallInteract "0xREECE" "0xCONTRACT" (Own 5000000))
            (final_state (runCall (CallMint "0xREECE" 10)
               (freshWorld "TSLA" "TSLA"))))))))))).
Proof.
  apply reachableByCalls_step; [|split; exact I].
  apply reachableByCalls_step; [|split; [exact I|cbn; lia]].
  apply reachableByCalls_step;
    [|split; [split; [eexists; vm_compute; reflexivity|discriminate]
             |split; [vm_compute; discriminate|vm_compute; discriminate]]].
  apply reachableByCalls_step;
    [|split; [split; [eexists; reflexivity|discriminate]
             |split; [vm_compute; discriminate|vm_compute; discriminate]]].
  apply reachableByCalls_step; [|split; [exact I|cbn; lia]].
  apply reachableByCalls_fresh.
Defined.

Lemma exchangeRate_positive_witness :
  let w :=
    final_state (runCall CallUpdateExchangeRate
      (final_state (runCall (CallRebase (VUint64 2))
        (final_state (runCall (CallWrap "0xREECE" (Entry Wrapper "0xCONTRACT"))
          (final_state (runCall (CallInteract "0xREECE" "0xCONTRACT" (Own 5000000))
            (final_state (runCall (CallMint "0xREECE" 10)
               (freshWorld "TSLA" "TSLA")))))))))) in
  reachableByCalls w /\ 0 < ow_exchangeRate (ow w).
Proof.
  cbv zeta. split; [exact reachableByCalls_after_split|].
  destruct (exchangeRate_positive _ reachableByCalls_after_split) as (_ & Hpos & _).
  exact Hpos.
Defined.

(** C3, as stated, fails in two ways.  Anybody may name the custody
    address as the sender of a transfer: after five shares were wrapped
    for the contract, a plain [Interact] from the custody address empties
    the custody balance, and [UpdateExchangeRate] sets the rate to zero.
    And the amount of a [Wrap] may be the sender's own balance entry:
    [Wrap] computes the wrapped amount from it, then zeroes it with its
    [Sub] and credits the custody address with what it reads then, zero;
    ten wrapped tokens are backed by nothing and [UpdateExchangeRate]
    sets the rate to zero.  Every call of both sequences returns. *)
Lemma exchangeRate_reaches_zero :
  (exists w,
     runCalls (cons (CallMint "0xREECE" 10)
              (cons (CallInteract "0xREECE" "0xCONTRACT" (Own 5000000))
              (cons (CallInteract "owTSLA" "0xREECE" (Own 5000000))
              (cons CallUpdateExchangeRate nil)))) fresh = Done tt w /\
     ow_totalSupply (ow w) = 5000000 /\
     ow_exchangeRate (ow w) = 0 /\
     ~ 0 < ow_exchangeRate (ow w)) /\
  (exists w,
     runCalls (cons (CallMint "0xREECE" 10)
              (cons (CallWrap "0xREECE" (Entry Stock "0xREECE"))
              (cons CallUpdateExchangeRate nil))) fresh = Done tt w /\
     st_balances (st w) !! "0xREECE" = Some 0 /\
     custodyBalance w = 0 /\
     ow_totalSupply (ow w) = 10000000 /\
     ow_exchangeRate (ow w) = 0 /\
     ~ 0 < ow_exchangeRate (ow w)).
Proof.
  split.
  - eexists. split; [vm_compute; reflexivity|].
    split; [reflexivity|]. split; [reflexivity|].
    cbn. lia.
  - eexists. split; [vm_compute; reflexivity|].
    split; [reflexivity|]. split; [reflexivity|].
    split; [reflexivity|]. split; [reflexivity|].
    cbn. lia.
Qed.


(** * More of the code *)

(** ** Mint *)

Lemma Mint_token_run (address : string) (shares : Z) (t : StockToken) :
  Mint address shares t =
  Done tt (st_with_totalSupply
             (st_totalSupply t + int64_of_uint64 shares * basePrecision)
             (st_with_balances
                (credit address (int64_of_uint64 shares * basePrecision) (st_balances t))
                t)).
Proof.
  unfold Mint, bind, get, modify, deref, ret, throw, credit.
  destruct (st_balances t !! address) as [b|] eqn:Hb.
  - rewrite Hb. reflexivity.
  - rewrite lookup_insert_eq, insert_insert_eq. reflexivity.
Qed.

(** X1.  [Mint] of a share count below [2^63] always returns.  It adds
    [shares * basePrecision] to the balance of the address (created at
    zero when absent) and to the total supply, and changes no other
    balance, nor the ticker, nor the recorded multiplier. *)
Theorem Mint_conservation (t : StockToken) (address : string) (shares : Z) :
  0 <= shares < 2 ^ 63 ->
  exists t',
    Mint address shares t = Done tt t' /\
    st_balances t' !! address
      = Some (default 0 (st_balances t !! address) + shares * basePrecision) /\
    (forall k, k <> address -> st_balances t' !! k = st_balances t !! k) /\
    st_totalSupply t' = st_totalSupply t + shares * basePrecision /\
    st_rebaseMultiplier t' = st_rebaseMultiplier t /\
    st_ticker t' = st_ticker t.
Proof.
  intros Hs. eexists. split; [apply Mint_token_run|].
  rewrite int64_of_uint64_small by assumption.
  cbn [st_balances st_totalSupply st_rebaseMultiplier st_ticker
       st_with_totalSupply st_with_balances].
  split; [apply credit_lookup|].
  split; [intros k Hk; now apply credit_lookup_ne|].
  repeat split.
Qed.

Lemma Mint_conservation_witness :
  exists t',
    Mint "0xREECE" 10 (NewStockToken "TSLA") = Done tt t' /\
    st_balances t' !! "0xREECE" = Some 10000000 /\
    st_totalSupply t' = 10000000.
Proof.
  destruct (Mint_conservation (NewStockToken "TSLA") "0xREECE" 10)
    as (t' & Hrun & Hbal & _ & Hsup & _); [lia|].
  exists t'. split; [exact Hrun|]. split; [exact Hbal|exact Hsup].
Defined.

(** X2.  A share count from [2^63] on goes through [int64(shares)] and
    comes out negative: [Mint] then takes [(2^64 - shares) * basePrecision]
    away from the balance and from the total supply. *)
Theorem Mint_large_count_burns (t : StockToken) (address : string) (shares : Z) :
  2 ^ 63 <= shares < 2 ^ 64 ->
  exists t',
    Mint address shares t = Done tt t' /\
    st_balances t' !! address
      = Some (default 0 (st_balances t !! address) - (2 ^ 64 - shares) * basePrecision) /\
    st_totalSupply t' = st_totalSupply t - (2 ^ 64 - shares) * basePrecision /\
    st_totalSupply t' < st_totalSupply t.
Proof.
  intros Hs. eexists. split; [apply Mint_token_run|].
  rewrite int64_of_uint64_large by assumption.
  cbn [st_balances st_totalSupply st_with_totalSupply st_with_balances].
  pose proof basePrecision_pos.
  split; [rewrite credit_lookup; f_equal; lia|].
  split; nia.
Qed.

Lemma Mint_large_count_burns_witness :
  exists t',
    Mint "0xREECE" (2 ^ 64 - 1) (NewStockToken "TSLA") = Done tt t' /\
    st_totalSupply t' < st_totalSupply (NewStockToken "TSLA").
Proof.
  destruct (Mint_large_count_burns (NewStockToken "TSLA") "0xREECE" (2 ^ 64 - 1))
    as (t' & Hrun & _ & _ & Hlt); [lia|].
  exists t'. split; [exact Hrun|exact Hlt].
Defined.

(** X3.  Any series of [Mint] calls returns and keeps the total supply
    equal to the sum of all balances, whatever the share counts. *)
Theorem Mint_keeps_supply_sum (l : list (string * Z)) (t : StockToken) :
  st_totalSupply t = sumZ (st_balances t) ->
  exists t',
    mintAll l t = Done tt t' /\
    st_totalSupply t' = sumZ (st_balances t').
Proof.
  revert t. induction l as [|[address shares] l IH]; intros t Ht.
  - exists t. split; [reflexivity|assumption].
  - cbn [mintAll]. unfold bind. rewrite Mint_token_run.
    apply IH.
    cbn [st_balances st_totalSupply st_with_totalSupply st_with_balances].
    rewrite sumZ_credit. lia.
Qed.

Lemma Mint_keeps_supply_sum_witness :
  st_totalSupply (NewStockToken "TSLA") = sumZ (st_balances (NewStockToken "TSLA")) /\
  exists t',
    mintAll (cons ("0xREECE", 10) (cons ("0xBOB", 3) (cons ("0xREECE", 2 ^ 64 - 1) nil)))
      (NewStockToken "TSLA") = Done tt t' /\
    st_totalSupply t' = sumZ (st_balances t').
Proof.
  assert (H : st_totalSupply (NewStockToken "TSLA")
              = sumZ (st_balances (NewStockToken "TSLA")))
    by (cbn; now rewrite sumZ_empty).
  split; [exact H|].
  apply (Mint_keeps_supply_sum _ _ H).
Defined.

(** ** Splits and dividends *)

Lemma sumZ_fmap_mul (m : gmap string Z) (x : Z) :
  sumZ ((fun b => b * x) <$> m) = x * sumZ m.
Proof.
  induction m as [|k b m Hk IH] using map_ind.
  - rewrite fmap_empty, sumZ_empty. lia.
  - rewrite fmap_insert.
    rewrite !sumZ_insert_fresh by (rewrite ?lookup_fmap, ?Hk; reflexivity).
    lia.
Qed.

(** X4.  A split multiplies the sum of all balances by the multiplier and
    leaves [totalSupply] alone: on a ledger whose supply was the sum of
    its balances and not zero, any multiplier other than one ends that
    equality. *)
Theorem Split_scales_sum_not_supply (t : StockToken) (v : Z) :
  exists t',
    Rebase (VUint64 v) t = Done tt t' /\
    sumZ (st_balances t') = int64_of_uint64 v * sumZ (st_balances t) /\
    st_totalSupply t' = st_totalSupply t /\
    (st_totalSupply t = sumZ (st_balances t) ->
     sumZ (st_balances t) <> 0 ->
     int64_of_uint64 v <> 1 ->
     st_totalSupply t' <> sumZ (st_balances t')).
Proof.
  eexists. split; [apply Rebase_split|].
  cbn [st_balances st_totalSupply st_with_rebaseMultiplier st_with_balances].
  rewrite sumZ_fmap_mul.
  split; [reflexivity|]. split; [reflexivity|].
  intros Hs Hnz Hm. rewrite Hs. nia.
Qed.

(** X5.  Two splits in a row multiply every balance by the product of the
    two multipliers, as one split by the product does, but the recorded
    multiplier is the second one, not the product. *)
Theorem Splits_compose (t : StockToken) (m n : Z) :
  1 <= m -> 1 <= n -> m * n < 2 ^ 63 ->
  exists t1 t2 t12,
    Rebase (VUint64 m) t = Done tt t1 /\
    Rebase (VUint64 n) t1 = Done tt t2 /\
    Rebase (VUint64 (m * n)) t = Done tt t12 /\
    st_balances t2 = st_balances t12 /\
    st_rebaseMultiplier t2 = n /\
    st_rebaseMultiplier t12 = m * n.
Proof.
  intros Hm Hn Hmn.
  do 3 eexists.
  split; [apply Rebase_split|]. split; [apply Rebase_split|].
  split; [apply Rebase_split|].
  cbn [st_balances st_rebaseMultiplier st_with_rebaseMultiplier st_with_balances].
  rewrite (int64_of_uint64_small (m * n)), (int64_of_uint64_small n),
    (int64_of_uint64_small m) by nia.
  split; [|split; reflexivity].
  rewrite <- map_fmap_compose. apply map_fmap_ext. intros k b _. cbn. lia.
Qed.

Lemma Splits_compose_witness :
  exists t1 t2,
    Rebase (VUint64 2) (final_state (Mint "0xREECE" 10 (NewStockToken "TSLA")))
      = Done tt t1 /\
    Rebase (VUint64 3) t1 = Done tt t2 /\
    st_rebaseMultiplier t2 = 3.
Proof.
  destruct (Splits_compose (final_state (Mint "0xREECE" 10 (NewStockToken "TSLA"))) 2 3)
    as (t1 & t2 & _ & H1 & H2 & _ & _ & Hm & _); [lia..|].
  exists t1, t2. split; [exact H1|]. split; [exact H2|exact Hm].
Defined.

(** X6.  A dividend whose cash is less than a millionth of the share
    price has a share ratio of zero: [Rebase] returns and the ledger is
    exactly what it was, nobody receives anything. *)
Theorem Dividend_below_resolution_is_dropped (t : StockToken) (d : Dividend) :
  0 <= cashAmount d ->
  basePrecision * cashAmount d < sharePrice d ->
  Rebase (VDividend d) t = Done tt t.
Proof.
  intros Hc Hp. pose proof basePrecision_pos.
  rewrite Rebase_dividend by nia.
  rewrite Z.div_small by nia.
  f_equal.
  replace ((fun b : Z => b + b * 0 / basePrecision) <$> st_balances t)
    with (st_balances t).
  - destruct t; reflexivity.
  - rewrite <- (map_fmap_id (st_balances t)) at 1.
    apply map_fmap_ext. intros k b _. cbn. rewrite Z.mul_0_r, Z.div_0_l; lia.
Qed.

Lemma Dividend_below_resolution_is_dropped_witness :
  let t := final_state (Mint "0xREECE" 10 (NewStockToken "BRK")) in
  let d := {| cashAmount := 1; sharePrice := 2000000 |} in
  Rebase (VDividend d) t = Done tt t.
Proof.
  cbv zeta.
  apply (Dividend_below_resolution_is_dropped
           (final_state (Mint "0xREECE" 10 (NewStockToken "BRK")))
           {| cashAmount := 1; sharePrice := 2000000 |}).
  - cbn. lia.
  - reflexivity.
Defined.

(** X7.  A dividend with cash that is not negative never reorders two
    holders and never lowers a balance that is not negative; a holder of
    nothing still holds nothing. *)
Theorem Dividend_is_monotone (t : StockToken) (d : Dividend)
    (k1 k2 : string) (b1 b2 : Z) :
  0 <= cashAmount d -> 0 < sharePrice d ->
  st_balances t !! k1 = Some b1 ->
  st_balances t !! k2 = Some b2 ->
  b1 <= b2 ->
  exists t' b1' b2',
    Rebase (VDividend d) t = Done tt t' /\
    st_balances t' !! k1 = Some b1' /\
    st_balances t' !! k2 = Some b2' /\
    b1' <= b2' /\
    (0 <= b1 -> b1 <= b1') /\
    (b1 = 0 -> b1' = 0).
Proof.
  intros Hc Hp H1 H2 Hle. pose proof basePrecision_pos as HS.
  set (ratio := basePrecision * cashAmount d / sharePrice d).
  assert (Hr : 0 <= ratio) by (apply Z.div_pos; nia).
  do 3 eexists. split; [now apply Rebase_dividend|].
  cbn [st_balances st_with_balances]. fold ratio.
  rewrite !lookup_fmap, H1, H2. cbn.
  split; [reflexivity|]. split; [reflexivity|].
  split; [|split].
  - assert (b1 * ratio / basePrecision <= b2 * ratio / basePrecision);
      [apply Z.div_le_mono; nia|lia].
  - intros Hb. assert (0 <= b1 * ratio / basePrecision); [apply Z.div_pos; nia|lia].
  - intros ->. rewrite Z.mul_0_l, Z.div_0_l; lia.
Qed.

Lemma Dividend_is_monotone_witness :
  let t := final_state
             (mintAll (cons ("0xREECE", 10) (cons ("0xBOB", 3) nil)) (NewStockToken "TSLA")) in
  exists t' b1' b2',
    Rebase (VDividend {| cashAmount := 150; sharePrice := 10000 |}) t = Done tt t' /\
    st_balances t' !! "0xBOB" = Some b1' /\
    st_balances t' !! "0xREECE" = Some b2' /\
    b1' <= b2'.
Proof.
  cbv zeta.
  destruct (Dividend_is_monotone
              (final_state
                 (mintAll (cons ("0xREECE", 10) (cons ("0xBOB", 3) nil))
                    (NewStockToken "TSLA")))
              {| cashAmount := 150; sharePrice := 10000 |}
              "0xBOB" "0xREECE" 3000000 10000000)
    as (t' & b1' & b2' & Hrun & H1 & H2 & Hle & _);
    [cbn; lia|reflexivity|vm_compute; reflexivity|vm_compute; reflexivity|lia|].
  exists t', b1', b2'. repeat split; assumption.
Defined.

(** ** part_000 against main.go *)

(** X8.  [TSLAToken] of part_000 is [StockToken] without its ticker:
    [NewTSLAToken], [Mint] and [Rebase] of part_000 do to a token what
    [NewStockToken], [Mint] and [Rebase] of main.go do to it, panics
    included. *)
Theorem part_000_agrees_with_main (t : StockToken) :
  (forall ticker, asTSLAToken (NewStockToken ticker) = Part000.NewTSLAToken) /\
  (forall address shares,
     Part000.Mint address shares (asTSLAToken t)
     = mapState asTSLAToken (Mint address shares t)) /\
  (forall action,
     Part000.Rebase action (asTSLAToken t)
     = mapState asTSLAToken (Rebase action t)).
Proof.
  split; [reflexivity|]. split.
  - intros address shares.
    rewrite Mint_token_run.
    unfold Part000.Mint, bind, get, modify, deref, ret, throw, credit.
    cbn [asTSLAToken Part000.balances mapState].
    destruct (st_balances t !! address) as [b|] eqn:Hb.
    + rewrite Hb. reflexivity.
    + rewrite lookup_insert_eq, insert_insert_eq. reflexivity.
  - intros action. destruct action as [v|d| | | | |]; try reflexivity.
    unfold Part000.Rebase, Rebase, bind, big_Div, throw, ret, modify.
    destruct (sharePrice d =? 0); reflexivity.
Qed.

(** ** Bookkeeping of the two ledgers *)

Lemma gap_Wrap (from : string) (amount : Z) (w : World) :
  ow_totalSupply (ow (final_state (Wrap from amount w)))
  - sumZ (ow_balances (ow (final_state (Wrap from amount w))))
  = ow_totalSupply (ow w) - sumZ (ow_balances (ow w)).
Proof.
  rewrite Wrap_run.
  destruct (st_balances (st w) !! from) as [b|]; [|reflexivity].
  destruct (b <? amount); [reflexivity|].
  destruct (ow_exchangeRate (ow w) =? 0); [reflexivity|].
  cbn [final_state wrapped ow ow_totalSupply ow_balances ow_with_totalSupply
       ow_with_balances].
  rewrite sumZ_credit. lia.
Qed.

Lemma gap_Transfer (from to : string) (amount : Z) (w : World) :
  ow_totalSupply (ow (final_state (Transfer from to amount w)))
  - sumZ (ow_balances (ow (final_state (Transfer from to amount w))))
  = ow_totalSupply (ow w) - sumZ (ow_balances (ow w)).
Proof.
  rewrite Transfer_run.
  destruct (ow_balances (ow w) !! from) as [b|] eqn:Hb; [|reflexivity].
  destruct (b <? amount); [reflexivity|].
  cbn [final_state setBalances with_ow ow ow_totalSupply ow_balances ow_with_balances].
  rewrite sumZ_credit, (sumZ_insert_present _ from b) by assumption. lia.
Qed.

Lemma gap_burned (holder : string) (owAmount b : Z) (w : World) :
  ow_balances (ow w) !! holder = Some b ->
  ow_totalSupply (ow (burned holder owAmount b w))
  - sumZ (ow_balances (ow (burned holder owAmount b w)))
  = ow_totalSupply (ow w) - sumZ (ow_balances (ow w)).
Proof.
  intros Hb.
  cbn [burned with_ow ow ow_totalSupply ow_balances ow_with_totalSupply ow_with_balances].
  rewrite (sumZ_insert_present _ holder b) by assumption. lia.
Qed.

Lemma gap_Unwrap (to : string) (owAmount : Z) (w : World) :
  ow_totalSupply (ow (final_state (Part001.Unwrap to owAmount w)))
  - sumZ (ow_balances (ow (final_state (Part001.Unwrap to owAmount w))))
  = ow_totalSupply (ow w) - sumZ (ow_balances (ow w)).
Proof.
  rewrite Part001_Unwrap_run.
  destruct (ow_balances (ow w) !! Part001.contractAddr) as [b|] eqn:Hb; [|reflexivity].
  destruct (b <? owAmount); [reflexivity|]. cbv zeta.
  destruct (st_balances (st w) !! ow_ticker (ow w));
    cbn [final_state]; now apply gap_burned.
Qed.

Lemma gap_Main_Unwrap (from : string) (owAmount : Z) (w : World) :
  ow_totalSupply (ow (final_state (Main.Unwrap from owAmount w)))
  - sumZ (ow_balances (ow (final_state (Main.Unwrap from owAmount w))))
  = ow_totalSupply (ow w) - sumZ (ow_balances (ow w)).
Proof.
  rewrite Main_Unwrap_run.
  destruct (ow_balances (ow w) !! from) as [b|] eqn:Hb; [|reflexivity].
  destruct (b <? owAmount); [reflexivity|]. cbv zeta.
  destruct (st_balances (st w) !! ow_ticker (ow w)) as [c|]; [|now apply gap_burned].
  destruct (<[ow_ticker (ow w) := c - owAmount * ow_exchangeRate (ow w) / basePrecision]>
              (st_balances (st w)) !! from);
    cbn [final_state]; now apply (gap_burned from owAmount b w).
Qed.

Lemma gap_step (o : operation) (w : World) :
  ow_totalSupply (ow (final_state (run o w)))
  - sumZ (ow_balances (ow (final_state (run o w))))
  = ow_totalSupply (ow w) - sumZ (ow_balances (ow w)).
Proof.
  destruct o; cbn [run].
  - now rewrite onStock_ow.
  - now rewrite onStock_ow.
  - destruct (isContract to) eqn:Hto.
    + rewrite Interact_contract_run by assumption.
      pose proof (gap_Wrap from amount w) as Hw.
      destruct (Wrap from amount w) as [[] w1|p w1]; cbn [final_state] in *;
        [|assumption].
      now rewrite gap_Transfer.
    + rewrite Interact_plain_run by assumption.
      destruct (st_balances (st w) !! from) as [b|]; [|reflexivity].
      destruct (b <? amount); reflexivity.
  - apply gap_Wrap.
  - apply gap_Main_Unwrap.
  - apply gap_Unwrap.
  - rewrite Claim_run.
    destruct (negb (isContract from)); [reflexivity|].
    destruct (ow_balances (ow w) !! from); [apply gap_Unwrap|reflexivity].
  - apply gap_Transfer.
  - rewrite UpdateExchangeRate_run.
    destruct (ow_totalSupply (ow w) =? 0); [reflexivity|].
    destruct (st_balances (st w) !! ow_ticker (ow w)); reflexivity.
Qed.

Lemma gap_runAll (os : list operation) (w : World) :
  ow_totalSupply (ow (final_state (runAll os w)))
  - sumZ (ow_balances (ow (final_state (runAll os w))))
  = ow_totalSupply (ow w) - sumZ (ow_balances (ow w)).
Proof.
  revert w. induction os as [|o os IH]; intros w; [reflexivity|].
  cbn [runAll]. unfold bind.
  pose proof (gap_step o w) as Hstep.
  destruct (run o w) as [[] w1|p w1]; cbn [final_state] in Hstep |- *.
  - rewrite IH. exact Hstep.
  - exact Hstep.
Qed.

(** X9.  The wrapper's [totalSupply] is the sum of its balances after any
    series of calls on fresh ledgers in which every amount is a number
    and none is the very balance entry the call debits with it: amounts
    of any sign, amounts that are other ledger entries or the supply
    itself, absent addresses, and calls that panic (the state a panic
    leaves behind counts, and the series may go on after it).  Every
    method then changes the supply and the sum by the same amount. *)
Theorem wrapper_supply_is_sum_of_balances (w : World) :
  reachableUnaliased w ->
  ow_totalSupply (ow w) = sumZ (ow_balances (ow w)).
Proof.
  induction 1 as [ticker ticker'|w c _ IH Hu].
  - cbn. now rewrite sumZ_empty.
  - pose proof (gap_runAll (operationsOf w c) w) as Hgap.
    rewrite <- (runCall_unaliased w c Hu) in Hgap. lia.
Qed.

Lemma wrapper_supply_is_sum_of_balances_witness :
  let w :=
    final_state (runCall (CallTransfer "0xCONTRACT" "0xBOB" (Own (-7)))
      (final_state (runCall (CallUnwrap "0xBOB" Supply)
        (final_state (runCall (CallTransfer "0xCONTRACT" "0xBOB" (Entry Wrapper "0xREECE"))
          (final_state (runCall (CallInteract "0xREECE" "0xCONTRACT" (Own 5000000))
            (final_state (runCall (CallMint "0xREECE" 10)
               (freshWorld "TSLA" "TSLA")))))))))) in
  reachableUnaliased w /\ ow_totalSupply (ow w) = sumZ (ow_balances (ow w)).
Proof.
  cbv zeta.
  match goal with |- reachableUnaliased ?w /\ _ => assert (Hreach : reachableUnaliased w) end.
  { apply reachableUnaliased_step;
      [|split; [eexists; reflexivity|discriminate]].
    apply reachableUnaliased_step;
      [|split; [eexists; reflexivity|discriminate]].
    apply reachableUnaliased_step;
      [|split; [eexists; vm_compute; reflexivity|discriminate]].
    apply reachableUnaliased_step;
      [|split; [eexists; reflexivity|discriminate]].
    apply reachableUnaliased_step; [|exact I].
    apply reachableUnaliased_fresh. }
  split; [exact Hreach|].
  exact (wrapper_supply_is_sum_of_balances _ Hreach).
Defined.

Lemma conserved_run (o : operation) (w w' : World) :
  match o with OpMint _ _ | OpRebase _ => False | _ => True end ->
  run o w = Done tt w' ->
  sumZ (st_balances (st w')) = sumZ (st_balances (st w)) /\
  st_totalSupply (st w') = st_totalSupply (st w).
Proof.
  assert (HWrap : forall from amount w1,
            Wrap from amount w = Done tt w1 ->
            sumZ (st_balances (st w1)) = sumZ (st_balances (st w)) /\
            st_totalSupply (st w1) = st_totalSupply (st w)).
  { intros from amount w1. rewrite Wrap_run.
    destruct (st_balances (st w) !! from) as [b|] eqn:Hb; [|discriminate].
    destruct (b <? amount); [discriminate|].
    destruct (ow_exchangeRate (ow w) =? 0); [discriminate|].
    intros [= <-]. cbn [wrapped st st_balances st_totalSupply st_with_balances].
    rewrite sumZ_credit, (sumZ_insert_present _ from b) by assumption.
    split; [lia|reflexivity]. }
  assert (HUnwrap : forall to amount w1,
            Part001.Unwrap to amount w = Done tt w1 ->
            sumZ (st_balances (st w1)) = sumZ (st_balances (st w)) /\
            st_totalSupply (st w1) = st_totalSupply (st w)).
  { intros to amount w1. rewrite Part001_Unwrap_run.
    destruct (ow_balances (ow w) !! Part001.contractAddr) as [b|]; [|discriminate].
    destruct (b <? amount); [discriminate|]. cbv zeta.
    destruct (st_balances (st w) !! ow_ticker (ow w)) as [c|] eqn:Hc; [|discriminate].
    intros [= <-].
    cbn [setBalances burned with_st with_ow st st_balances st_totalSupply
         st_with_balances].
    rewrite sumZ_credit, (sumZ_insert_present _ _ c) by assumption.
    split; [lia|reflexivity]. }
  destruct o; cbn [run]; intros Ho; try contradiction.
  - destruct (isContract to) eqn:Hto.
    + rewrite Interact_contract_run by assumption.
      destruct (Wrap from amount w) as [[] w1|p w1] eqn:Hw; [|discriminate].
      destruct (HWrap from amount w1 Hw) as [Hs Ht].
      rewrite Transfer_run.
      destruct (ow_balances (ow w1) !! from) as [b|]; [|discriminate].
      destruct (b <? _); [discriminate|].
      intros [= <-]. cbn [setBalances with_ow st]. split; assumption.
    + rewrite Interact_plain_run by assumption.
      destruct (st_balances (st w) !! from) as [b|] eqn:Hb; [|discriminate].
      destruct (b <? amount); [discriminate|].
      intros [= <-].
      cbn [setBalances with_st st st_balances st_totalSupply st_with_balances].
      rewrite sumZ_credit, (sumZ_insert_present _ from b) by assumption.
      split; [lia|reflexivity].
  - apply HWrap.
  - rewrite Main_Unwrap_run.
    destruct (ow_balances (ow w) !! from) as [b|]; [|discriminate].
    destruct (b <? owAmount); [discriminate|]. cbv zeta.
    destruct (st_balances (st w) !! ow_ticker (ow w)) as [c|] eqn:Hc; [|discriminate].
    destruct (<[ow_ticker (ow w) := c - owAmount * ow_exchangeRate (ow w) / basePrecision]>
                (st_balances (st w)) !! from) as [d|] eqn:Hd; [|discriminate].
    intros [= <-].
    cbn [setBalances burned with_st with_ow st st_balances st_totalSupply
         st_with_balances].
    rewrite (sumZ_insert_present _ from d) by assumption.
    rewrite (sumZ_insert_present _ _ c) by assumption.
    split; [lia|reflexivity].
  - apply HUnwrap.
  - rewrite Claim_run.
    destruct (negb (isContract from)); [discriminate|].
    destruct (ow_balances (ow w) !! from); [apply HUnwrap|discriminate].
  - rewrite Transfer_run.
    destruct (ow_balances (ow w) !! from) as [b|]; [|discriminate].
    destruct (b <? amount); [discriminate|].
    intros [= <-]. split; reflexivity.
  - rewrite UpdateExchangeRate_run.
    destruct (ow_totalSupply (ow w) =? 0); [intros [= <-]; split; reflexivity|].
    destruct (st_balances (st w) !! ow_ticker (ow w)); [|discriminate].
    intros [= <-]. split; reflexivity.
Qed.

(** X10.  No method other than [Mint] and [Rebase] creates or destroys
    underlying tokens: whenever [Interact], [Wrap], [Unwrap] (of either
    file), [Claim], [Transfer] or [UpdateExchangeRate] returns from a
    call whose amount is a number and not the very balance entry the call
    debits with it, the sum of the stock ledger's balances and its
    [totalSupply] are what they were. *)
Theorem underlying_is_conserved (c : call) (w w' : World) :
  unaliased w c ->
  match c with CallMint _ _ | CallRebase _ => False | _ => True end ->
  runCall c w = Done tt w' ->
  sumZ (st_balances (st w')) = sumZ (st_balances (st w)) /\
  st_totalSupply (st w') = st_totalSupply (st w).
Proof.
  intros Hu Hc. rewrite (runCall_unaliased w c Hu).
  assert (Hone : forall o,
            match o with OpMint _ _ | OpRebase _ => False | _ => True end ->
            runAll (cons o nil) w = Done tt w' ->
            sumZ (st_balances (st w')) = sumZ (st_balances (st w)) /\
            st_totalSupply (st w') = st_totalSupply (st w)).
  { intros o Ho. cbn [runAll]. rewrite bind_ret_tt. now apply conserved_run. }
  assert (Hint : forall from to p,
            runAll (operationsOf w (CallInteract from to p)) w = Done tt w' ->
            sumZ (st_balances (st w')) = sumZ (st_balances (st w)) /\
            st_totalSupply (st w') = st_totalSupply (st w)).
  { intros from to p. cbn [operationsOf byValue]. cbv zeta.
    destruct (isContract to); [|now apply Hone].
    cbn [runAll run]. unfold bind at 1.
    destruct (Wrap from (valueOf p w) w) as [[] w1|e w1] eqn:HW; [|discriminate].
    cbn [final_state]. rewrite bind_ret_tt. intros HT.
    destruct (conserved_run (OpWrap from (valueOf p w)) w w1 I HW) as [H1 H2].
    destruct (conserved_run (OpTransfer from to _) w1 w' I HT) as [H3 H4].
    split; congruence. }
  destruct c; try contradiction; try (apply Hone; exact I).
  - apply Hint.
  - apply (Hint from to amount).
Qed.

Lemma underlying_is_conserved_witness :
  let w := final_state (onStock (Mint "0xREECE" 10) fresh) in
  exists w',
    runCall (CallInteract "0xREECE" "0xCONTRACT" (Own 5000000)) w = Done tt w' /\
    sumZ (st_balances (st w')) = sumZ (st_balances (st w)).
Proof.
  cbv zeta.
  set (w := final_state (onStock (Mint "0xREECE" 10) fresh)).
  assert (Hu : unaliased w (CallInteract "0xREECE" "0xCONTRACT" (Own 5000000)))
    by (split; [eexists; reflexivity|discriminate]).
  destruct (runCall (CallInteract "0xREECE" "0xCONTRACT" (Own 5000000)) w)
    as [[] w'|p w'] eqn:Hrun; [|vm_compute in Hrun; discriminate Hrun].
  exists w'. split; [reflexivity|].
  apply (underlying_is_conserved
           (CallInteract "0xREECE" "0xCONTRACT" (Own 5000000)) w w' Hu I Hrun).
Defined.

(** ** Amounts the methods do not expect *)

(** X11.  Nothing rejects a negative amount.  With a sender balance that
    is not negative the balance check passes, and the transfer runs
    backwards: the sender gains what the recipient loses, and a
    recipient without entry is created with a negative balance.  This
    holds for the plain [Interact] on the stock ledger and for [Transfer]
    on the wrapper. *)
Theorem negative_amount_reverses_transfer
    (w : World) (from to : string) (amount b : Z) :
  amount < 0 -> 0 <= b -> from <> to ->
  (isContract to = false ->
   st_balances (st w) !! from = Some b ->
   exists w',
     Interact from to amount w = Done tt w' /\
     st_balances (st w') !! from = Some (b - amount) /\
     st_balances (st w') !! to = Some (default 0 (st_balances (st w) !! to) + amount) /\
     b < b - amount /\
     default 0 (st_balances (st w) !! to) + amount < default 0 (st_balances (st w) !! to)) /\
  (ow_balances (ow w) !! from = Some b ->
   exists w',
     Transfer from to amount w = Done tt w' /\
     ow_balances (ow w') !! from = Some (b - amount) /\
     ow_balances (ow w') !! to = Some (default 0 (ow_balances (ow w) !! to) + amount) /\
     b < b - amount /\
     default 0 (ow_balances (ow w) !! to) + amount < default 0 (ow_balances (ow w) !! to)).
Proof.
  intros Ha Hb Hne. split.
  - intros Hto Hfrom. eexists. split.
    { rewrite Interact_plain_run, Hfrom by assumption.
      destruct (Z.ltb_spec b amount); [lia|reflexivity]. }
    cbn [setBalances with_st st st_balances st_with_balances].
    split; [now rewrite credit_lookup_ne, lookup_insert_eq by congruence|].
    split; [now rewrite credit_lookup, lookup_insert_ne by assumption|].
    lia.
  - intros Hfrom. eexists. split.
    { rewrite Transfer_run, Hfrom.
      destruct (Z.ltb_spec b amount); [lia|reflexivity]. }
    cbn [setBalances with_ow ow ow_balances ow_with_balances].
    split; [now rewrite credit_lookup_ne, lookup_insert_eq by congruence|].
    split; [now rewrite credit_lookup, lookup_insert_ne by assumption|].
    lia.
Qed.

Lemma negative_amount_reverses_transfer_witness :
  let w := final_state (onStock (Mint "0xREECE" 10) fresh) in
  exists w',
    Interact "0xREECE" "0xBOB" (-7000000) w = Done tt w' /\
    st_balances (st w') !! "0xREECE" = Some (10000000 - -7000000) /\
    st_balances (st w') !! "0xBOB" = Some (0 + -7000000).
Proof.
  cbv zeta.
  destruct (negative_amount_reverses_transfer
              (final_state (onStock (Mint "0xREECE" 10) fresh))
              "0xREECE" "0xBOB" (-7000000) 10000000) as [Hstock _];
    [lia|lia|discriminate|].
  destruct Hstock as (w' & Hrun & Hfrom & Hto & _);
    [reflexivity|vm_compute; reflexivity|].
  exists w'. split; [exact Hrun|]. split; [exact Hfrom|exact Hto].
Defined.

(** X12.  [Wrap] by a sender other than the custody address, of a
    non-negative amount below [rate / basePrecision] that is not the
    sender's own balance entry, mints nothing and still takes the amount:
    the sender's stock balance goes down, the custody balance goes up by
    the amount, and the sender's wrapper balance and the wrapper's total
    supply stay where they were. *)
Theorem Wrap_of_dust_mints_nothing
    (w : World) (from : string) (amount : pointer) (a b : Z) :
  target amount w = Some a ->
  amount <> Entry Stock from ->
  0 <= a ->
  a * basePrecision < ow_exchangeRate (ow w) ->
  st_balances (st w) !! from = Some b ->
  a <= b ->
  from <> ow_ticker (ow w) ->
  exists w',
    Ptr.Wrap from amount w = Done tt w' /\
    st_balances (st w') !! from = Some (b - a) /\
    custodyBalance w' = custodyBalance w + a /\
    ow_balances (ow w') !! from = Some (default 0 (ow_balances (ow w) !! from)) /\
    ow_totalSupply (ow w') = ow_totalSupply (ow w).
Proof.
  intros Hp Halias Ha Hdust Hfrom Hle Hne. pose proof basePrecision_pos as HS.
  eexists. split.
  { rewrite (Wrap_unaliased from amount a w Hp Halias), Wrap_run, Hfrom.
    destruct (Z.ltb_spec b a); [lia|].
    destruct (Z.eqb_spec (ow_exchangeRate (ow w)) 0); [nia|].
    rewrite euclid_div_pos by nia. rewrite Z.div_small by nia. reflexivity. }
  unfold custodyBalance.
  cbn [wrapped st ow st_balances st_with_balances ow_balances ow_totalSupply ow_ticker
       ow_with_totalSupply ow_with_balances].
  split; [now rewrite credit_lookup_ne, lookup_insert_eq by congruence|].
  split; [rewrite credit_lookup, lookup_insert_ne by assumption; reflexivity|].
  split; [rewrite credit_lookup; f_equal; lia|lia].
Qed.

Lemma Wrap_of_dust_mints_nothing_witness :
  let w := final_state
             (runAll (cons (OpMint "0xREECE" 10)
                     (cons (OpInteract "0xREECE" "0xCONTRACT" 5000000)
                     (cons (OpRebase (VUint64 3))
                     (cons OpUpdateExchangeRate nil)))) fresh) in
  exists w',
    Ptr.Wrap "0xREECE" (Own 2) w = Done tt w' /\
    st_balances (st w') !! "0xREECE" = Some (15000000 - 2) /\
    ow_totalSupply (ow w') = ow_totalSupply (ow w).
Proof.
  cbv zeta.
  destruct (Wrap_of_dust_mints_nothing
              (final_state
                 (runAll (cons (OpMint "0xREECE" 10)
                         (cons (OpInteract "0xREECE" "0xCONTRACT" 5000000)
                         (cons (OpRebase (VUint64 3))
                         (cons OpUpdateExchangeRate nil)))) fresh))
              "0xREECE" (Own 2) 2 15000000)
    as (w' & Hrun & Hfrom & _ & _ & Hsup);
    [reflexivity|discriminate|lia|reflexivity|vm_compute; reflexivity|lia
    |vm_compute; discriminate|].
  exists w'. split; [exact Hrun|]. split; [exact Hfrom|exact Hsup].
Defined.

(** ** The wrapper in reachable states *)

(** X13.  In every state reached from fresh ledgers by calls in the
    domain of [callInDomain] (numbers that are not negative, multipliers
    from one, the custody address never the sender of a wrap or a
    transfer, no amount the very entry the call debits with it), no
    wrapper balance is negative, the custody balance covers the whole
    wrapped supply at the recorded rate, it is at least as large as that
    supply, and it can pay out any single holder's full balance at the
    recorded rate. *)
Theorem wrapper_is_backed (w : World) :
  reachableByCalls w ->
  (forall k v, ow_balances (ow w) !! k = Some v -> 0 <= v) /\
  0 <= ow_totalSupply (ow w) /\
  ow_exchangeRate (ow w) * ow_totalSupply (ow w) <= custodyBalance w * basePrecision /\
  ow_totalSupply (ow w) <= custodyBalance w /\
  (forall k v, ow_balances (ow w) !! k = Some v ->
     v * ow_exchangeRate (ow w) / basePrecision <= custodyBalance w).
Proof.
  intros Hreach. pose proof (reachableByCalls_backed w Hreach) as Hb.
  pose proof (backed_supply_nonneg w Hb) as Hs0.
  destruct Hb as [Hr Hp Hs Hc]. pose proof basePrecision_pos as HS.
  split; [exact Hp|]. split; [exact Hs0|]. split; [exact Hc|].
  split; [nia|].
  intros k v Hk.
  assert (0 <= v) by eauto.
  assert (v <= ow_totalSupply (ow w)) by (rewrite Hs; now apply (sumZ_lookup_le _ k)).
  apply Z.div_le_upper_bound; nia.
Qed.

Lemma wrapper_is_backed_witness :
  let w :=
    final_state (runCall CallUpdateExchangeRate
      (final_state (runCall (CallRebase (VUint64 2))
        (final_state (runCall (CallWrap "0xREECE" (Entry Wrapper "0xCONTRACT"))
          (final_state (runCall (CallInteract "0xREECE" "0xCONTRACT" (Own 5000000))
            (final_state (runCall (CallMint "0xREECE" 10)
               (freshWorld "TSLA" "TSLA")))))))))) in
  reachableByCalls w /\ ow_totalSupply (ow w) <= custodyBalance w.
Proof.
  cbv zeta. split; [exact reachableByCalls_after_split|].
  destruct (wrapper_is_backed _ reachableByCalls_after_split) as (_ & _ & _ & H & _).
  exact H.
Defined.

(** X14.  In such a state no call in that domain lowers the exchange
    rate: [UpdateExchangeRate] can only raise it, the other calls leave
    it alone. *)
Theorem exchangeRate_never_decreases (w : World) (c : call) :
  reachableByCalls w ->
  callInDomain w c ->
  ow_exchangeRate (ow w) <= ow_exchangeRate (ow (final_state (runCall c w))).
Proof.
  intros Hreach Hdom.
  assert (Hcase : c = CallUpdateExchangeRate \/ c <> CallUpdateExchangeRate)
    by (destruct c; (left; reflexivity) || (right; discriminate)).
  destruct Hcase as [->|Hc].
  - pose proof (reachableByCalls_backed w Hreach) as Hb.
    pose proof (backed_supply_nonneg w Hb) as Hs0.
    destruct Hb as [Hr Hp Hs Hcu]. pose proof basePrecision_pos as HS.
    cbn [runCall]. rewrite UpdateExchangeRate_run.
    destruct (Z.eqb_spec (ow_totalSupply (ow w)) 0) as [|Hnz]; [reflexivity|].
    unfold custodyBalance in Hcu.
    destruct (st_balances (st w) !! ow_ticker (ow w)) as [cu|]; [|reflexivity].
    cbn [final_state with_ow ow ow_exchangeRate ow_with_exchangeRate].
    cbn in Hcu. rewrite euclid_div_pos by lia.
    apply Z.div_le_lower_bound; lia.
  - rewrite rate_runCall by assumption. reflexivity.
Qed.

Lemma exchangeRate_never_decreases_witness :
  let w :=
    final_state (runCall (CallRebase (VUint64 2))
      (final_state (runCall (CallInteract "0xREECE" "0xCONTRACT" (Own 5000000))
         (final_state (runCall (CallMint "0xREECE" 10) (freshWorld "TSLA" "TSLA")))))) in
  ow_exchangeRate (ow w)
  <= ow_exchangeRate (ow (final_state (runCall CallUpdateExchangeRate w))).
Proof.
  cbv zeta. apply exchangeRate_never_decreases; [|split; exact I].
  apply reachableByCalls_step; [|split; [exact I|cbn; lia]].
  apply reachableByCalls_step;
    [|split; [split; [eexists; reflexivity|discriminate]
             |split; [vm_compute; discriminate|vm_compute; discriminate]]].
  apply reachableByCalls_step; [|split; [exact I|cbn; lia]].
  apply reachableByCalls_fresh.
Defined.

(** X15.  [UpdateExchangeRate] twice is [UpdateExchangeRate] once, in
    every state: the second call finds the rate it would set. *)
Theorem UpdateExchangeRate_is_idempotent (w : World) :
  (UpdateExchangeRate ;;; UpdateExchangeRate) w = UpdateExchangeRate w.
Proof.
  unfold bind at 1. rewrite UpdateExchangeRate_run.
  destruct (ow_totalSupply (ow w) =? 0) eqn:Hs.
  - rewrite UpdateExchangeRate_run, Hs. reflexivity.
  - destruct (st_balances (st w) !! ow_ticker (ow w)) as [c|] eqn:Hc; [|reflexivity].
    rewrite UpdateExchangeRate_run.
    cbn [with_ow ow st ow_totalSupply ow_ticker ow_with_exchangeRate].
    rewrite Hs, Hc. reflexivity.
Qed.

(** ** Through the contract and back (part_001) *)

(** X16.  With a positive rate, a sender other than the contract and the
    custody address, no negative wrapper balance of the sender or the
    contract, and an amount that is a number and none of the objects
    [Wrap] writes: [Interact] towards ["0xCONTRACT"] returns and leaves
    the minted amount with the contract; a [Claim] of exactly that amount
    back to the sender, passed as anything but the contract's own wrapper
    balance entry, returns too, puts the contract's wrapper balance and
    the wrapper's total supply back where they were, and pays the sender
    [floor(minted * rate / scale)], never more than was put in; what is
    missing stays in custody. *)
Theorem Interact_then_Claim_round_trip
    (w : World) (from : string) (amount : pointer) (a b : Z) :
  target amount w = Some a ->
  keptByWrap from (ow_ticker (ow w)) amount ->
  0 < ow_exchangeRate (ow w) ->
  st_balances (st w) !! from = Some b ->
  a <= b ->
  from <> Part001.contractAddr ->
  from <> ow_ticker (ow w) ->
  0 <= default 0 (ow_balances (ow w) !! from) ->
  0 <= default 0 (ow_balances (ow w) !! Part001.contractAddr) ->
  let rate := ow_exchangeRate (ow w) in
  let minted := a * basePrecision / rate in
  let returned := minted * rate / basePrecision in
  exists w1 w2,
    Ptr.Part001.Interact from Part001.contractAddr amount w = Done tt w1 /\
    ow_balances (ow w1) !! Part001.contractAddr
      = Some (default 0 (ow_balances (ow w) !! Part001.contractAddr) + minted) /\
    (forall q,
       target q w1 = Some minted -> q <> Entry Wrapper Part001.contractAddr ->
       Ptr.Part001.Claim Part001.contractAddr from q w1 = Done tt w2) /\
    ow_balances (ow w2) !! Part001.contractAddr
      = Some (default 0 (ow_balances (ow w) !! Part001.contractAddr)) /\
    ow_totalSupply (ow w2) = ow_totalSupply (ow w) /\
    st_balances (st w2) !! from = Some (b - a + returned) /\
    custodyBalance w2 = custodyBalance w + a - returned /\
    returned <= a.
Proof.
  intros Hp Hkept Hrate Hb Hab HneC Hnet HoldF HoldC rate minted returned.
  pose proof basePrecision_pos as HS.
  set (oldF := default 0 (ow_balances (ow w) !! from)) in *.
  set (oldC := default 0 (ow_balances (ow w) !! Part001.contractAddr)) in *.
  set (w0 := wrapped from a minted b w).
  set (owb1 := credit Part001.contractAddr minted
                 (<[from := oldF + minted - minted]> (ow_balances (ow w0)))).
  set (w1 := setBalances Wrapper owb1 w0).
  assert (Hwrap : Wrap from a w = Done tt w0).
  { rewrite Wrap_run, Hb.
    destruct (Z.ltb_spec b a); [lia|].
    destruct (Z.eqb_spec (ow_exchangeRate (ow w)) 0); [lia|].
    rewrite euclid_div_pos by assumption. reflexivity. }
  assert (Hinteract : Ptr.Part001.Interact from Part001.contractAddr amount w = Done tt w1).
  { rewrite (Part001_Interact_dispatch _ _ amount a w Hp).
    rewrite (dispatch_contract_kept from Part001.contractAddr amount a w
               (eq_refl : isContract Part001.contractAddr = true) Hp Hkept).
    rewrite Interact_contract_run, Hwrap by reflexivity.
    rewrite euclid_div_pos by assumption. fold rate. fold minted.
    rewrite Transfer_run. unfold w0 at 1. rewrite wrapped_sender_balance.
    fold oldF.
    destruct (Z.ltb_spec (oldF + minted) minted); [lia|reflexivity]. }
  assert (HC1 : ow_balances (ow w1) !! Part001.contractAddr = Some (oldC + minted)).
  { unfold w1, owb1, w0.
    cbn [setBalances with_ow ow ow_balances ow_with_balances wrapped ow_with_totalSupply].
    rewrite credit_lookup, lookup_insert_ne, credit_lookup_ne by assumption.
    reflexivity. }
  assert (Hcust1 : st_balances (st w1) !! ow_ticker (ow w1)
                   = Some (custodyBalance w + a)).
  { unfold w1, w0, custodyBalance.
    cbn [setBalances with_ow ow st st_balances st_with_balances wrapped ow_ticker
         ow_with_totalSupply ow_with_balances].
    now rewrite credit_lookup, lookup_insert_ne by assumption. }
  assert (Hfrom1 : st_balances (st w1) !! from = Some (b - a)).
  { unfold w1, w0.
    cbn [setBalances with_ow ow st st_balances st_with_balances wrapped].
    now rewrite credit_lookup_ne, lookup_insert_eq by congruence. }
  set (w2 := setBalances Stock
               (credit from returned
                  (<[ow_ticker (ow w1) := custodyBalance w + a - returned]>
                     (st_balances (st w1))))
               (burned Part001.contractAddr minted (oldC + minted) w1)).
  assert (Hclaim : forall q,
            target q w1 = Some minted -> q <> Entry Wrapper Part001.contractAddr ->
            Ptr.Part001.Claim Part001.contractAddr from q w1 = Done tt w2).
  { intros q Hq Hqne. rewrite (Claim_unaliased _ _ q minted w1 Hq Hqne).
    rewrite Claim_run. change (isContract Part001.contractAddr) with true.
    cbn [negb]. rewrite HC1.
    rewrite Z.min_r by lia.
    rewrite Part001_Unwrap_run, HC1.
    destruct (Z.ltb_spec (oldC + minted) minted); [lia|]. cbv zeta.
    rewrite Hcust1. reflexivity. }
  exists w1, w2.
  split; [exact Hinteract|]. split; [exact HC1|]. split; [exact Hclaim|].
  split.
  { unfold w2.
    cbn [setBalances burned with_st with_ow ow ow_balances ow_with_balances
         ow_with_totalSupply].
    rewrite lookup_insert_eq. f_equal. lia. }
  split.
  { unfold w2, w1, w0.
    cbn [setBalances burned with_st with_ow ow ow_totalSupply ow_with_balances
         ow_with_totalSupply wrapped].
    lia. }
  split.
  { unfold w2.
    cbn [setBalances burned with_st with_ow st st_balances st_with_balances].
    rewrite credit_lookup, lookup_insert_ne, Hfrom1.
    - reflexivity.
    - unfold w1, w0. cbn. congruence. }
  split.
  { unfold custodyBalance at 1. unfold w2.
    cbn [setBalances burned with_st with_ow st ow st_balances st_with_balances
         ow_ticker ow_with_balances ow_with_totalSupply].
    rewrite credit_lookup_ne, lookup_insert_eq.
    - reflexivity.
    - unfold w1, w0. cbn. congruence. }
  assert (Hm : minted * rate <= a * basePrecision).
  { unfold minted. rewrite Z.mul_comm. apply Z.mul_div_le. lia. }
  unfold returned. apply Z.div_le_upper_bound; lia.
Qed.

Lemma Interact_then_Claim_round_trip_witness :
  let w :=
    final_state (runAll (cons (OpMint "0xREECE" 10)
                        (cons (OpInteract "0xREECE" "0xCONTRACT" 5000000)
                        (cons (OpRebase (VUint64 3))
                        (cons OpUpdateExchangeRate nil)))) fresh) in
  exists w1 w2 minted,
    Ptr.Part001.Interact "0xREECE" "0xCONTRACT" (Own 1000000) w = Done tt w1 /\
    Ptr.Part001.Claim "0xCONTRACT" "0xREECE" (Own minted) w1 = Done tt w2 /\
    ow_totalSupply (ow w2) = ow_totalSupply (ow w).
Proof.
  cbv zeta.
  destruct (Interact_then_Claim_round_trip
              (final_state (runAll (cons (OpMint "0xREECE" 10)
                                   (cons (OpInteract "0xREECE" "0xCONTRACT" 5000000)
                                   (cons (OpRebase (VUint64 3))
                                   (cons OpUpdateExchangeRate nil)))) fresh))
              "0xREECE" (Own 1000000) 1000000 15000000)
    as (w1 & w2 & H1 & _ & H2 & _ & H3 & _);
    [reflexivity|repeat split; discriminate|reflexivity|vm_compute; reflexivity|lia
    |discriminate|vm_compute; discriminate
    |vm_compute; discriminate|vm_compute; discriminate|].
  exists w1, w2. eexists. split; [exact H1|].
  split; [apply H2; [reflexivity|discriminate]|exact H3].
Defined.

(** ** formatTokens *)

Lemma string_app_cons (c : ascii) (a b : string) :
  String c a +:+ b = String c (a +:+ b).
Proof. reflexivity. Qed.

Lemma string_app_nil (b : string) : "" +:+ b = b.
Proof. reflexivity. Qed.

Lemma string_length_app (a b : string) :
  String.length (a +:+ b) = (String.length a + String.length b)%nat.
Proof.
  induction a as [|c a IH].
  - now rewrite string_app_nil.
  - rewrite string_app_cons. cbn [String.length]. now rewrite IH.
Qed.

Lemma string_app_inj_suffix (a a' b b' : string) :
  a +:+ b = a' +:+ b' -> String.length b = String.length b' -> a = a' /\ b = b'.
Proof.
  revert a'. induction a as [|c a IH]; intros [|c' a'] Heq Hlen;
    rewrite ?string_app_nil, ?string_app_cons in Heq.
  - now split.
  - exfalso. rewrite Heq in Hlen. cbn [String.length] in Hlen.
    rewrite string_length_app in Hlen. lia.
  - exfalso. rewrite <- Heq in Hlen. cbn [String.length] in Hlen.
    rewrite string_length_app in Hlen. lia.
  - injection Heq as -> Heq. destruct (IH a' Heq Hlen) as [-> ->]. now split.
Qed.

Lemma zeros_length (n : nat) : String.length (zeros n) = n.
Proof. induction n as [|n IH]; cbn; [reflexivity|now rewrite IH]. Qed.

Lemma decimalValue_zeros (n : nat) (s : string) :
  decimalValue 0 (zeros n +:+ s) = decimalValue 0 s.
Proof.
  induction n as [|n IH]; cbn [zeros].
  - now rewrite string_app_nil.
  - rewrite string_app_cons. cbn [decimalValue]. exact IH.
Qed.

Lemma digitValue_pretty_N_char (d : N) : (d < 10)%N -> digitValue (pretty_N_char d) = d.
Proof.
  intros Hd.
  assert (d = 0 \/ d = 1 \/ d = 2 \/ d = 3 \/ d = 4 \/ d = 5 \/ d = 6 \/ d = 7
          \/ d = 8 \/ d = 9)%N as Hcases by lia.
  repeat (destruct Hcases as [->|Hcases]; [reflexivity|]). now subst.
Qed.

Lemma decimalValue_pretty_N_go (x : N) :
  forall s acc, exists j : N,
    decimalValue acc (pretty_N_go x s) = decimalValue (acc * 10 ^ j + x)%N s.
Proof.
  induction (N.lt_wf_0 x) as [x _ IH]. intros s acc.
  destruct (N.eq_dec x 0%N) as [->|Hx].
  - exists 0%N. rewrite pretty_N_go_0. f_equal. lia.
  - rewrite pretty_N_go_step by lia.
    destruct (IH (x `div` 10)%N) with (s := String (pretty_N_char (x `mod` 10)%N) s)
                                     (acc := acc) as [j Hj].
    { apply N.div_lt; lia. }
    exists (j + 1)%N. rewrite Hj. cbn [decimalValue].
    rewrite digitValue_pretty_N_char by (apply N.mod_lt; lia).
    f_equal. rewrite N.pow_add_r, N.pow_1_r.
    pose proof (N.div_mod x 10%N). lia.
Qed.

Lemma decimalValue_pretty_N (x : N) : decimalValue 0 (pretty x) = x.
Proof.
  unfold pretty, pretty_N. case_decide as Hx.
  - now subst.
  - destruct (decimalValue_pretty_N_go x "" 0%N) as [j Hj]. rewrite Hj.
    cbn [decimalValue]. lia.
Qed.

Lemma pretty_N_go_length (k : nat) :
  forall (x : N) (s : string),
    (x < 10 ^ N.of_nat k)%N ->
    (String.length (pretty_N_go x s) <= String.length s + k)%nat.
Proof.
  induction k as [|k IH]; intros x s Hx.
  - assert (x = 0%N) as -> by (cbn in Hx; lia). rewrite pretty_N_go_0. lia.
  - destruct (N.eq_dec x 0%N) as [->|Hnz].
    + rewrite pretty_N_go_0. lia.
    + rewrite pretty_N_go_step by lia.
      etransitivity; [apply IH|cbn [String.length]; lia].
      rewrite Nat2N.inj_succ, N.pow_succ_r' in Hx.
      apply N.Div0.div_lt_upper_bound. lia.
Qed.

Lemma pretty_N_length (k : nat) (x : N) :
  (x < 10 ^ N.of_nat (S k))%N -> (String.length (pretty x) <= S k)%nat.
Proof.
  intros Hx. unfold pretty, pretty_N. case_decide.
  - cbn [String.length]. lia.
  - apply (pretty_N_go_length (S k) x ""). assumption.
Qed.

Lemma zeroPadded_value (width : nat) (z : Z) :
  0 <= z -> decimalValue 0 (zeroPadded width z) = Z.to_N z.
Proof.
  intros Hz. unfold zeroPadded.
  destruct (Z.ltb_spec z 0); [lia|].
  rewrite string_app_nil, decimalValue_zeros, decimalValue_pretty_N. lia.
Qed.

Lemma zeroPadded_6_length (z : Z) :
  0 <= z < basePrecision -> String.length (zeroPadded 6 z) = 6%nat.
Proof.
  intros Hz. unfold zeroPadded.
  destruct (Z.ltb_spec z 0); [lia|].
  rewrite string_app_nil, string_length_app, zeros_length. cbn [String.length].
  assert (String.length (pretty (Z.abs_N z)) <= 6)%nat; [|lia].
  apply (pretty_N_length 5). unfold basePrecision in Hz.
  change (10 ^ N.of_nat 6)%N with 1000000%N. lia.
Qed.

Lemma formatTokens_parts (raw : Z) :
  ZEuclid.div raw basePrecision = raw / basePrecision /\
  ZEuclid.modulo raw basePrecision = raw mod basePrecision /\
  0 <= raw mod basePrecision < basePrecision.
Proof.
  pose proof basePrecision_pos as HS.
  split; [now apply euclid_div_pos|].
  split; [unfold ZEuclid.modulo; now rewrite Z.abs_eq by lia|].
  apply Z.mod_pos_bound. assumption.
Qed.

(** X17.  The text of [formatTokens(raw)] is the decimal of
    [floor(raw / 1000000)], a dot, and exactly six digits whose value is
    [raw mod 1000000], for every [raw]: for a negative amount that is not
    a whole number of shares the whole part is rounded down and the
    fraction is the complement. *)
Theorem formatTokens_text_shape (raw : Z) :
  exists fraction,
    formatTokensText raw = pretty (raw / basePrecision) +:+ "." +:+ fraction /\
    String.length fraction = 6%nat /\
    decimalValue 0 fraction = Z.to_N (raw mod basePrecision).
Proof.
  destruct (formatTokens_parts raw) as (Hdiv & Hmod & Hrange).
  exists (zeroPadded 6 (raw mod basePrecision)).
  unfold formatTokensText. cbv zeta. rewrite Hdiv, Hmod.
  split; [reflexivity|].
  split; [now apply zeroPadded_6_length|apply zeroPadded_value; lia].
Qed.

(** X18.  [formatTokens] never prints two different amounts alike. *)
Theorem formatTokens_text_is_injective (raw1 raw2 : Z) :
  formatTokensText raw1 = formatTokensText raw2 -> raw1 = raw2.
Proof.
  intros Heq.
  destruct (formatTokens_parts raw1) as (Hdiv1 & Hmod1 & Hrange1).
  destruct (formatTokens_parts raw2) as (Hdiv2 & Hmod2 & Hrange2).
  unfold formatTokensText in Heq. cbv zeta in Heq.
  rewrite Hdiv1, Hmod1, Hdiv2, Hmod2 in Heq.
  apply string_app_inj_suffix in Heq as [Hwhole Hfrac].
  - apply (inj pretty) in Hwhole.
    rewrite !string_app_cons, !string_app_nil in Hfrac.
    injection Hfrac as Hfrac.
    apply (f_equal (decimalValue 0)) in Hfrac.
    rewrite !zeroPadded_value in Hfrac by lia.
    pose proof basePrecision_pos as HS.
    rewrite (Z.div_mod raw1 basePrecision), (Z.div_mod raw2 basePrecision) by lia.
    rewrite Hwhole. f_equal. lia.
  - rewrite !string_app_cons, !string_app_nil. cbn [String.length].
    now rewrite !zeroPadded_6_length.
Qed.

Lemma formatTokens_text_is_injective_witness :
  formatTokensText (5 + 0) = formatTokensText 5 /\ 5 + 0 = 5.
Proof.
  assert (H : formatTokensText (5 + 0) = formatTokensText 5) by reflexivity.
  split; [exact H|].
  apply (formatTokens_text_is_injective (5 + 0) 5 H).
Defined.

(** ** Amounts that are the entry the call debits

    The methods debit with [x.Sub(x, amount)] and credit, or burn, with a
    later read of [amount].  When [amount] is [x] itself, the debit
    leaves zero in it and the later read finds that zero. *)

Lemma run_move_two (l : ledger) (from to : string) (y z b : Z) (w : World) :
  balancesOf l w !! from = Some b ->
  (init_if_nil l to ;;; Sub l from y ;;; Add l to z) w =
  Done tt (setBalances l (credit to z (<[from := b - y]> (balancesOf l w))) w).
Proof.
  intros Hb.
  rewrite run_init_if_nil.
  destruct (balancesOf l w !! to) as [x|] eqn:Hto.
  - rewrite run_Sub, Hb, Add_run, balancesOf_setBalances.
    unfold credit.
    destruct (<[from:=b - y]> (balancesOf l w) !! to) as [x'|] eqn:Hx.
    + cbn. f_equal. destruct l, w as [[] []]; reflexivity.
    + exfalso. rewrite lookup_insert in Hx. case_decide; congruence.
  - assert (Hne : to <> from) by congruence.
    rewrite run_Sub, balancesOf_setBalances, lookup_insert_ne, Hb by assumption.
    rewrite Add_run, balancesOf_setBalances.
    rewrite lookup_insert_ne, lookup_insert_eq by congruence.
    f_equal.
    rewrite <- (credit_after_init from to z (b - y)) by assumption.
    unfold credit at 1.
    rewrite lookup_insert_ne, lookup_insert_eq by congruence. cbn.
    destruct l, w as [[] []]; reflexivity.
Qed.

Lemma move_own_entry (l : ledger) (from to : string) (b : Z) (w : World) :
  balancesOf l w !! from = Some b ->
  (init_if_nil l to ;;; Ptr.Sub l from (Entry l from) ;;; Ptr.Add l to (Entry l from)) w
  = Done tt (setBalances l (credit to 0 (<[from := 0]> (balancesOf l w))) w).
Proof.
  intros Hb.
  rewrite <- (Z.sub_diag b), <- (run_move_two l from to b (b - b) b w Hb).
  assert (Hp : target (Entry l from) w = Some b) by exact Hb.
  unfold bind at 1 3. rewrite init_if_nil_returns.
  pose proof (target_after_init _ l to w b Hp) as Hp1.
  set (w1 := final_state (init_if_nil l to w)) in *.
  rewrite (run_Ptr_Sub l from w1 _ b Hp1), !run_Sub.
  cbn [target] in Hp1. rewrite Hp1.
  apply Ptr_Add_run. cbn [target].
  now rewrite balancesOf_setBalances, lookup_insert_eq.
Qed.

Lemma sumZ_after_own_entry (m : gmap string Z) (from to : string) (b : Z) :
  m !! from = Some b ->
  sumZ (credit to 0 (<[from := 0]> m)) = sumZ m - b.
Proof.
  intros Hb. rewrite sumZ_credit, (sumZ_insert_present m from b) by assumption. lia.
Qed.

(** X23.  [Transfer] whose amount is the sender's own wrapper balance
    entry, and [Interact] towards a plain address whose amount is the
    sender's own stock balance entry, return whatever the balance [b] is:
    the sender is left with zero and the recipient is credited nothing
    (its entry is created at zero when absent).  The balance is
    destroyed: the sum of the ledger's balances falls by [b] while both
    total supplies stay as they were. *)
Theorem transfer_of_own_entry_destroys_it (w : World) (from to : string) (b : Z) :
  (ow_balances (ow w) !! from = Some b ->
   let m := credit to 0 (<[from := 0]> (ow_balances (ow w))) in
   Ptr.Transfer from to (Entry Wrapper from) w = Done tt (setBalances Wrapper m w) /\
   m !! from = Some 0 /\
   (to <> from -> m !! to = Some (default 0 (ow_balances (ow w) !! to))) /\
   sumZ m = sumZ (ow_balances (ow w)) - b /\
   ow_totalSupply (ow (setBalances Wrapper m w)) = ow_totalSupply (ow w)) /\
  (isContract to = false ->
   st_balances (st w) !! from = Some b ->
   let m := credit to 0 (<[from := 0]> (st_balances (st w))) in
   Ptr.Main.Interact from to (Entry Stock from) w = Done tt (setBalances Stock m w) /\
   Ptr.Part001.Interact from to (Entry Stock from) w = Done tt (setBalances Stock m w) /\
   m !! from = Some 0 /\
   (to <> from -> m !! to = Some (default 0 (st_balances (st w) !! to))) /\
   sumZ m = sumZ (st_balances (st w)) - b /\
   st_totalSupply (st (setBalances Stock m w)) = st_totalSupply (st w)).
Proof.
  assert (Hfrom : forall m : gmap string Z, credit to 0 (<[from := 0]> m) !! from = Some 0).
  { intros m. unfold credit. destruct (decide (to = from)) as [->|Hne].
    - now rewrite lookup_insert_eq, lookup_insert_eq.
    - now rewrite lookup_insert_ne, lookup_insert_eq by assumption. }
  assert (Hto : forall m : gmap string Z,
            to <> from -> credit to 0 (<[from := 0]> m) !! to = Some (default 0 (m !! to))).
  { intros m Hne. rewrite credit_lookup, lookup_insert_ne by congruence.
    f_equal. lia. }
  split.
  - intros Hb. cbv zeta.
    split; [|split; [apply Hfrom|split; [apply Hto|split;
      [now apply sumZ_after_own_entry|reflexivity]]]].
    assert (Hp : target (Entry Wrapper from) w = Some b) by exact Hb.
    unfold Ptr.Transfer.
    rewrite (run_passed w (Entry Wrapper from) b Hp).
    rewrite (run_Ptr_less Wrapper from w _ b Hp), run_less.
    cbn [balancesOf]. rewrite Hb, Z.ltb_irrefl.
    now apply (move_own_entry Wrapper from to b).
  - intros Hplain Hb. cbv zeta.
    assert (Hp : target (Entry Stock from) w = Some b) by exact Hb.
    assert (Hrun : Ptr.dispatch from to (Entry Stock from) w
                   = Done tt (setBalances Stock
                                (credit to 0 (<[from := 0]> (st_balances (st w)))) w)).
    { unfold Ptr.dispatch. rewrite Hplain.
      rewrite (run_Ptr_less Stock from w _ b Hp), run_less.
      cbn [balancesOf]. rewrite Hb, Z.ltb_irrefl.
      now apply (move_own_entry Stock from to b). }
    split; [now rewrite (Main_Interact_dispatch from to _ b w Hp)|].
    split; [now rewrite (Part001_Interact_dispatch from to _ b w Hp)|].
    split; [apply Hfrom|]. split; [apply Hto|].
    split; [now apply sumZ_after_own_entry|reflexivity].
Qed.

Lemma transfer_of_own_entry_destroys_it_witness :
  let w := final_state (runCalls
             (cons (CallMint "0xREECE" 10)
             (cons (CallInteract "0xREECE" "0xCONTRACT" (Own 5000000)) nil)) fresh) in
  exists w',
    Ptr.Transfer "0xCONTRACT" "0xBOB" (Entry Wrapper "0xCONTRACT") w = Done tt w' /\
    ow_balances (ow w') !! "0xCONTRACT" = Some 0 /\
    ow_balances (ow w') !! "0xBOB" = Some 0 /\
    ow_totalSupply (ow w') = 5000000.
Proof.
  cbv zeta.
  set (w := final_state (runCalls
              (cons (CallMint "0xREECE" 10)
              (cons (CallInteract "0xREECE" "0xCONTRACT" (Own 5000000)) nil)) fresh)).
  assert (Hb : ow_balances (ow w) !! "0xCONTRACT" = Some 5000000)
    by (vm_compute; reflexivity).
  destruct (transfer_of_own_entry_destroys_it w "0xCONTRACT" "0xBOB" 5000000) as [H _].
  destruct (H Hb) as (Hrun & Hfrom & Hto & _ & Hs).
  eexists. split; [exact Hrun|].
  split; [exact Hfrom|]. split; [|rewrite Hs; vm_compute; reflexivity].
  cbn [setBalances with_ow ow ow_balances ow_with_balances].
  rewrite Hto by discriminate. vm_compute. reflexivity.
Defined.

Lemma euclid_div_zero (y : Z) : ZEuclid.div 0 y = 0.
Proof.
  destruct (Z.eq_dec y 0) as [->|Hy]; [reflexivity|].
  pose proof (ZEuclid.div_mod 0 y Hy) as Hdm.
  pose proof (ZEuclid.mod_always_pos 0 y Hy) as Hm.
  nia.
Qed.

(** X24.  [Wrap] whose amount is the sender's own stock balance entry,
    holding [b], returns when the rate is not zero: it mints
    [floor(b * scale / rate)] to the sender and to the supply, leaves the
    sender's stock balance at zero and credits the custody address with
    nothing, so that the [b] underlying units are destroyed and the
    minted tokens are not backed by them.  [Interact] towards a contract
    with such an amount is that [Wrap] followed by a [Transfer] of
    zero. *)
Theorem Wrap_of_own_entry_backs_nothing (w : World) (from to : string) (b : Z) :
  st_balances (st w) !! from = Some b ->
  ow_exchangeRate (ow w) <> 0 ->
  let minted := ZEuclid.div (b * basePrecision) (ow_exchangeRate (ow w)) in
  let w1 :=
    {| st := st_with_balances
               (credit (ow_ticker (ow w)) 0 (<[from := 0]> (st_balances (st w)))) (st w);
       ow := ow_with_totalSupply (ow_totalSupply (ow w) + minted)
               (ow_with_balances (credit from minted (ow_balances (ow w))) (ow w)) |} in
  Ptr.Wrap from (Entry Stock from) w = Done tt w1 /\
  st_balances (st w1) !! from = Some 0 /\
  (from <> ow_ticker (ow w) -> custodyBalance w1 = custodyBalance w) /\
  sumZ (st_balances (st w1)) = sumZ (st_balances (st w)) - b /\
  (isContract to = true ->
   Ptr.Main.Interact from to (Entry Stock from) w
   = (Ptr.Wrap from (Entry Stock from) ;;; Ptr.Transfer from to (Own 0)) w).
Proof.
  intros Hb Hr. cbv zeta.
  set (minted := ZEuclid.div (b * basePrecision) (ow_exchangeRate (ow w))).
  assert (Hp : target (Entry Stock from) w = Some b) by exact Hb.
  assert (Hfrom : credit (ow_ticker (ow w)) 0 (<[from := 0]> (st_balances (st w))) !! from
                  = Some 0).
  { unfold credit. destruct (decide (ow_ticker (ow w) = from)) as [->|Hne].
    - now rewrite lookup_insert_eq, lookup_insert_eq.
    - now rewrite lookup_insert_ne, lookup_insert_eq by assumption. }
  assert (Hrun : Ptr.Wrap from (Entry Stock from) w
                 = Done tt
                     {| st := st_with_balances
                                (credit (ow_ticker (ow w)) 0
                                   (<[from := 0]> (st_balances (st w)))) (st w);
                        ow := ow_with_totalSupply (ow_totalSupply (ow w) + minted)
                                (ow_with_balances
                                   (credit from minted (ow_balances (ow w))) (ow w)) |}).
  { unfold Ptr.Wrap.
    rewrite (run_passed w _ b Hp), (run_Ptr_less Stock from w _ b Hp), run_less.
    cbn [balancesOf]. rewrite Hb, Z.ltb_irrefl.
    rewrite run_get, (run_read w _ b Hp), run_big_Div.
    destruct (Z.eqb_spec (ow_exchangeRate (ow w)) 0) as [|_]; [contradiction|].
    rewrite (run_Ptr_Sub Stock from w _ b Hp), run_Sub.
    cbn [balancesOf]. rewrite Hb, Z.sub_diag.
    rewrite (run_Ptr_credit Stock _ (Entry Stock from) 0)
      by (cbn [target]; now rewrite balancesOf_setBalances, lookup_insert_eq).
    rewrite run_credit.
    rewrite (fun x K u => run_Ptr_credit Wrapper from (Own x) x K u eq_refl).
    rewrite run_credit.
    fold minted. destruct w as [[] []]; reflexivity. }
  split; [exact Hrun|].
  split; [exact Hfrom|].
  split.
  { intros Hne. unfold custodyBalance.
    cbn [st ow st_balances st_with_balances ow_ticker ow_with_totalSupply
         ow_with_balances].
    rewrite credit_lookup, lookup_insert_ne by assumption.
    cbn. lia. }
  split.
  { cbn [st st_balances st_with_balances]. now apply sumZ_after_own_entry. }
  intros Hto.
  rewrite (Main_Interact_dispatch from to _ b w Hp).
  unfold Ptr.dispatch. rewrite Hto. unfold bind at 1 5. rewrite Hrun.
  rewrite run_get.
  rewrite (run_read _ (Entry Stock from) 0) by exact Hfrom.
  rewrite run_big_Div.
  cbn [ow ow_exchangeRate ow_with_totalSupply ow_with_balances].
  destruct (Z.eqb_spec (ow_exchangeRate (ow w)) 0) as [|_]; [contradiction|].
  change (0 * basePrecision) with 0. now rewrite euclid_div_zero.
Qed.

Lemma Wrap_of_own_entry_backs_nothing_witness :
  let w := final_state (onStock (Mint "0xREECE" 10) fresh) in
  exists w1,
    Ptr.Wrap "0xREECE" (Entry Stock "0xREECE") w = Done tt w1 /\
    st_balances (st w1) !! "0xREECE" = Some 0 /\
    custodyBalance w1 = 0 /\
    ow_totalSupply (ow w1) = 10000000.
Proof.
  cbv zeta.
  set (w := final_state (onStock (Mint "0xREECE" 10) fresh)).
  assert (Hb : st_balances (st w) !! "0xREECE" = Some 10000000)
    by (vm_compute; reflexivity).
  assert (Hr : ow_exchangeRate (ow w) <> 0) by (vm_compute; discriminate).
  destruct (Wrap_of_own_entry_backs_nothing w "0xREECE" "0xCONTRACT" 10000000 Hb Hr)
    as (Hrun & Hfrom & Hcust & _).
  eexists. split; [exact Hrun|]. split; [exact Hfrom|].
  split; [rewrite Hcust by (vm_compute; discriminate); vm_compute; reflexivity|].
  vm_compute. reflexivity.
Defined.

(** X25.  [Unwrap] whose amount is the holder's own wrapper balance
    entry, holding [b], pays out [floor(b * rate / scale)] from custody
    and leaves the holder with zero, but burns nothing from the total
    supply: [totalSupply.Sub] reads the amount after the holder's [Sub]
    has zeroed it.  So it is in main.go (holder and recipient are the
    argument, whose stock entry must exist), in part_001 (holder
    ["0xCONTRACT"]), and in [Claim] from ["0xCONTRACT"], which hands such
    an amount on unclamped. *)
Theorem Unwrap_of_own_entry_burns_no_supply (w : World) (holder to : string) (b c : Z) :
  st_balances (st w) !! ow_ticker (ow w) = Some c ->
  let custody := ow_ticker (ow w) in
  let stock := st_balances (st w) in
  (ow_balances (ow w) !! holder = Some b ->
   is_Some (stock !! holder) ->
   let w' :=
     setBalances Stock
       (credit holder (b * ow_exchangeRate (ow w) / basePrecision)
          (<[custody := c - b * ow_exchangeRate (ow w) / basePrecision]> stock))
       (setBalances Wrapper (<[holder := 0]> (ow_balances (ow w))) w) in
   Ptr.Main.Unwrap holder (Entry Wrapper holder) w = Done tt w' /\
   ow_totalSupply (ow w') = ow_totalSupply (ow w) /\
   sumZ (ow_balances (ow w')) = sumZ (ow_balances (ow w)) - b) /\
  (ow_balances (ow w) !! Part001.contractAddr = Some b ->
   let w' :=
     setBalances Stock
       (credit to (b * ow_exchangeRate (ow w) / basePrecision)
          (<[custody := c - b * ow_exchangeRate (ow w) / basePrecision]> stock))
       (setBalances Wrapper (<[Part001.contractAddr := 0]> (ow_balances (ow w))) w) in
   Ptr.Part001.Unwrap to (Entry Wrapper Part001.contractAddr) w = Done tt w' /\
   Ptr.Part001.Claim Part001.contractAddr to (Entry Wrapper Part001.contractAddr) w
   = Done tt w' /\
   ow_totalSupply (ow w') = ow_totalSupply (ow w) /\
   sumZ (ow_balances (ow w')) = sumZ (ow_balances (ow w)) - b).
Proof.
  intros Hc. cbv zeta.
  pose proof basePrecision_pos as HS.
  assert (Hsum : forall k, ow_balances (ow w) !! k = Some b ->
            sumZ (<[k := 0]> (ow_balances (ow w))) = sumZ (ow_balances (ow w)) - b).
  { intros k Hk. rewrite (sumZ_insert_present _ k b) by assumption. lia. }
  split.
  - intros Hb [d Hd].
    split; [|split; [reflexivity|now apply Hsum]].
    assert (Hp : target (Entry Wrapper holder) w = Some b) by exact Hb.
    unfold Ptr.Main.Unwrap.
    rewrite (run_passed w _ b Hp), (run_Ptr_less Wrapper holder w _ b Hp), run_less.
    cbn [balancesOf]. rewrite Hb, Z.ltb_irrefl.
    rewrite run_get, (run_read w _ b Hp), run_big_Div.
    destruct (Z.eqb_spec basePrecision 0) as [|_]; [lia|].
    rewrite euclid_div_pos by assumption.
    rewrite (run_Ptr_Sub Wrapper holder w _ b Hp), run_Sub.
    cbn [balancesOf]. rewrite Hb, Z.sub_diag.
    rewrite (run_Ptr_burn _ (Entry Wrapper holder) 0)
      by (cbn [target]; now rewrite balancesOf_setBalances, lookup_insert_eq).
    unfold burn. rewrite run_modify.
    rewrite (fun x K u => run_Ptr_Sub Stock (ow_ticker (ow w)) u (Own x) x eq_refl K).
    rewrite run_Sub.
    cbn [balancesOf setBalances with_ow with_st st ow st_balances ow_balances
         ow_with_balances ow_with_totalSupply ow_ticker].
    rewrite Hc.
    rewrite (Ptr_Add_run Stock holder (Own _) _ _ eq_refl), Add_run.
    cbn [balancesOf setBalances with_ow with_st st ow st_balances ow_balances
         st_with_balances].
    unfold credit.
    destruct (<[ow_ticker (ow w) := c - b * ow_exchangeRate (ow w) / basePrecision]>
                (st_balances (st w)) !! holder) as [e|] eqn:He.
    + cbn. rewrite Z.sub_0_r. destruct w as [[] []]; reflexivity.
    + exfalso. rewrite lookup_insert in He. case_decide; congruence.
  - intros Hb.
    assert (Hp : target (Entry Wrapper Part001.contractAddr) w = Some b) by exact Hb.
    assert (Hrun : Ptr.Part001.Unwrap to (Entry Wrapper Part001.contractAddr) w
                   = Done tt
                       (setBalances Stock
                          (credit to (b * ow_exchangeRate (ow w) / basePrecision)
                             (<[ow_ticker (ow w)
                                := c - b * ow_exchangeRate (ow w) / basePrecision]>
                                (st_balances (st w))))
                          (setBalances Wrapper
                             (<[Part001.contractAddr := 0]> (ow_balances (ow w))) w))).
    { unfold Ptr.Part001.Unwrap.
      change Ptr.Part001.contractAddr with Part001.contractAddr.
      rewrite (run_passed w _ b Hp), run_load.
      cbn [balancesOf]. rewrite Hb.
      rewrite (run_compare w _ b Hp), Z.ltb_irrefl.
      rewrite run_get, (run_read w _ b Hp), run_big_Div.
      destruct (Z.eqb_spec basePrecision 0) as [|_]; [lia|].
      rewrite euclid_div_pos by assumption.
      rewrite (run_Ptr_Sub Wrapper _ w _ b Hp), run_Sub.
      cbn [balancesOf]. rewrite Hb, Z.sub_diag.
      rewrite (run_Ptr_burn _ (Entry Wrapper Part001.contractAddr) 0)
        by (cbn [target]; now rewrite balancesOf_setBalances, lookup_insert_eq).
      unfold burn. rewrite run_modify.
      rewrite (fun x K u => run_Ptr_Sub Stock (ow_ticker (ow w)) u (Own x) x eq_refl K).
      rewrite run_Sub.
      cbn [balancesOf setBalances with_ow with_st st ow st_balances ow_balances
           ow_with_balances ow_with_totalSupply ow_ticker].
      rewrite Hc.
      rewrite (Ptr_credit_run Stock to (Own _) _ _ eq_refl), credit_run.
      rewrite Z.sub_0_r. destruct w as [[] []]; reflexivity. }
    split; [exact Hrun|].
    split; [|split; [reflexivity|now apply Hsum]].
    unfold Ptr.Part001.Claim.
    rewrite (run_passed w _ b Hp).
    change (negb (isContract Part001.contractAddr)) with false. cbv iota.
    rewrite run_get, Hp.
    change ((formatTokens (Some b) ;;; ?K) w) with (K w).
    rewrite run_load. cbn [balancesOf]. rewrite Hb.
    rewrite (run_compare w _ b Hp), Z.ltb_irrefl.
    rewrite run_ret, run_get, (run_read w _ b Hp), run_big_Div.
    destruct (Z.eqb_spec basePrecision 0) as [|_]; [lia|].
    exact Hrun.
Qed.

Lemma Unwrap_of_own_entry_burns_no_supply_witness :
  let w := final_state (runCalls
             (cons (CallMint "0xREECE" 10)
             (cons (CallInteract "0xREECE" "0xCONTRACT" (Own 5000000)) nil)) fresh) in
  exists w',
    Ptr.Part001.Claim "0xCONTRACT" "0xREECE" (Entry Wrapper "0xCONTRACT") w = Done tt w' /\
    ow_totalSupply (ow w') = 5000000 /\
    sumZ (ow_balances (ow w')) = 0.
Proof.
  cbv zeta.
  set (w := final_state (runCalls
              (cons (CallMint "0xREECE" 10)
              (cons (CallInteract "0xREECE" "0xCONTRACT" (Own 5000000)) nil)) fresh)).
  assert (Hc : st_balances (st w) !! ow_ticker (ow w) = Some 5000000)
    by (vm_compute; reflexivity).
  assert (Hb : ow_balances (ow w) !! Part001.contractAddr = Some 5000000)
    by (vm_compute; reflexivity).
  destruct (Unwrap_of_own_entry_burns_no_supply w "0xCONTRACT" "0xREECE"
              5000000 5000000 Hc) as [_ H].
  destruct (H Hb) as (_ & Hclaim & Hs & Hsum).
  eexists. split; [exact Hclaim|].
  split; [rewrite Hs; vm_compute; reflexivity|].
  rewrite Hsum. vm_compute. reflexivity.
Defined.

(** X26.  A call whose amount is a number and not the very balance entry
    the call debits does what the same call does with a private copy of
    that number; [Interact] towards a contract reads its amount again
    after [Wrap] and is [Wrap] of the first reading followed by
    [Transfer] of what the second reading converts to, which is the
    minted amount whenever the amount is none of the objects [Wrap]
    writes. *)
Theorem unaliased_call_is_by_value (w : World) (c : call) :
  unaliased w c ->
  runCall c w = runAll (operationsOf w c) w /\
  (match c with
   | CallInteract from to amount | CallInteract001 from to amount =>
       isContract to = true -> keptByWrap from (ow_ticker (ow w)) amount
   | _ => True
   end ->
   runCall c w = run (byValue w c) w).
Proof.
  intros Hu. split; [now apply runCall_unaliased|].
  assert (Hone : forall o, runAll (cons o nil) w = run o w)
    by (intros o; cbn [runAll]; now rewrite bind_ret_tt).
  assert (Hint : forall from to p,
            unaliased w (CallInteract from to p) ->
            (isContract to = true -> keptByWrap from (ow_ticker (ow w)) p) ->
            Ptr.dispatch from to p w = Interact from to (valueOf p w) w).
  { intros from to p [[a Ha] Hne] Hkept. rewrite (valueOf_Some p w a Ha).
    destruct (isContract to) eqn:Hto.
    - apply dispatch_contract_kept; auto.
    - now apply dispatch_plain_unaliased. }
  destruct c; intros Hk;
    try (rewrite (runCall_unaliased w _ Hu); apply Hone).
  - destruct Hu as [[a Ha] Hne]. cbn [runCall byValue run].
    rewrite (Main_Interact_dispatch from to amount a w Ha).
    apply Hint; [split; [now exists a|assumption]|assumption].
  - destruct Hu as [[a Ha] Hne]. cbn [runCall byValue run].
    rewrite (Part001_Interact_dispatch from to amount a w Ha).
    apply Hint; [split; [now exists a|assumption]|assumption].
Qed.

Lemma unaliased_call_is_by_value_witness :
  let w := final_state (runCalls
             (cons (CallMint "0xREECE" 10)
             (cons (CallInteract "0xREECE" "0xCONTRACT" (Own 5000000)) nil)) fresh) in
  runCall (CallTransfer "0xCONTRACT" "0xBOB" (Entry Stock "0xREECE")) w
  = run (OpTransfer "0xCONTRACT" "0xBOB" 5000000) w.
Proof.
  cbv zeta.
  set (w := final_state (runCalls
              (cons (CallMint "0xREECE" 10)
              (cons (CallInteract "0xREECE" "0xCONTRACT" (Own 5000000)) nil)) fresh)).
  assert (Hu : unaliased w (CallTransfer "0xCONTRACT" "0xBOB" (Entry Stock "0xREECE")))
    by (split; [eexists; vm_compute; reflexivity|discriminate]).
  destruct (unaliased_call_is_by_value w _ Hu) as [_ H].
  rewrite (H I). vm_compute. reflexivity.
Defined.

(** ** Instances of the earlier lemmas *)

Lemma Rebase_split_exact_witness :
  exists t',
    Rebase (VUint64 2) (final_state (Mint "0xREECE" 10 (NewStockToken "TSLA")))
      = Done tt t' /\
    st_rebaseMultiplier t' = 2.
Proof.
  destruct (Rebase_split_exact (final_state (Mint "0xREECE" 10 (NewStockToken "TSLA"))) 2)
    as (t' & Hrun & _ & Hm & _); [lia|].
  exists t'. split; [exact Hrun|exact Hm].
Defined.

Lemma Claim_clamps_witness :
  let w := final_state
             (runAll (cons (OpMint "0xREECE" 10)
                     (cons (OpInteract "0xREECE" "0xCONTRACT" 5000000) nil)) fresh) in
  exists w',
    Ptr.Part001.Claim Part001.contractAddr "0xREECE" (Own 9000000) w = Done tt w' /\
    ow_balances (ow w') !! Part001.contractAddr = Some 0 /\
    st_balances (st w') !! "0xREECE" = Some 10000000.
Proof.
  cbv zeta.
  set (w := final_state
              (runAll (cons (OpMint "0xREECE" 10)
                      (cons (OpInteract "0xREECE" "0xCONTRACT" 5000000) nil)) fresh)).
  assert (H0 : target (Own 9000000) w = Some 9000000) by reflexivity.
  assert (Hne : Own 9000000 <> Entry Wrapper Part001.contractAddr) by discriminate.
  assert (H1 : ow_balances (ow w) !! Part001.contractAddr = Some 5000000)
    by (vm_compute; reflexivity).
  assert (H2 : st_balances (st w) !! ow_ticker (ow w) = Some 5000000)
    by (vm_compute; reflexivity).
  pose proof (Claim_clamps w "0xREECE" (Own 9000000) 9000000 5000000 5000000
                H0 Hne H1 H2) as Hc.
  cbv zeta in Hc.
  eexists. split; [exact Hc|].
  split; vm_compute; reflexivity.
Defined.

